(** * The install protocol of the state-channel runtime

    A shallow embedding of [INSTALL_PROTOCOL] (both roles) and of
    [computeInstallStateChannelTransition], with the properties the
    specification states about them.

    - JS objects used as maps ([TokenIndexedCoinTransferMap], the app
      tables of a channel) are [gmap]s keyed by strings; an object literal
      with computed keys [{[k1]: v1, [k2]: v2}] is [<[k2:=v2]> (<[k1:=v1]> ∅)],
      so a later key overwrites an equal earlier one, as in JS.
    - [BigNumber] amounts are [Z]; addresses, identifiers, hashes and
      signatures are strings, as in the source.
    - [multisigOwners] is the ordered pair of the two owners.
    - [AppInstance.fromJson] and [toJson] are the identity on the fields
      kept here; logging and timing are left out.
    - The two [async function*] generators are terms of an inductive
      request/response tree [Gen]; a host answers each request, and a run
      is the list of requests with their answers, in program order.
    - What the protocol imports is a parameter of the development
      ([Utils], [Helpers]); [SpecModel] gives the helpers the behaviour the
      specification describes, for the properties that rest on it.
    - The other modules ([TestUtils], [Client], [ClientDefaults]) are
      [async] functions over the calls they await: a [Task] is run
      against the services it calls, which resolve or refuse each call; a
      callback handed to [once] is part of the call that registers it. *)

From stdpp Require Import gmap strings list fin_maps pretty.
From Stdlib Require Import ZArith.

Local Open Scope Z_scope.

(** ** Data model *)

Abbreviation Address := string (only parsing).
Abbreviation AssetId := string (only parsing).
Abbreviation PublicIdentifier := string (only parsing).
Abbreviation Hash := string (only parsing).
Abbreviation Signature := string (only parsing).

(** [{tokenAddress → {address → amount}}] *)
Abbreviation TokenIndexedCoinTransferMap := (gmap string (gmap string Z)) (only parsing).

(** The fields of an [AppInstance] the install protocol reads. *)
Record AppInstance := {
  identityHash : Hash;
  initiatorIdentifier : PublicIdentifier;
  responderIdentifier : PublicIdentifier;
  initiatorDeposit : Z;
  responderDeposit : Z;
  initiatorDepositAssetId : AssetId;
  responderDepositAssetId : AssetId;
}.

(** The free balance: the distinguished app whose state is the
    token-indexed table of the owners' balances. *)
Record FreeBalance := {
  fbIdentityHash : Hash;
  balancesIndexedByToken : TokenIndexedCoinTransferMap;
  latestVersionNumber : Z;
  stateTimeout : Z;
}.

Record StateChannel := {
  multisigAddress : Address;
  multisigOwners : Address * Address;
  freeBalance : FreeBalance;
  appInstances : gmap string AppInstance;
  proposedAppInstances : gmap string AppInstance;
  monotonicNumProposedApps : Z;
}.

(** A set-state commitment on an app: the claim that
    [(appIdentityHash, stateHash, versionNumber, timeout)] is its latest
    state, with the signatures it has been given. *)
Record SetStateCommitment := {
  challengeRegistry : Address;
  commitmentAppIdentityHash : Hash;
  commitmentStateHash : Hash;
  commitmentVersionNumber : Z;
  commitmentStateTimeout : Z;
  signatures : list Signature;
}.

(** [stateChannel.multisigOwners[0]] and [[1]] *)
Definition owner0 (sc : StateChannel) : Address := fst (multisigOwners sc).
Definition owner1 (sc : StateChannel) : Address := snd (multisigOwners sc).

(** The errors a run can end in.  The source throws [Error] objects that
    differ by their message; the constructors name them as the
    specification's taxonomy does. *)
Inductive ProtocolError :=
| NoStateChannel
| InsufficientFunds (party : string) (asset : Address) (have need : Z)
| HostRejected (reason : string)
| InvalidCounterpartySignature
| AppNotProposed
| NoAppInstance (id : Hash)
| TypeError (what : string)
| HostFailure (what : string).

Definition throw {A} (e : ProtocolError) : sum ProtocolError A := inl e.

(** ** Messages and contexts *)

Inductive ProtocolName := install | otherProtocol (name : string).
Inductive ProtocolRoles := initiator | responder.
Inductive PersistAppType := CreateInstance | UpdateInstance | RemoveInstance | Reject.

(** [ProtocolParams.Install] *)
Record InstallParams := {
  paramsInitiatorIdentifier : PublicIdentifier;
  paramsResponderIdentifier : PublicIdentifier;
  paramsMultisigAddress : Address;
  proposal : AppInstance;
  appIdentityHash : Hash;
}.

Record CustomData := { signature : Signature }.

(** [ProtocolMessageData]; [params] is an optional field of the wire
    record. *)
Record ProtocolMessageData := {
  processID : string;
  protocol : ProtocolName;
  params : option InstallParams;
  to : PublicIdentifier;
  customData : CustomData;
  seq : Z;
}.

Record InstallMiddlewareContext := {
  mwParams : InstallParams;
  mwStateChannel : StateChannel;
  mwAppInstance : AppInstance;
  mwRole : ProtocolRoles;
}.

(** The part of the protocol [Context] the install flows read; [network]
    stands for the network context (contract addresses, chain) that the
    parties of a channel share. *)
Record Context := {
  network : Address;
  preProtocolStateChannel : option StateChannel;
  message : ProtocolMessageData;
}.

(** ** Imports *)

(** What the protocol imports from [@connext/utils] and [../constants]:
    address normalisation, signer derivation and the sequence-number
    sentinel. *)
Class Utils := {
  getAddressFromAssetId : AssetId → Address;
  getSignerAddressFromPublicIdentifier : PublicIdentifier → Address;
  UNASSIGNED_SEQ_NO : Z;
}.

(** What the protocol calls in the rest of the repository: the methods of
    [StateChannel] and of [SetStateCommitment] ([../models],
    [../ethereum]) and the assertions of [../utils] and [./utils].  Each
    may throw. *)
Class Helpers := {
  installApp :
    StateChannel → AppInstance → TokenIndexedCoinTransferMap → sum ProtocolError StateChannel;
  getAppInstance : StateChannel → Hash → sum ProtocolError AppInstance;
  assertSufficientFundsWithinFreeBalance :
    StateChannel → PublicIdentifier → Address → Z → sum ProtocolError unit;
  assertIsValidSignature : Address → Hash → Signature → sum ProtocolError unit;
  getSetStateCommitment : Context → FreeBalance → SetStateCommitment;
  hashToSign : SetStateCommitment → Hash;
  addSignatures : SetStateCommitment → Signature → Signature → SetStateCommitment;
}.

(** The primitives the specification's account of the helpers refers to:
    signer recovery and the two digests. *)
Class Crypto := {
  recoverAddress : Hash → Signature → Address;
  hashOfLatestState : TokenIndexedCoinTransferMap → Hash;
  commitmentDigest : SetStateCommitment → Hash;
}.

(** ** [computeInstallStateChannelTransition] *)

Section Transition.

Context `{Utils, Helpers}.

(** [toBN] on a value that already is a number. *)
Definition toBN (z : Z) : Z := z.

(** The [tokenIndexedBalanceDecrement] the function builds. *)
Definition tokenIndexedBalanceDecrement (stateChannel : StateChannel)
    (proposal : AppInstance) : TokenIndexedCoinTransferMap :=
  let appInitiatorToken := getAddressFromAssetId (initiatorDepositAssetId proposal) in
  let appResponderToken := getAddressFromAssetId (responderDepositAssetId proposal) in
  let appInitiatorFb := getSignerAddressFromPublicIdentifier (initiatorIdentifier proposal) in
  let appResponderFb := getSignerAddressFromPublicIdentifier (responderIdentifier proposal) in
  let sameChannelAndAppOrdering := bool_decide (appInitiatorFb = owner0 stateChannel) in
  if bool_decide (appInitiatorToken ≠ appResponderToken) then
    <[appResponderToken := <[appResponderFb := toBN (responderDeposit proposal)]> ∅]>
      (<[appInitiatorToken := <[appInitiatorFb := toBN (initiatorDeposit proposal)]> ∅]> ∅)
  else
    <[appResponderToken :=
        <[owner1 stateChannel :=
            if sameChannelAndAppOrdering
            then toBN (responderDeposit proposal)
            else toBN (initiatorDeposit proposal)]>
          (<[owner0 stateChannel :=
               if sameChannelAndAppOrdering
               then toBN (initiatorDeposit proposal)
               else toBN (responderDeposit proposal)]> ∅)]> ∅.

Definition computeInstallStateChannelTransition (stateChannel : StateChannel)
    (proposal : AppInstance) : sum ProtocolError StateChannel :=
  installApp stateChannel proposal (tokenIndexedBalanceDecrement stateChannel proposal).

End Transition.

(** ** Opcodes and the generator monad *)

(** The requests a protocol yields, indexed by the type of the value the
    host resumes it with (§6 of the specification).  [IO_SEND_AND_WAIT]
    is resumed with the [data] of the message received. *)
Inductive Opcode : Type → Type :=
| OP_VALIDATE (p : ProtocolName) (c : InstallMiddlewareContext) : Opcode (option string)
| OP_SIGN (commitmentHash : Hash) : Opcode Signature
| IO_SEND (m : ProtocolMessageData) (sc : StateChannel) : Opcode unit
| IO_SEND_AND_WAIT (m : ProtocolMessageData) : Opcode ProtocolMessageData
| PERSIST_APP_INSTANCE (ty : PersistAppType) (sc : StateChannel) (app : AppInstance)
    (c : SetStateCommitment) : Opcode unit.

(** An [async function*] that yields requests: it returns, throws, or
    yields a request and goes on with the value it is resumed with. *)
Inductive Gen (A : Type) : Type :=
| Return (a : A)
| Throw (e : ProtocolError)
| Yield {X : Type} (op : Opcode X) (k : X → Gen A).

Arguments Return {A} a.
Arguments Throw {A} e.
Arguments Yield {A X} op k.

Fixpoint bindGen {A B} (g : Gen A) (f : A → Gen B) : Gen B :=
  match g with
  | Return a => f a
  | Throw e => Throw e
  | Yield op k => Yield op (λ x, bindGen (k x) f)
  end.

#[global] Instance Gen_ret : MRet Gen := λ A a, Return a.
#[global] Instance Gen_bind : MBind Gen := λ A B f g, bindGen g f.

(** [yield [op, ...]] *)
Definition yield {X} (op : Opcode X) : Gen X := Yield op Return.

(** A call to a function that may throw. *)
Definition call {A} (r : sum ProtocolError A) : Gen A :=
  match r with
  | inl e => Throw e
  | inr a => Return a
  end.

(** ** The host *)

(** The host resumes the generator with a value, or fails at the request
    (the run then ends there: the protocols catch nothing). *)
Inductive HostAnswer (X : Type) : Type :=
| Resume (x : X)
| Fail (what : string).

Arguments Resume {X} x.
Arguments Fail {X} what.

(** A request together with what the host answered. *)
Inductive Event : Type :=
| Ev {X : Type} (op : Opcode X) (a : HostAnswer X).

(** A host decides its answer from the requests of the run so far and the
    request at hand. *)
Definition Host := list Event → ∀ X, Opcode X → HostAnswer X.

(** One run of a generator against a host: the events in program order and
    how the run ended. *)
Fixpoint run {A} (host : Host) (hist : list Event) (g : Gen A)
  : list Event * sum ProtocolError A :=
  match g with
  | Return a => (hist, inr a)
  | Throw e => (hist, inl e)
  | Yield op k =>
      match host hist _ op with
      | Resume x => run host (hist ++ [Ev op (Resume x)]) (k x)
      | Fail what => (hist ++ [Ev op (Fail what)], inl (HostFailure what))
      end
  end.

Definition trace {A} (host : Host) (g : Gen A) : list Event := (run host [] g).1.
Definition outcome {A} (host : Host) (g : Gen A) : sum ProtocolError A := (run host [] g).2.

(** Classification of events. *)
Definition isSign (e : Event) : bool :=
  match e with Ev (OP_SIGN _) _ => true | _ => false end.
Definition isSend (e : Event) : bool :=
  match e with Ev (IO_SEND _ _) _ => true | _ => false end.
Definition isSendAndWait (e : Event) : bool :=
  match e with Ev (IO_SEND_AND_WAIT _) _ => true | _ => false end.
Definition isPersist (e : Event) : bool :=
  match e with Ev (PERSIST_APP_INSTANCE _ _ _ _) _ => true | _ => false end.

(** The host accepted the request and resumed the generator. *)
Definition answered (e : Event) : bool :=
  match e with Ev _ (Resume _) => true | Ev _ (Fail _) => false end.

(** JS truthiness of the value [OP_VALIDATE] resumes with: [null] and
    [undefined] ([None]) and the empty string are falsy. *)
Definition truthy (error : option string) : bool :=
  match error with
  | None => false
  | Some reason => negb (bool_decide (reason = ""))
  end.

(** [OP_VALIDATE] was resumed with a falsy value. *)
Definition validatedFalsy (e : Event) : bool :=
  match e with
  | Ev (OP_VALIDATE _ _) (Resume error) => negb (truthy error)
  | _ => false
  end.

(** [OP_VALIDATE] was resumed with [null]. *)
Definition validatedNull (e : Event) : bool :=
  match e with
  | Ev (OP_VALIDATE _ _) (Resume None) => true
  | _ => false
  end.

(** The host keeps to the interface of [OP_VALIDATE] (§6 of the
    specification): it resumes the request with [null] to accept and with
    a non-empty reason to reject, never with the empty string. *)
Definition validatesAsSpecified (host : Host) : Prop :=
  ∀ hist p c, host hist _ (OP_VALIDATE p c) ≠ Resume (Some "").

(** ** The install protocol *)

Section Install.

Context `{Utils, Helpers}.

(** [const { proposal, ... } = params as ProtocolParams.Install] throws a
    [TypeError] when the message has no [params]. *)
Definition destructure (params : option InstallParams) : sum ProtocolError InstallParams :=
  match params with
  | Some p => inr p
  | None => throw (TypeError "Cannot destructure params")
  end.

(** Sequence 0: the initiating party. *)
Definition INSTALL_PROTOCOL_0 (context : Context) : Gen unit :=
  match preProtocolStateChannel context with
  | None => Throw NoStateChannel
  | Some preProtocolStateChannel =>
    params' ← call (destructure (params (message context)));
    let responderIdentifier' := paramsResponderIdentifier params' in
    let proposal := proposal params' in
    call (assertSufficientFundsWithinFreeBalance preProtocolStateChannel
            (initiatorIdentifier proposal)
            (getAddressFromAssetId (initiatorDepositAssetId proposal))
            (toBN (initiatorDeposit proposal)));;
    call (assertSufficientFundsWithinFreeBalance preProtocolStateChannel
            (responderIdentifier proposal)
            (getAddressFromAssetId (responderDepositAssetId proposal))
            (toBN (responderDeposit proposal)));;
    stateChannelAfter ← call (computeInstallStateChannelTransition preProtocolStateChannel proposal);
    newAppInstance ← call (getAppInstance stateChannelAfter (identityHash proposal));
    error ← yield (OP_VALIDATE install
                     {| mwParams := params';
                        mwStateChannel := preProtocolStateChannel;
                        mwAppInstance := newAppInstance;
                        mwRole := initiator |});
    if truthy error then Throw (HostRejected (default "" error)) else
    let freeBalanceUpdateData := getSetStateCommitment context (freeBalance stateChannelAfter) in
    let freeBalanceUpdateDataHash := hashToSign freeBalanceUpdateData in
    mySignatureOnFreeBalanceStateUpdate ← yield (OP_SIGN freeBalanceUpdateDataHash);
    reply ← yield (IO_SEND_AND_WAIT
                     {| processID := processID (message context);
                        params := Some params';
                        protocol := install;
                        to := responderIdentifier';
                        customData := {| signature := mySignatureOnFreeBalanceStateUpdate |};
                        seq := 1 |});
    let counterpartySignatureOnFreeBalanceStateUpdate := signature (customData reply) in
    let responderSignerAddress := getSignerAddressFromPublicIdentifier responderIdentifier' in
    let isChannelInitiator :=
      bool_decide (owner0 stateChannelAfter ≠ responderSignerAddress) in
    call (assertIsValidSignature responderSignerAddress freeBalanceUpdateDataHash
            counterpartySignatureOnFreeBalanceStateUpdate);;
    let freeBalanceUpdateData :=
      addSignatures freeBalanceUpdateData
        (if isChannelInitiator
         then mySignatureOnFreeBalanceStateUpdate
         else counterpartySignatureOnFreeBalanceStateUpdate)
        (if isChannelInitiator
         then counterpartySignatureOnFreeBalanceStateUpdate
         else mySignatureOnFreeBalanceStateUpdate) in
    yield (PERSIST_APP_INSTANCE CreateInstance stateChannelAfter newAppInstance
             freeBalanceUpdateData);;
    mret tt
  end.

(** Sequence 1: the responding party. *)
Definition INSTALL_PROTOCOL_1 (context : Context) : Gen unit :=
  let counterpartySignatureOnFreeBalanceStateUpdate :=
    signature (customData (message context)) in
  match preProtocolStateChannel context with
  | None => Throw NoStateChannel
  | Some preProtocolStateChannel =>
    params' ← call (destructure (params (message context)));
    let initiatorIdentifier' := paramsInitiatorIdentifier params' in
    let proposal := proposal params' in
    call (assertSufficientFundsWithinFreeBalance preProtocolStateChannel
            (initiatorIdentifier proposal)
            (getAddressFromAssetId (initiatorDepositAssetId proposal))
            (toBN (initiatorDeposit proposal)));;
    call (assertSufficientFundsWithinFreeBalance preProtocolStateChannel
            (responderIdentifier proposal)
            (getAddressFromAssetId (responderDepositAssetId proposal))
            (toBN (responderDeposit proposal)));;
    stateChannelAfter ← call (computeInstallStateChannelTransition preProtocolStateChannel proposal);
    newAppInstance ← call (getAppInstance stateChannelAfter (identityHash proposal));
    error ← yield (OP_VALIDATE install
                     {| mwParams := params';
                        mwStateChannel := preProtocolStateChannel;
                        mwAppInstance := newAppInstance;
                        mwRole := responder |});
    if truthy error then Throw (HostRejected (default "" error)) else
    let protocolInitiatorAddr := getSignerAddressFromPublicIdentifier initiatorIdentifier' in
    let freeBalanceUpdateData := getSetStateCommitment context (freeBalance stateChannelAfter) in
    let freeBalanceUpdateDataHash := hashToSign freeBalanceUpdateData in
    call (assertIsValidSignature protocolInitiatorAddr freeBalanceUpdateDataHash
            counterpartySignatureOnFreeBalanceStateUpdate);;
    mySignatureOnFreeBalanceStateUpdate ← yield (OP_SIGN freeBalanceUpdateDataHash);
    let isChannelInitiator :=
      bool_decide (owner0 stateChannelAfter ≠ protocolInitiatorAddr) in
    let freeBalanceUpdateData :=
      addSignatures freeBalanceUpdateData
        (if isChannelInitiator
         then mySignatureOnFreeBalanceStateUpdate
         else counterpartySignatureOnFreeBalanceStateUpdate)
        (if isChannelInitiator
         then counterpartySignatureOnFreeBalanceStateUpdate
         else mySignatureOnFreeBalanceStateUpdate) in
    yield (PERSIST_APP_INSTANCE CreateInstance stateChannelAfter newAppInstance
             freeBalanceUpdateData);;
    yield (IO_SEND
             {| processID := processID (message context);
                protocol := install;
                params := None;
                to := initiatorIdentifier';
                customData := {| signature := mySignatureOnFreeBalanceStateUpdate |};
                seq := UNASSIGNED_SEQ_NO |}
             stateChannelAfter);;
    mret tt
  end.

(** [INSTALL_PROTOCOL]: the flow of each sequence number. *)
Definition INSTALL_PROTOCOL (sequence : nat) : option (Context → Gen unit) :=
  match sequence with
  | 0%nat => Some INSTALL_PROTOCOL_0
  | 1%nat => Some INSTALL_PROTOCOL_1
  | _ => None
  end.

End Install.

(** ** Properties of runs *)

(** Every event of the trace on which [bad] holds comes after an event on
    which [guard] holds. *)
Definition precededBy (guard bad : Event → bool) (tr : list Event) : Prop :=
  ∀ pre e post, tr = pre ++ e :: post → bad e = true →
    ∃ g, g ∈ pre ∧ guard g = true.

(** The same, as a check on a trace. *)
Fixpoint guardedBy (guard bad : Event → bool) (tr : list Event) : bool :=
  match tr with
  | [] => true
  | e :: tr' =>
      if bad e then false
      else if guard e then true
      else guardedBy guard bad tr'
  end.

(** No event of the trace satisfies [bad]. *)
Definition noneOf (bad : Event → bool) (tr : list Event) : bool :=
  forallb (λ e, negb (bad e)) tr.

(** A postcondition holds of a generator started after [hist] when it
    holds however the host answers: at a [Yield], for every value the host
    may resume with and for every failure. *)
Fixpoint wp {A} (g : Gen A) (hist : list Event)
    (Q : list Event → sum ProtocolError A → Prop) : Prop :=
  match g with
  | Return a => Q hist (inr a)
  | Throw e => Q hist (inl e)
  | Yield op k =>
      (∀ x, wp (k x) (hist ++ [Ev op (Resume x)]) Q) ∧
      (∀ what, Q (hist ++ [Ev op (Fail what)]) (inl (HostFailure what)))
  end.

(** A generator reads a reply to [IO_SEND_AND_WAIT] only through [read]
    when, at every such request, replies with equal [read] lead to the same
    continuation. *)
Definition factorsThrough {A X} (read : ProtocolMessageData → Signature)
    (op : Opcode X) : (X → Gen A) → Prop :=
  match op in Opcode X return (X → Gen A) → Prop with
  | IO_SEND_AND_WAIT _ => λ k, ∀ r1 r2, read r1 = read r2 → k r1 = k r2
  | _ => λ _, True
  end.

Fixpoint repliesReadBy {A} (read : ProtocolMessageData → Signature) (g : Gen A) : Prop :=
  match g with
  | Return _ => True
  | Throw _ => True
  | Yield op k => factorsThrough read op k ∧ ∀ x, repliesReadBy read (k x)
  end.

(** ** Observations of a run *)

(** The hash of an [OP_SIGN] request. *)
Definition signedHash (e : Event) : option Hash :=
  match e with Ev (OP_SIGN h) _ => Some h | _ => None end.

(** The signature the host resumed an [OP_SIGN] with. *)
Definition signatureMade (e : Event) : option Signature :=
  match e with Ev (OP_SIGN _) (Resume σ) => Some σ | _ => None end.

(** The reply the host resumed an [IO_SEND_AND_WAIT] with. *)
Definition replyReceived (e : Event) : option ProtocolMessageData :=
  match e with Ev (IO_SEND_AND_WAIT _) (Resume reply) => Some reply | _ => None end.

(** The message of an [IO_SEND] or [IO_SEND_AND_WAIT] request. *)
Definition messageSent (e : Event) : option ProtocolMessageData :=
  match e with
  | Ev (IO_SEND m _) _ => Some m
  | Ev (IO_SEND_AND_WAIT m) _ => Some m
  | _ => None
  end.

(** The commitment of a [PERSIST_APP_INSTANCE] request. *)
Definition commitmentPersisted (e : Event) : option SetStateCommitment :=
  match e with Ev (PERSIST_APP_INSTANCE _ _ _ c) _ => Some c | _ => None end.

(** The value the host resumed an [OP_VALIDATE] with. *)
Definition validateAnswer (e : Event) : option (option string) :=
  match e with Ev (OP_VALIDATE _ _) (Resume error) => Some error | _ => None end.

(** The channel a request hands to the host. *)
Definition channelOf (e : Event) : option StateChannel :=
  match e with
  | Ev (OP_VALIDATE _ c) _ => Some (mwStateChannel c)
  | Ev (IO_SEND _ sc) _ => Some sc
  | Ev (PERSIST_APP_INSTANCE _ sc _ _) _ => Some sc
  | _ => None
  end.

Definition hashesSigned (tr : list Event) : list Hash := omap signedHash tr.
Definition signaturesMade (tr : list Event) : list Signature := omap signatureMade tr.
Definition repliesReceived (tr : list Event) : list ProtocolMessageData := omap replyReceived tr.
Definition messagesSent (tr : list Event) : list ProtocolMessageData := omap messageSent tr.
Definition commitmentsPersisted (tr : list Event) : list SetStateCommitment :=
  omap commitmentPersisted tr.
Definition validateAnswers (tr : list Event) : list (option string) := omap validateAnswer tr.
Definition channelsHandedOut (tr : list Event) : list StateChannel := omap channelOf tr.

(** A request that signs, sends or persists. *)
Definition signsSendsOrPersists (e : Event) : bool :=
  isSign e || isSendAndWait e || isSend e || isPersist e.

(** The signature of the party whose signer address is [owner], in a run
    of the party [me] that signed [σ_me] and received [σ_them]. *)
Definition partySignature (me : Address) (σ_me σ_them : Signature) (owner : Address)
  : Signature :=
  if bool_decide (owner = me) then σ_me else σ_them.

Section Expected.

Context `{Utils, Helpers}.

(** The deposits of a proposal that are denominated in [token]. *)
Definition depositsIn (proposal : AppInstance) (token : Address) : Z :=
  (if bool_decide (getAddressFromAssetId (initiatorDepositAssetId proposal) = token)
   then initiatorDeposit proposal else 0) +
  (if bool_decide (getAddressFromAssetId (responderDepositAssetId proposal) = token)
   then responderDeposit proposal else 0).

(** The free balance after the install, when the transition succeeds. *)
Definition postFreeBalance (stateChannel : StateChannel) (proposal : AppInstance)
  : option FreeBalance :=
  match computeInstallStateChannelTransition stateChannel proposal with
  | inr stateChannelAfter => Some (freeBalance stateChannelAfter)
  | inl _ => None
  end.

(** The channel a party computes from its context, when it gets that
    far, and the hash of the free-balance commitment on it. *)
Definition stateChannelAfter (context : Context) : option StateChannel :=
  match preProtocolStateChannel context, params (message context) with
  | Some pre, Some p =>
      match computeInstallStateChannelTransition pre (proposal p) with
      | inr after => Some after
      | inl _ => None
      end
  | _, _ => None
  end.

Definition freeBalanceUpdateDataHash (context : Context) : option Hash :=
  (λ after, hashToSign (getSetStateCommitment context (freeBalance after)))
    <$> stateChannelAfter context.

(** The two contexts yield the same commitment on every app. *)
Definition sameCommitments (context1 context2 : Context) : Prop :=
  ∀ app, getSetStateCommitment context1 app = getSetStateCommitment context2 app.


End Expected.

(** The two parties are the two channel owners, which differ. *)
Definition partiesAreOwners (sc : StateChannel) (a b : Address) : Prop :=
  owner0 sc ≠ owner1 sc ∧
  (a = owner0 sc ∧ b = owner1 sc ∨ a = owner1 sc ∧ b = owner0 sc).

(** The proposal with the two app parties, their deposits and assets
    exchanged. *)
Definition reverseAppOrder (id : Hash) (p : AppInstance) : AppInstance :=
  {| identityHash := id;
     initiatorIdentifier := responderIdentifier p;
     responderIdentifier := initiatorIdentifier p;
     initiatorDeposit := responderDeposit p;
     responderDeposit := initiatorDeposit p;
     initiatorDepositAssetId := responderDepositAssetId p;
     responderDepositAssetId := initiatorDepositAssetId p |}.

(** ** The free-balance algebra *)

(** Balance of [addr] under [token]; a missing entry is [Zero]. *)
Definition getBalance (fb : TokenIndexedCoinTransferMap) (token addr : Address) : Z :=
  default 0 (default ∅ (fb !! token) !! addr).

(** Total held under [token] by all holders listed there. *)
Definition sumBalances (m : gmap string Z) : Z :=
  map_fold (λ _ amount acc, amount + acc) 0 m.

Definition totalOf (fb : TokenIndexedCoinTransferMap) (token : Address) : Z :=
  sumBalances (default ∅ (fb !! token)).

(** ** The helpers, as the specification describes them *)

Module SpecModel.

Section SpecModel.

Context `{Utils, Crypto}.

(** Modelled from the spec: the reduction of the free-balance state by a
    decrement, which [StateChannel.installApp] of [../models] performs
    (§4.2 step 4).  Each listed holder's amount is subtracted from its
    balance; tokens and holders the decrement does not mention are kept. *)
Definition decrementHolders (bal dec : gmap string Z) : gmap string Z :=
  merge (λ b d, match b, d with
                | Some b, Some d => Some (b - d)
                | Some b, None => Some b
                | None, Some d => Some (0 - d)
                | None, None => None
                end) bal dec.

Definition decrementBalances (fb dec : TokenIndexedCoinTransferMap)
  : TokenIndexedCoinTransferMap :=
  merge (λ b d, match b, d with
                | Some b, Some d => Some (decrementHolders b d)
                | Some b, None => Some b
                | None, Some d => Some (decrementHolders ∅ d)
                | None, None => None
                end) fb dec.

(** All [(token, holder, amount)] entries of a token-indexed map. *)
Definition entries (dec : TokenIndexedCoinTransferMap) : list (Address * Address * Z) :=
  '(token, holders) ← map_to_list dec;
  '(addr, amount) ← map_to_list holders;
  [(token, addr, amount)].

(** Modelled from the spec: the sufficiency check of [installApp], per
    asset per owner (§4.2 step 4): the first entry of the decrement the
    free balance cannot cover. *)
Definition firstShortfall (fb dec : TokenIndexedCoinTransferMap)
  : option (Address * Address * Z) :=
  head (filter (λ e, getBalance fb e.1.1 e.1.2 < e.2) (entries dec)).

(** Modelled from the spec: [StateChannel.installApp] of [../models]
    (§4.2 step 4).  The proposal must be among the proposed apps; every
    decremented holder must hold enough; the result moves the proposal to
    the installed apps and reduces the free balance, whose version number
    goes up by one. *)
Definition installApp (sc : StateChannel) (proposal : AppInstance)
    (dec : TokenIndexedCoinTransferMap) : sum ProtocolError StateChannel :=
  match proposedAppInstances sc !! identityHash proposal with
  | None => throw AppNotProposed
  | Some _ =>
    match firstShortfall (balancesIndexedByToken (freeBalance sc)) dec with
    | Some (token, addr, need) =>
        throw (InsufficientFunds addr token
                 (getBalance (balancesIndexedByToken (freeBalance sc)) token addr) need)
    | None =>
        inr {| multisigAddress := multisigAddress sc;
               multisigOwners := multisigOwners sc;
               freeBalance :=
                 {| fbIdentityHash := fbIdentityHash (freeBalance sc);
                    balancesIndexedByToken :=
                      decrementBalances (balancesIndexedByToken (freeBalance sc)) dec;
                    latestVersionNumber := latestVersionNumber (freeBalance sc) + 1;
                    stateTimeout := stateTimeout (freeBalance sc) |};
               appInstances := <[identityHash proposal := proposal]> (appInstances sc);
               proposedAppInstances := delete (identityHash proposal) (proposedAppInstances sc);
               monotonicNumProposedApps := monotonicNumProposedApps sc |}
    end
  end.

(** Modelled from the spec: [StateChannel.getAppInstance] of [../models]
    looks the app up among the installed ones (§3) and throws when it is
    absent. *)
Definition getAppInstance (sc : StateChannel) (id : Hash) : sum ProtocolError AppInstance :=
  match appInstances sc !! id with
  | Some app => inr app
  | None => throw (NoAppInstance id)
  end.

(** Modelled from the spec: [assertSufficientFundsWithinFreeBalance] of
    [../utils] (§4.3): the depositing party must hold at least the deposit
    of the asset in the free balance, else [InsufficientFunds] with the
    party, the asset, the amount held and the amount needed. *)
Definition assertSufficientFundsWithinFreeBalance (channel : StateChannel)
    (publicIdentifier : PublicIdentifier) (tokenAddress : Address) (depositAmount : Z)
  : sum ProtocolError unit :=
  let freeBalanceForToken :=
    getBalance (balancesIndexedByToken (freeBalance channel)) tokenAddress
      (getSignerAddressFromPublicIdentifier publicIdentifier) in
  if bool_decide (freeBalanceForToken < depositAmount)
  then throw (InsufficientFunds publicIdentifier tokenAddress freeBalanceForToken depositAmount)
  else inr tt.

(** Modelled from the spec: [assertIsValidSignature] of [./utils] (§4.4
    step 9): the signer recovered from the signature over the hash must be
    the expected one, else [InvalidCounterpartySignature]. *)
Definition assertIsValidSignature (expectedSigner : Address) (commitmentHash : Hash)
    (counterpartySignature : Signature) : sum ProtocolError unit :=
  if bool_decide (recoverAddress commitmentHash counterpartySignature = expectedSigner)
  then inr tt
  else throw InvalidCounterpartySignature.

(** Modelled from the spec: [getSetStateCommitment] of [../ethereum]
    (§3, §4.1): the commitment on the app's latest state, built from the
    network addresses of the context and the app; it has no signatures
    yet. *)
Definition getSetStateCommitment (context : Context) (app : FreeBalance)
  : SetStateCommitment :=
  {| challengeRegistry := network context;
     commitmentAppIdentityHash := fbIdentityHash app;
     commitmentStateHash := hashOfLatestState (balancesIndexedByToken app);
     commitmentVersionNumber := latestVersionNumber app;
     commitmentStateTimeout := stateTimeout app;
     signatures := [] |}.

(** Modelled from the spec: [SetStateCommitment.addSignatures] (§3): the
    commitment holds the two signatures, here in the order of the call. *)
Definition addSignatures (commitment : SetStateCommitment)
    (signature1 signature2 : Signature) : SetStateCommitment :=
  {| challengeRegistry := challengeRegistry commitment;
     commitmentAppIdentityHash := commitmentAppIdentityHash commitment;
     commitmentStateHash := commitmentStateHash commitment;
     commitmentVersionNumber := commitmentVersionNumber commitment;
     commitmentStateTimeout := commitmentStateTimeout commitment;
     signatures := [signature1; signature2] |}.

(** The helpers as modelled. *)
Definition helpers : Helpers :=
  Build_Helpers installApp getAppInstance assertSufficientFundsWithinFreeBalance
    assertIsValidSignature getSetStateCommitment commitmentDigest addSignatures.

End SpecModel.

End SpecModel.

(** ** The scenarios of the specification, as concrete inputs *)

Module Scenario.

Definition A : Address := "0xA".
Definition B : Address := "0xB".
Definition ETH : Address := "ETH".
Definition DAI : Address := "DAI".

(** A stand-in for the address normalisation: asset ids that differ in
    letter case name one token. *)
Definition normalise (assetId : AssetId) : Address :=
  if bool_decide (assetId = "eth") then ETH
  else if bool_decide (assetId = "dai") then DAI
  else assetId.

(** The signer addresses of the two public identifiers in use. *)
Definition signerOf (identifier : PublicIdentifier) : Address :=
  if bool_decide (identifier = "xpubA") then A
  else if bool_decide (identifier = "xpubB") then B
  else identifier.

(** A toy signature scheme: the signature of [signer] over [hash] is the
    two joined, and recovery splits them again. *)
Definition sign (signer : Address) (hash : Hash) : Signature := signer +:+ hash.

Definition recover (hash : Hash) (σ : Signature) : Address :=
  let n := (String.length σ - String.length hash)%nat in
  if bool_decide (String.substring n (String.length hash) σ = hash)
  then String.substring 0 n σ
  else "".

Definition renderState (state : gmap string (gmap string Z)) : Hash :=
  String.concat ";"
    ((λ e, e.1.1 +:+ ":" +:+ e.1.2 +:+ "=" +:+ pretty e.2) <$> SpecModel.entries state).

Definition digest (c : SetStateCommitment) : Hash :=
  challengeRegistry c +:+ "|" +:+ commitmentAppIdentityHash c +:+ "|" +:+
  commitmentStateHash c +:+ "|" +:+ pretty (commitmentVersionNumber c) +:+ "|" +:+
  pretty (commitmentStateTimeout c).

Definition utils : Utils :=
  {| getAddressFromAssetId := normalise;
     getSignerAddressFromPublicIdentifier := signerOf;
     UNASSIGNED_SEQ_NO := -1 |}.

Definition crypto : Crypto :=
  {| recoverAddress := recover;
     hashOfLatestState := renderState;
     commitmentDigest := digest |}.

#[local] Existing Instance utils.
#[local] Existing Instance crypto.
#[local] Existing Instance SpecModel.helpers.

Definition app (id : Hash) (i r : PublicIdentifier) (di dr : Z) (ai ar : AssetId)
  : AppInstance :=
  {| identityHash := id; initiatorIdentifier := i; responderIdentifier := r;
     initiatorDeposit := di; responderDeposit := dr;
     initiatorDepositAssetId := ai; responderDepositAssetId := ar |}.

(** S1: distinct assets; S2: one asset, app order = channel order; S3: one
    asset, app order reversed; S4: the initiator is short of funds. *)
Definition proposalS1 := app "app1" "xpubA" "xpubB" 30 20 ETH DAI.
Definition proposalS2 := app "app2" "xpubA" "xpubB" 30 40 ETH ETH.
Definition proposalS3 := app "app3" "xpubB" "xpubA" 40 30 ETH ETH.
Definition proposalS4 := app "app4" "xpubA" "xpubB" 130 0 ETH ETH.

(** One asset under two spellings of its id. *)
Definition proposalMixedCase := app "app5" "xpubA" "xpubB" 30 40 "eth" ETH.

Definition channel : StateChannel :=
  {| multisigAddress := "multisig";
     multisigOwners := (A, B);
     freeBalance :=
       {| fbIdentityHash := "fb";
          balancesIndexedByToken :=
            {[ ETH := {[ A := 100; B := 100 ]}; DAI := {[ A := 0; B := 50 ]} ]};
          latestVersionNumber := 1;
          stateTimeout := 0 |};
     appInstances := ∅;
     proposedAppInstances :=
       {[ "app1" := proposalS1; "app2" := proposalS2; "app3" := proposalS3;
          "app4" := proposalS4; "app5" := proposalMixedCase ]};
     monotonicNumProposedApps := 5 |}.

Definition installParams (p : AppInstance) : InstallParams :=
  {| paramsInitiatorIdentifier := "xpubA";
     paramsResponderIdentifier := "xpubB";
     paramsMultisigAddress := "multisig";
     proposal := p;
     appIdentityHash := identityHash p |}.

(** The context of a party for the install of [p]; [σ] is the signature
    that came with the message (the responder's context carries the
    initiator's). *)
Definition context (p : AppInstance) (σ : Signature) : Context :=
  {| network := "registry";
     preProtocolStateChannel := Some channel;
     message :=
       {| processID := "process";
          protocol := install;
          params := Some (installParams p);
          to := "xpubB";
          customData := {| signature := σ |};
          seq := 0 |} |}.

(** The hash both parties sign for the install of [p]. *)
Definition hashFor (p : AppInstance) : Hash :=
  default "" (freeBalanceUpdateDataHash (context p "")).

Definition replyWith (σ : Signature) : ProtocolMessageData :=
  {| processID := "process";
     protocol := install;
     params := None;
     to := "xpubA";
     customData := {| signature := σ |};
     seq := -1 |}.

(** A host that answers the validation with [verdict], signs as [me] and
    delivers [reply]. *)
Definition host (verdict : option string) (me : Address) (reply : ProtocolMessageData)
  : Host :=
  λ _ X op,
    match op in Opcode X return HostAnswer X with
    | OP_VALIDATE _ _ => Resume verdict
    | OP_SIGN h => Resume (sign me h)
    | IO_SEND _ _ => Resume ()
    | IO_SEND_AND_WAIT _ => Resume reply
    | PERSIST_APP_INSTANCE _ _ _ _ => Resume ()
    end.

(** The honest counterparties of an install of [p]. *)
Definition hostOfA (p : AppInstance) : Host := host None A (replyWith (sign B (hashFor p))).
Definition hostOfB : Host := host None B (replyWith "").

(** The two contexts of an install of [p]: the responder's message carries
    the initiator's signature. *)
Definition contextOfA (p : AppInstance) : Context := context p "".
Definition contextOfB (p : AppInstance) : Context := context p (sign A (hashFor p)).

Definition initiatorFlow (p : AppInstance) : Gen unit :=
  INSTALL_PROTOCOL_0 (contextOfA p).
Definition responderFlow (p : AppInstance) : Gen unit :=
  INSTALL_PROTOCOL_1 (contextOfB p).

(** S5: the reply carries a signature over another hash. S6: the host
    rejects the install. *)
Definition hostWithForgedReply : Host := host None A (replyWith (sign B "another hash")).
Definition rejectingHost : Host := host (Some "app definition not whitelisted") A (replyWith "").


End Scenario.

(** ** The requests of a run, by opcode and by payload *)

(** The opcode of a request. *)
Inductive OpcodeName := OpValidate | OpSign | IoSend | IoSendAndWait | PersistAppInstance.

Definition opcodeOf (e : Event) : OpcodeName :=
  match e with
  | Ev (OP_VALIDATE _ _) _ => OpValidate
  | Ev (OP_SIGN _) _ => OpSign
  | Ev (IO_SEND _ _) _ => IoSend
  | Ev (IO_SEND_AND_WAIT _) _ => IoSendAndWait
  | Ev (PERSIST_APP_INSTANCE _ _ _ _) _ => PersistAppInstance
  end.

Definition opcodes (tr : list Event) : list OpcodeName := opcodeOf <$> tr.

(** The role that runs each sequence number of [INSTALL_PROTOCOL]. *)
Definition roleOf (sequence : nat) : ProtocolRoles :=
  match sequence with
  | 0%nat => initiator
  | _ => responder
  end.

(** The [yield]s of each role, in the order of the program text. *)
Definition requestsOf (role : ProtocolRoles) : list OpcodeName :=
  match role with
  | initiator => [OpValidate; OpSign; IoSendAndWait; PersistAppInstance]
  | responder => [OpValidate; OpSign; PersistAppInstance; IoSend]
  end.

(** The protocol name and the middleware context of an [OP_VALIDATE]
    request. *)
Definition validateRequest (e : Event) : option (ProtocolName * InstallMiddlewareContext) :=
  match e with Ev (OP_VALIDATE name c) _ => Some (name, c) | _ => None end.

(** What a [PERSIST_APP_INSTANCE] request hands over besides the
    commitment. *)
Definition persistRequest (e : Event) : option (PersistAppType * StateChannel * AppInstance) :=
  match e with Ev (PERSIST_APP_INSTANCE ty sc app _) _ => Some (ty, sc, app) | _ => None end.

(** The channel that goes with an [IO_SEND]. *)
Definition channelSent (e : Event) : option StateChannel :=
  match e with Ev (IO_SEND _ sc) _ => Some sc | _ => None end.

Definition validateRequests (tr : list Event) := omap validateRequest tr.
Definition persistRequests (tr : list Event) := omap persistRequest tr.
Definition channelsSent (tr : list Event) : list StateChannel := omap channelSent tr.

(** More inputs for the scenarios: a proposal the channel does not list,
    a party without a channel, and the neutral hosts of each party. *)
Module ScenarioInputs.

Import Scenario.

Definition proposalUnknown := app "app9" "xpubA" "xpubB" 30 20 ETH DAI.

Definition contextWithoutChannel : Context :=
  {| network := "registry";
     preProtocolStateChannel := None;
     message := message (context proposalS2 "") |}.

(** The host of the responder that declines the install. *)
Definition decliningHostOfB : Host := host (Some "app definition not whitelisted") B (replyWith "").

(** The message the initiator sends in S2. *)
Definition messageOfA (p : AppInstance) : ProtocolMessageData :=
  {| processID := "process";
     protocol := install;
     params := Some (installParams p);
     to := "xpubB";
     customData := {| signature := sign A (hashFor p) |};
     seq := 1 |}.

End ScenarioInputs.

(** ** Asynchronous functions of the other modules *)

(** What [throw] and a rejected [await] raise outside the protocol: an
    [Error] with its message, a [TypeError] of the runtime (reading a
    property of [undefined]), or the rejection of an awaited call of a
    service, which the functions modelled here do not catch. *)
Inductive Thrown :=
| Error (message : string)
| JsTypeError (what : string)
| Rejected (reason : string).

(** An [async] function over the calls [Op] of the services it awaits: it
    returns, throws, or awaits a call and goes on with its result. *)
Inductive Task (Op : Type → Type) (A : Type) : Type :=
| Done (a : A)
| Raise (e : Thrown)
| Await {X : Type} (op : Op X) (k : X → Task Op A).

Arguments Done {Op A} a.
Arguments Raise {Op A} e.
Arguments Await {Op A X} op k.

Fixpoint bindTask {Op A B} (t : Task Op A) (f : A → Task Op B) : Task Op B :=
  match t with
  | Done a => f a
  | Raise e => Raise e
  | Await op k => Await op (λ x, bindTask (k x) f)
  end.

#[global] Instance Task_ret {Op} : MRet (Task Op) := λ A a, Done a.
#[global] Instance Task_bind {Op} : MBind (Task Op) := λ A B f t, bindTask t f.

(** [await op] *)
Definition await {Op X} (op : Op X) : Task Op X := Await op Done.

(** A call to a synchronous function that may throw. *)
Definition attempt {Op A} (r : sum Thrown A) : Task Op A :=
  match r with
  | inl e => Raise e
  | inr a => Done a
  end.

(** [for (const a of l) { await body(a) }] *)
Fixpoint forOf {Op A} (l : list A) (body : A → Task Op unit) : Task Op unit :=
  match l with
  | [] => Done ()
  | a :: l' => body a ;; forOf l' body
  end.

(** A service resolves an awaited call with a value or rejects it. *)
Inductive Settled (X : Type) : Type :=
| Resolved (x : X)
| Refused (reason : string).

Arguments Resolved {X} x.
Arguments Refused {X} reason.

(** A call together with how it was settled. *)
Inductive Call (Op : Type → Type) : Type :=
| Called {X : Type} (op : Op X) (a : Settled X).

Arguments Called {Op X} op a.

(** The services decide from the calls so far and the call at hand. *)
Definition Services (Op : Type → Type) := list (Call Op) → ∀ X, Op X → Settled X.

(** One execution: the calls in program order and how it ended. *)
Fixpoint exec {Op A} (services : Services Op) (hist : list (Call Op)) (t : Task Op A)
  : list (Call Op) * sum Thrown A :=
  match t with
  | Done a => (hist, inr a)
  | Raise e => (hist, inl e)
  | Await op k =>
      match services hist _ op with
      | Resolved x => exec services (hist ++ [Called op (Resolved x)]) (k x)
      | Refused reason => (hist ++ [Called op (Refused reason)], inl (Rejected reason))
      end
  end.

Definition calls {Op A} (services : Services Op) (t : Task Op A) : list (Call Op) :=
  (exec services [] t).1.
Definition result {Op A} (services : Services Op) (t : Task Op A) : sum Thrown A :=
  (exec services [] t).2.

(** A postcondition holds of a task started after [hist] when it holds
    however the services settle its calls. *)
Fixpoint always {Op A} (t : Task Op A) (hist : list (Call Op))
    (Q : list (Call Op) → sum Thrown A → Prop) : Prop :=
  match t with
  | Done a => Q hist (inr a)
  | Raise e => Q hist (inl e)
  | Await op k =>
      (∀ x, always (k x) (hist ++ [Called op (Resolved x)]) Q) ∧
      (∀ reason, Q (hist ++ [Called op (Refused reason)]) (inl (Rejected reason)))
  end.

(** The call was resolved. *)
Definition settled {Op} (c : Call Op) : bool :=
  match c with Called _ (Resolved _) => true | Called _ (Refused _) => false end.

(** JS truthiness of a [string | undefined]. *)
Definition truthyString (s : option string) : bool :=
  match s with
  | None => false
  | Some s => negb (bool_decide (s = ""))
  end.

(** ** The test utilities of the node ([modules/node/src/test/utils.ts]) *)

Module TestUtils.

(** [String.prototype.padEnd]: a string at least [targetLength] long is
    returned as it is, and so is any string when [padString] is empty;
    else [padString] is repeated after it, and cut, up to [targetLength].
    Characters stand for the code units of the JS string. *)
Fixpoint filler (n : nat) (padString rest : string) : string :=
  match n with
  | O => ""
  | S n' =>
      match rest with
      | String c rest' => String c (filler n' padString rest')
      | EmptyString =>
          match padString with
          | String c pad' => String c (filler n' padString pad')
          | EmptyString => ""
          end
      end
  end.

Definition padEnd (s : string) (targetLength : nat) (padString : string) : string :=
  if bool_decide (targetLength ≤ String.length s)%nat then s
  else if bool_decide (padString = "") then s
  else s +:+ filler (targetLength - String.length s) padString padString.

(** The four makers of test values; [None] is a call without argument. *)
Definition mkXpub (prefix : option string) : string := padEnd (default "xpub" prefix) 111 "0".
Definition mkAddress (prefix : option string) : string := padEnd (default "0x" prefix) 42 "0".
Definition mkHash (prefix : option string) : string := padEnd (default "0x" prefix) 66 "0".
Definition mkSig (prefix : option string) : string := padEnd (default "0x" prefix) 132 "0".

(** [n] characters ["0"]. *)
Fixpoint zeros (n : nat) : string :=
  match n with
  | O => ""
  | S n' => "0" +:+ zeros n'
  end.

(** The fields of an entity's metadata that are read, and the connection
    that lists them. *)
Record Entity := { name : string; tableName : string }.
Record Connection := { entityMetadatas : list Entity }.

(** [Array.prototype.indexOf] on strings: the first index, or [-1]. *)
Fixpoint indexOfFrom (l : list string) (x : string) (i : Z) : Z :=
  match l with
  | [] => -1
  | y :: l' => if bool_decide (y = x) then i else indexOfFrom l' x (i + 1)
  end.

Definition indexOf (l : list string) (x : string) : Z := indexOfFrom l x 0.

(** The one call awaited: [connection.query(sql)], whose result is
    dropped. *)
Inductive DbOp : Type → Type :=
| query (sql : string) : DbOp unit.

(** The statement text of a call. *)
Definition statement (c : Call DbOp) : string :=
  match c with Called (query sql) _ => sql end.

Definition statements (tr : list (Call DbOp)) : list string := statement <$> tr.

(** The double quote character. *)
Definition quote : string := String (Ascii.ascii_of_nat 34) EmptyString.

(** [`DELETE FROM "${tableName}";`] *)
Definition deleteFrom (tableName : string) : string :=
  "DELETE FROM " +:+ quote +:+ tableName +:+ quote +:+ ";".

Section Entities.

(** [viewEntites] of [../app.module]: the entities that are views. *)
Context (viewEntites : list Entity).

Definition getEntities (connection : option Connection) : list Entity :=
  match connection with
  | None => []
  | Some connection =>
      foldl (λ entities x,
               if bool_decide (indexOf (name <$> viewEntites) (name x) ≠ -1)
               then entities
               else entities ++ [{| name := name x; tableName := tableName x |}])
        [] (entityMetadatas connection)
  end.

Definition cleanAll (entities : list Entity) (connection : option Connection)
  : Task DbOp unit :=
  forOf entities (λ entity,
    match connection with
    | None => Raise (JsTypeError "Cannot read property 'query' of undefined")
    | Some _ => await (query (deleteFrom (tableName entity)))
    end).

Definition clearDb (connection : option Connection) : Task DbOp unit :=
  let entities := getEntities connection in
  cleanAll entities connection.

(** The entities of a connection that are not views, by name. *)
Definition tablesToClear (connection : option Connection) : list Entity :=
  filter (λ x, name x ∉ name <$> viewEntites)
    (from_option entityMetadatas [] connection).

End Entities.

End TestUtils.

(** ** The client ([ConnextClient], [modules/client/src/connext.ts]) *)

Module Client.

(** The fields that are read of an installed app, of a proposed app and of
    a registry entry. *)
Record LatestState := {
  tokenAddress : option string;
  recipient : option string;
  threshold : Z;
}.

Record AppInstanceJson := {
  identityHash : string;
  appInterfaceAddr : string;
  latestState : LatestState;
}.

Module Proposal.
Record AppInstanceProposal := { identityHash : string; appDefinition : string }.
End Proposal.

Record DefaultApp := { name : string; chainId : Z; appDefinitionAddress : string }.

(** The result objects of the provider's methods are handed on unread, and
    so are the actions and states given to it. *)
Abbreviation MethodResult := string (only parsing).
Abbreviation AppAction := string (only parsing).
Abbreviation AppState := string (only parsing).

(** The result of [chan_getState], of which the truthiness of
    [state.finalized] is read. *)
Record GetState := { finalized : bool }.

(** The calls made: the methods of the channel provider, the balances the
    eth provider and a token contract report, and the registration of a
    listener with [once], which is handed the callback to run when the
    event fires: for a [Transfer] event its sender, recipient and amount,
    for a change of balance the new balance. *)
#[warnings="-register-all"] Inductive ClientOp : Type → Type :=
| chan_getAppInstances : ClientOp (list AppInstanceJson)
| chan_getProposedAppInstances : ClientOp (list Proposal.AppInstanceProposal)
| chan_install (appInstanceId : string) : ClientOp MethodResult
| chan_uninstall (appInstanceId : string) : ClientOp MethodResult
| chan_rejectInstall (appInstanceId : string) : ClientOp MethodResult
| chan_getState (appInstanceId : string) : ClientOp GetState
| chan_takeAction (appInstanceId : string) (action : AppAction) : ClientOp MethodResult
| chan_updateState (appInstanceId : string) (newState : AppState) : ClientOp MethodResult
| chan_rescindDepositRights (multisigAddress tokenAddress : string) : ClientOp MethodResult
| ethProvider_getBalance (address : string) : ClientOp Z
| token_balanceOf (token address : string) : ClientOp Z
| token_once_Transfer (token : string)
    (listener : string → string → Z → Task ClientOp unit) : ClientOp unit
| ethProvider_once (address : string) (listener : Z → Task ClientOp unit) : ClientOp unit.

(** The fields of the client that are read. *)
Record ConnextClient := {
  appRegistry : list DefaultApp;
  networkChainId : Z;
  multisigAddress : string;
  freeBalanceAddress : string;
  coinBalanceRefundApp : string;
}.

(** [AddressZero] of [ethers/constants]. *)
Definition AddressZero : string := "0x0000000000000000000000000000000000000000".

(** What [checkDepositRights] returns. *)
Record CheckDepositRightsResponse := {
  assetId : option string;
  multisigBalance : string;
  responseRecipient : option string;
  responseThreshold : Z;
}.

Section ConnextClient.

(** [stringify] of [./lib]. *)
Context (stringify : list AppInstanceJson → string).

Context (this : ConnextClient).

Definition getAppInstances : Task ClientOp (list AppInstanceJson) :=
  await chan_getAppInstances.

Definition getProposedAppInstances : Task ClientOp (list Proposal.AppInstanceProposal) :=
  await chan_getProposedAppInstances.

Definition rejectInstallApp (appInstanceId : string) : Task ClientOp MethodResult :=
  await (chan_rejectInstall appInstanceId).

Definition appNotInstalled (appInstanceId : string) : Task ClientOp (option string) :=
  apps ← getAppInstances;
  let app := filter (λ app, identityHash app = appInstanceId) apps in
  if bool_decide (length app = 0%nat) then
    mret (Some ("Could not find installed app with id: " +:+ appInstanceId +:+ ". " +:+
                "Installed apps: " +:+ stringify apps +:+ "."))
  else if bool_decide (1 < length app)%nat then
    mret (Some ("CRITICAL ERROR: found multiple apps with the same id. " +:+
                "Installed apps: " +:+ stringify apps +:+ "."))
  else mret None.

Definition appInstalled (appInstanceId : string) : Task ClientOp (option string) :=
  apps ← getAppInstances;
  let app := filter (λ app, identityHash app = appInstanceId) apps in
  if bool_decide (0 < length app)%nat then
    mret (Some ("App with id " +:+ appInstanceId +:+ " is already installed. " +:+
                "Installed apps: " +:+ stringify apps +:+ "."))
  else mret None.

Definition installApp (appInstanceId : string) : Task ClientOp MethodResult :=
  alreadyInstalled ← appInstalled appInstanceId;
  if truthyString alreadyInstalled then Raise (Error (default "" alreadyInstalled))
  else await (chan_install appInstanceId).

Definition uninstallApp (appInstanceId : string) : Task ClientOp MethodResult :=
  err ← appNotInstalled appInstanceId;
  if truthyString err then Raise (Error (default "" err))
  else await (chan_uninstall appInstanceId).

(** The first installed refund app of the asset; a call without argument
    ([None]) asks for [AddressZero]. *)
Definition getBalanceRefundApp (assetId : option string)
  : Task ClientOp (option AppInstanceJson) :=
  let assetId := default AddressZero assetId in
  apps ← getAppInstances;
  let filtered :=
    filter (λ app, appInterfaceAddr app = coinBalanceRefundApp this ∧
                   tokenAddress (latestState app) = Some assetId) apps in
  mret (head filtered).

Definition rescindDepositRights (assetId : string) : Task ClientOp MethodResult :=
  await (chan_rescindDepositRights (multisigAddress this) assetId).

Definition checkDepositRights (assetId : option string)
  : Task ClientOp CheckDepositRightsResponse :=
  refundApp ← getBalanceRefundApp assetId;
  match refundApp with
  | None =>
      Raise (Error ("No balance refund app installed for " +:+ default "undefined" assetId))
  | Some refundApp =>
      let token := tokenAddress (latestState refundApp) in
      multisigBalance ←
        (if negb (truthyString token) && bool_decide (token ≠ Some AddressZero)
         then await (ethProvider_getBalance (multisigAddress this))
         else await (token_balanceOf (default "" token) (multisigAddress this)));
      mret {| assetId := token;
              multisigBalance := pretty multisigBalance;
              responseRecipient := recipient (latestState refundApp);
              responseThreshold := threshold (latestState refundApp) |}
  end.

Definition uninstallCoinBalanceIfNeeded (assetId : option string) : Task ClientOp unit :=
  let assetId := default AddressZero assetId in
  coinRefund ← getBalanceRefundApp (Some assetId);
  match coinRefund with
  | None => mret ()
  | Some coinRefund =>
      let latestState := latestState coinRefund in
      let threshold := threshold latestState in
      let isTokenDeposit :=
        truthyString (tokenAddress latestState) &&
        bool_decide (tokenAddress latestState ≠ Some AddressZero) in
      let isClientDeposit :=
        bool_decide (recipient latestState = Some (freeBalanceAddress this)) in
      if negb isClientDeposit then mret ()
      else
        multisigBalance ←
          (if negb isTokenDeposit
           then await (ethProvider_getBalance (multisigAddress this))
           else await (token_balanceOf (default "" (tokenAddress latestState))
                         (multisigAddress this)));
        if bool_decide (multisigBalance < threshold) then
          Raise (Error ("Something is wrong! multisig balance is less than the threshold " +:+
                        "of the installed coin balance refund app."))
        else
          let uninstallRefund : Task ClientOp unit :=
            rescindDepositRights assetId;; mret () in
          if bool_decide (multisigBalance = threshold) then
            if isTokenDeposit then
              await (token_once_Transfer assetId (λ sender recipient amount,
                if bool_decide (recipient = multisigAddress this) && bool_decide (0 < amount)
                then uninstallRefund
                else mret ()))
            else
              await (ethProvider_once (multisigAddress this) (λ balance,
                if bool_decide (threshold < balance)
                then uninstallRefund
                else mret ()))
          else
            uninstallRefund
  end.

Definition getAppState (appInstanceId : string) : Task ClientOp (option GetState) :=
  err ← appNotInstalled appInstanceId;
  if truthyString err then mret None
  else state ← await (chan_getState appInstanceId); mret (Some state).

(** [state.state.finalized] of the [undefined] that [getAppState] may
    return is a [TypeError]. *)
Definition takeAction (appInstanceId : string) (action : AppAction)
  : Task ClientOp MethodResult :=
  err ← appNotInstalled appInstanceId;
  if truthyString err then Raise (Error (default "" err))
  else
    state ← getAppState appInstanceId;
    match state with
    | None => Raise (JsTypeError "Cannot read property 'state' of undefined")
    | Some state =>
        if finalized state
        then Raise (Error "Cannot take action on an app with a finalized state.")
        else await (chan_takeAction appInstanceId action)
    end.

Definition updateState (appInstanceId : string) (newState : AppState)
  : Task ClientOp MethodResult :=
  err ← appNotInstalled appInstanceId;
  if truthyString err then Raise (Error (default "" err))
  else
    state ← getAppState appInstanceId;
    match state with
    | None => Raise (JsTypeError "Cannot read property 'state' of undefined")
    | Some state =>
        if finalized state
        then Raise (Error "Cannot take action on an app with a finalized state.")
        else await (chan_updateState appInstanceId newState)
    end.

Definition getRegisteredAppDetails (appName : string) : sum Thrown DefaultApp :=
  let appInfo :=
    filter (λ app, name app = appName ∧ chainId app = networkChainId this) (appRegistry this) in
  match appInfo with
  | [] =>
      inl (Error ("Could not find " +:+ appName +:+ " app details on chain " +:+
                  pretty (networkChainId this)))
  | first :: _ =>
      if bool_decide (1 < length appInfo)%nat then
        inl (Error ("Found multiple " +:+ appName +:+ " app details on chain " +:+
                    pretty (networkChainId this)))
      else inr first
  end.

Definition removeHangingProposalsByDefinition (appDefinitions : list string)
  : Task ClientOp unit :=
  proposed ← getProposedAppInstances;
  let hangingProposals :=
    filter (λ proposal, Proposal.appDefinition proposal ∈ appDefinitions) proposed in
  forOf hangingProposals (λ hanging,
    rejectInstallApp (Proposal.identityHash hanging);; mret ()).

Definition uninstallAllAppsByDefintion (appDefinitions : list string) : Task ClientOp unit :=
  installed ← getAppInstances;
  let apps := filter (λ app, appInterfaceAddr app ∈ appDefinitions) installed in
  forOf apps (λ app, uninstallApp (identityHash app);; mret ()).

(** [registry.filter(...)[0].appDefinitionAddress]: a [TypeError] when no
    entry has the name. *)
Definition firstDefinitionOf (appName : string) : sum Thrown string :=
  match filter (λ app, name app = appName) (appRegistry this) with
  | [] => inl (JsTypeError "Cannot read property 'appDefinitionAddress' of undefined")
  | app :: _ => inr (appDefinitionAddress app)
  end.

Definition cleanupRegistryApps : Task ClientOp unit :=
  swapApp ← attempt (firstDefinitionOf "SimpleTwoPartySwapApp");
  linkedApp ← attempt (firstDefinitionOf "SimpleLinkedTransferApp");
  removeHangingProposalsByDefinition [swapApp; linkedApp];;
  uninstallAllAppsByDefintion [swapApp].

End ConnextClient.

(** Observations of the calls of a run. *)
Definition appsListed (c : Call ClientOp) : option (list AppInstanceJson) :=
  match c with Called chan_getAppInstances (Resolved apps) => Some apps | _ => None end.

Definition installRequested (c : Call ClientOp) : option string :=
  match c with Called (chan_install id) _ => Some id | _ => None end.

Definition uninstallRequested (c : Call ClientOp) : option string :=
  match c with Called (chan_uninstall id) _ => Some id | _ => None end.

Definition rejectRequested (c : Call ClientOp) : option string :=
  match c with Called (chan_rejectInstall id) _ => Some id | _ => None end.

Definition stateFetched (c : Call ClientOp) : option GetState :=
  match c with Called (chan_getState _) (Resolved state) => Some state | _ => None end.

(** A request to change the state of an app, by action or by update. *)
Definition changeRequested (c : Call ClientOp) : option string :=
  match c with
  | Called (chan_takeAction id _) _ => Some id
  | Called (chan_updateState id _) _ => Some id
  | _ => None
  end.

Definition proposalsListed (c : Call ClientOp) : option (list Proposal.AppInstanceProposal) :=
  match c with Called chan_getProposedAppInstances (Resolved l) => Some l | _ => None end.

Definition rescindRequested (c : Call ClientOp) : option (string * string) :=
  match c with
  | Called (chan_rescindDepositRights multisig token) _ => Some (multisig, token)
  | _ => None
  end.

(** The balance read, of ether or of a token. *)
Inductive BalanceOf := EtherOf (address : string) | TokenOf (token address : string).

Definition balanceAsked (c : Call ClientOp) : option BalanceOf :=
  match c with
  | Called (ethProvider_getBalance address) _ => Some (EtherOf address)
  | Called (token_balanceOf token address) _ => Some (TokenOf token address)
  | _ => None
  end.

Definition balanceReported (c : Call ClientOp) : option Z :=
  match c with
  | Called (ethProvider_getBalance _) (Resolved balance) => Some balance
  | Called (token_balanceOf _ _) (Resolved balance) => Some balance
  | _ => None
  end.

(** A listener registered with [once]: for transfers of a token, or for
    the balance of an address. *)
Inductive Listener := OnTransfer (token : string) | OnBalance (address : string).

Definition listenerRegistered (c : Call ClientOp) : option Listener :=
  match c with
  | Called (token_once_Transfer token _) _ => Some (OnTransfer token)
  | Called (ethProvider_once address _) _ => Some (OnBalance address)
  | _ => None
  end.

(** What fires a listener: a [Transfer] event of the token, or a new
    balance of the address. *)
Inductive Fired :=
| Transfer (sender recipient : string) (amount : Z)
| NewBalance (balance : Z).

(** What the listener that a call registered runs when it is fired with
    an event of its kind. *)
Definition listenerFired (c : Call ClientOp) (event : Fired) : option (Task ClientOp unit) :=
  match c, event with
  | Called (token_once_Transfer _ listener) (Resolved _), Transfer sender recipient amount =>
      Some (listener sender recipient amount)
  | Called (ethProvider_once _ listener) (Resolved _), NewBalance balance =>
      Some (listener balance)
  | _, _ => None
  end.

(** The refund app of an asset in a list of installed apps. *)
Definition refundAppOf (this : ConnextClient) (assetId : string) (apps : list AppInstanceJson)
  : option AppInstanceJson :=
  head (filter (λ app, appInterfaceAddr app = coinBalanceRefundApp this ∧
                       tokenAddress (latestState app) = Some assetId) apps).

Definition installsRequested (tr : list (Call ClientOp)) := omap installRequested tr.
Definition uninstallsRequested (tr : list (Call ClientOp)) := omap uninstallRequested tr.
Definition rejectsRequested (tr : list (Call ClientOp)) := omap rejectRequested tr.
Definition appListings (tr : list (Call ClientOp)) := omap appsListed tr.
Definition proposalListings (tr : list (Call ClientOp)) := omap proposalsListed tr.

(** The ids of the proposals, and of the installed apps, whose definition
    is one of [appDefinitions]. *)
Definition hangingIds (appDefinitions : list string)
    (proposed : list Proposal.AppInstanceProposal) : list string :=
  Proposal.identityHash <$>
    filter (λ proposal, Proposal.appDefinition proposal ∈ appDefinitions) proposed.

Definition installedIds (appDefinitions : list string) (apps : list AppInstanceJson)
  : list string :=
  identityHash <$> filter (λ app, appInterfaceAddr app ∈ appDefinitions) apps.

(** How often an app id is listed. *)
Definition timesListed (appInstanceId : string) (apps : list AppInstanceJson) : nat :=
  length (filter (λ app, identityHash app = appInstanceId) apps).

End Client.

(** ** The default options of the client ([modules/client/src/default.ts]) *)

Module ClientDefaults.

(** The values of the fields of an options object: strings, [null],
    [undefined], and objects (a store, a signer, a backup service), which
    are told apart by a name. *)
Inductive Value :=
| VString (s : string)
| VObject (ref : string)
| VNull
| VUndefined.

(** An options object, by field name. *)
Abbreviation Options := (gmap string Value) (only parsing).

(** JS truthiness. *)
Definition truthyValue (v : Value) : bool :=
  match v with
  | VString s => negb (bool_decide (s = ""))
  | VObject _ => true
  | VNull | VUndefined => false
  end.

(** [opts.field] *)
Definition field (opts : Options) (name : string) : Value :=
  default VUndefined (opts !! name).

(** The calls into the environment: [getRandomPrivateKey] of
    [@connext/utils], the local storage of the window, and the
    constructor of [ConnextStore] ([None] where it is given one
    argument). *)
Inductive EnvOp : Type → Type :=
| getRandomPrivateKey : EnvOp string
| localStorage_getItem (key : string) : EnvOp (option string)
| localStorage_setItem (key value : string) : EnvOp unit
| new_ConnextStore (storeType : Value) (backupService : option Value) : EnvOp Value.

Definition CONNEXT_DEFAULT_SIGNER_KEY : string := "CONNEXT_DEFAULT_SIGNER".

Section Defaults.

(** [String.prototype.toLowerCase], [removeUndefinedFields] of
    [@connext/utils], [StoreTypes.LocalStorage] of [@connext/types], and
    whether there is a [window] with a [localStorage]. *)
Context (toLowerCase : string → string).
Context (removeUndefinedFields : Options → Options).
Context (StoreTypes_LocalStorage : Value).
Context (hasLocalStorage : bool).

Definition getGeneratedSigner : Task EnvOp string :=
  if negb hasLocalStorage then await getRandomPrivateKey
  else
    signer ← await (localStorage_getItem CONNEXT_DEFAULT_SIGNER_KEY);
    if negb (truthyString signer) then
      signer ← await getRandomPrivateKey;
      await (localStorage_setItem CONNEXT_DEFAULT_SIGNER_KEY signer);;
      mret signer
    else mret (default "" signer).

Definition getUrlOptions (network : string) : sum Thrown Options :=
  if bool_decide (toLowerCase network = "localhost") then
    inr {[ "ethProviderUrl" := VString "http://localhost:8545";
           "nodeUrl" := VString "http://localhost:8080" ]}
  else
    let baseUrl :=
      if bool_decide (toLowerCase network = "mainnet")
      then Some "indra.connext.network/api"
      else if bool_decide (toLowerCase network = "rinkeby")
      then Some "rinkeby.indra.connext.network/api"
      else None in
    match baseUrl with
    | None =>
        inl (Error ("Provided network (" +:+ toLowerCase network +:+ ") is not supported"))
    | Some baseUrl =>
        inr {[ "ethProviderUrl" := VString ("https://" +:+ baseUrl +:+ "/ethprovider");
               "nodeUrl" := VString ("https://" +:+ baseUrl) ]}
    end.

Definition getOverrideOptions (_opts : option Options) : option Options :=
  match _opts with
  | None => None
  | Some _opts =>
      let opts := removeUndefinedFields _opts in
      if bool_decide (size opts = 0%nat) then None else Some opts
  end.

Definition getDefaultStore (opts : Options) : Task EnvOp Value :=
  let storeType :=
    if truthyValue (field opts "storeType") then field opts "storeType"
    else StoreTypes_LocalStorage in
  let backupService :=
    if truthyValue (field opts "backupService") then field opts "backupService"
    else VNull in
  await (new_ConnextStore storeType (Some backupService)).

Definition getDefaultOptions (network : string) (_opts : option Options)
  : Task EnvOp Options :=
  urlOptions ← attempt (getUrlOptions network);
  let opts := getOverrideOptions _opts in
  store ← match opts with
          | Some opts =>
              if truthyValue (field opts "store") then mret (field opts "store")
              else getDefaultStore opts
          | None => await (new_ConnextStore StoreTypes_LocalStorage None)
          end;
  let optsSigner := from_option (λ opts, field opts "signer") VUndefined opts in
  signer ← (if truthyValue optsSigner then mret optsSigner
            else if bool_decide (toLowerCase network ≠ "mainnet")
            then generated ← getGeneratedSigner; mret (VString generated)
            else mret VUndefined);
  if negb (truthyValue signer) then Raise (Error "Signer required for Mainnet")
  else
    mret (default ∅ opts ∪ (urlOptions ∪ {[ "signer" := signer; "store" := store ]})).

End Defaults.

(** Observations of the calls. *)
Definition keyGenerated (c : Call EnvOp) : option string :=
  match c with Called getRandomPrivateKey (Resolved key) => Some key | _ => None end.

Definition itemRead (c : Call EnvOp) : option (string * option string) :=
  match c with
  | Called (localStorage_getItem key) (Resolved value) => Some (key, value)
  | _ => None
  end.

Definition itemWritten (c : Call EnvOp) : option (string * string) :=
  match c with Called (localStorage_setItem key value) _ => Some (key, value) | _ => None end.

Definition touchesSigner (c : Call EnvOp) : bool :=
  match c with
  | Called getRandomPrivateKey _ => true
  | Called (localStorage_getItem _) _ => true
  | Called (localStorage_setItem _ _) _ => true
  | Called (new_ConnextStore _ _) _ => false
  end.

(** The value last written under [key] in the calls so far, or what the
    storage held at the start. *)
Definition lastWritten (initial : gmap string string) (key : string)
    (hist : list (Call EnvOp)) : option string :=
  match filter (λ kv, kv.1 = key) (reverse (omap itemWritten (filter settled hist))) with
  | kv :: _ => Some kv.2
  | [] => initial !! key
  end.

(** An environment whose local storage starts as [initial] and returns
    what was last written, and that hands out the keys of [keys] in
    turn. *)
Definition browser (initial : gmap string string) (keys : nat → string) : Services EnvOp :=
  λ hist X op,
    match op in EnvOp X return Settled X with
    | getRandomPrivateKey => Resolved (keys (length (omap keyGenerated hist)))
    | localStorage_getItem key => Resolved (lastWritten initial key hist)
    | localStorage_setItem _ _ => Resolved ()
    | new_ConnextStore _ _ => Resolved (VObject "store")
    end.

End ClientDefaults.

(** ** Concrete inputs for the other modules *)

Module ModuleScenarios.

(** A connection with two tables and a view. *)
Definition views : list TestUtils.Entity :=
  [{| TestUtils.name := "AnonymizedTransfer"; TestUtils.tableName := "anonymized_transfer" |}].

Definition connection : TestUtils.Connection :=
  {| TestUtils.entityMetadatas :=
       [{| TestUtils.name := "Channel"; TestUtils.tableName := "channel" |};
        {| TestUtils.name := "AnonymizedTransfer";
           TestUtils.tableName := "anonymized_transfer" |};
        {| TestUtils.name := "Transfer"; TestUtils.tableName := "transfer" |}] |}.

(** A database that runs every statement. *)
Definition database : Services TestUtils.DbOp :=
  λ _ X op, match op in TestUtils.DbOp X return Settled X with
            | TestUtils.query _ => Resolved ()
            end.

Import Client.

Definition swapApp : DefaultApp :=
  {| name := "SimpleTwoPartySwapApp"; chainId := 4; appDefinitionAddress := "0xSwap" |}.
Definition linkedApp : DefaultApp :=
  {| name := "SimpleLinkedTransferApp"; chainId := 4; appDefinitionAddress := "0xLinked" |}.

Definition client : ConnextClient :=
  {| appRegistry := [swapApp; linkedApp];
     networkChainId := 4;
     multisigAddress := "0xMultisig";
     freeBalanceAddress := "0xClient";
     coinBalanceRefundApp := "0xRefund" |}.

Definition noState : LatestState :=
  {| tokenAddress := None; recipient := None; threshold := 0 |}.

(** An ether deposit of the client, to be refunded while the multisig
    holds no more than 10. *)
Definition etherRefund : LatestState :=
  {| tokenAddress := Some AddressZero; recipient := Some "0xClient"; threshold := 10 |}.

Definition installed : list AppInstanceJson :=
  [{| identityHash := "swap1"; appInterfaceAddr := "0xSwap"; latestState := noState |};
   {| identityHash := "linked1"; appInterfaceAddr := "0xLinked"; latestState := noState |};
   {| identityHash := "other1"; appInterfaceAddr := "0xOther"; latestState := noState |};
   {| identityHash := "refund1"; appInterfaceAddr := "0xRefund"; latestState := etherRefund |}].

Definition proposedApps : list Proposal.AppInstanceProposal :=
  [{| Proposal.identityHash := "proposal1"; Proposal.appDefinition := "0xSwap" |};
   {| Proposal.identityHash := "proposal2"; Proposal.appDefinition := "0xOther" |};
   {| Proposal.identityHash := "proposal3"; Proposal.appDefinition := "0xLinked" |}].

Definition stringify (apps : list AppInstanceJson) : string :=
  String.concat "," (identityHash <$> apps).

(** A provider over a channel that does not change; the multisig holds
    [balance] in ether and no token. *)
Definition provider (balance : Z) : Services ClientOp :=
  λ _ X op,
    match op in ClientOp X return Settled X with
    | chan_getAppInstances => Resolved installed
    | chan_getProposedAppInstances => Resolved proposedApps
    | chan_install _ => Resolved "installed"
    | chan_uninstall _ => Resolved "uninstalled"
    | chan_rejectInstall _ => Resolved "rejected"
    | chan_getState _ => Resolved {| finalized := false |}
    | chan_takeAction _ _ => Resolved "action taken"
    | chan_updateState _ _ => Resolved "state updated"
    | chan_rescindDepositRights _ _ => Resolved "rescinded"
    | ethProvider_getBalance _ => Resolved balance
    | token_balanceOf _ _ => Resolved 0
    | token_once_Transfer _ _ => Resolved ()
    | ethProvider_once _ _ => Resolved ()
    end.

(** What the listener of a registration asks to rescind when it is fired,
    the provider resolving the request. *)
Definition rescindsWhenFired (registration : Call ClientOp) (event : Fired)
  : option (list (string * string)) :=
  (λ listener, omap rescindRequested (calls (provider 0) listener))
    <$> listenerFired registration event.

Import ClientDefaults.

(** The key generator of the browser of the scenarios. *)
Definition keysOf (n : nat) : string := "key" +:+ pretty n.

(** Lower case of the network names in use, which are in lower case. *)
Definition lowerCase (network : string) : string := network.

(** [removeUndefinedFields] *)
Definition dropUndefined (opts : gmap string Value) : gmap string Value :=
  omap (λ v, match v with VUndefined => None | _ => Some v end) opts.

End ModuleScenarios.

(** * Theorems *)

(** ** Reasoning about runs *)

Lemma guardedBy_precededBy guard bad tr :
  guardedBy guard bad tr = true → precededBy guard bad tr.
Proof.
  induction tr as [|e tr IH]; intros Hg pre e' post Heq Hbad.
  - by destruct pre.
  - simpl in Hg. destruct pre as [|p pre]; simpl in Heq.
    + injection Heq as -> _. by rewrite Hbad in Hg.
    + injection Heq as -> Heq.
      destruct (bad p); [done|].
      destruct (guard p) eqn:Hp.
      * exists p. split; [left|done].
      * destruct (IH Hg pre e' post Heq Hbad) as (g & Hin & Hgd).
        exists g. split; [by right|done].
Qed.

Lemma wp_run {A} (g : Gen A) hist Q host :
  wp g hist Q → Q (run host hist g).1 (run host hist g).2.
Proof.
  revert hist. induction g as [a|e|X op k IH]; intros hist; simpl; [done..|].
  intros [Hres Hfail]. destruct (host hist X op) as [x|what]; simpl.
  - by apply IH.
  - apply Hfail.
Qed.

Lemma wp_trace {A} (g : Gen A) (P : list Event → Prop) host :
  wp g [] (λ tr _, P tr) → P (trace host g).
Proof. apply (wp_run g [] (λ tr _, P tr)). Qed.

Lemma wp_both {A} (g : Gen A) (P : list Event → sum ProtocolError A → Prop) host :
  wp g [] P → P (trace host g) (outcome host g).
Proof. apply (wp_run g [] P). Qed.

Lemma wp_bind_call {A B} (r : sum ProtocolError A) (k : A → Gen B) hist Q :
  wp (call r ≫= k) hist Q ↔
  match r with inl e => Q hist (inl e) | inr a => wp (k a) hist Q end.
Proof. by destruct r. Qed.

Lemma wp_bind_yield {A X} (op : Opcode X) (k : X → Gen A) hist Q :
  wp (yield op ≫= k) hist Q ↔
  (∀ x, wp (k x) (hist ++ [Ev op (Resume x)]) Q) ∧
  (∀ what, Q (hist ++ [Ev op (Fail what)]) (inl (HostFailure what))).
Proof. reflexivity. Qed.

(** One step through a protocol: a call that may throw, a request, a
    branch, or the end. *)
Ltac wp_step :=
  lazymatch goal with
  | |- wp (call ?r ≫= _) _ _ => rewrite wp_bind_call; destruct r eqn:?
  | |- wp (yield _ ≫= _) _ _ => rewrite wp_bind_yield; split; [intros ?|intros ?]
  | |- wp (if ?b then _ else _) _ _ => destruct b eqn:?
  | |- wp (Throw _) _ _ => unfold wp
  | |- wp (mret _) _ _ => unfold wp, mret, Gen_ret
  end; cbn [app].

(** All the ways a run of either role can go. *)
Ltac wp_install :=
  lazymatch goal with
  | |- wp (INSTALL_PROTOCOL_0 ?c) _ _ =>
      unfold INSTALL_PROTOCOL_0; destruct (preProtocolStateChannel c) eqn:?
  | |- wp (INSTALL_PROTOCOL_1 ?c) _ _ =>
      unfold INSTALL_PROTOCOL_1; destruct (preProtocolStateChannel c) eqn:?
  end; cbv zeta; repeat wp_step.


(** ** The free-balance algebra *)

Lemma sumBalances_empty : sumBalances ∅ = 0.
Proof. apply map_fold_empty. Qed.

Lemma sumBalances_insert_fresh (m : gmap string Z) k v :
  m !! k = None → sumBalances (<[k:=v]> m) = v + sumBalances m.
Proof.
  intros Hk. unfold sumBalances.
  rewrite map_fold_insert_L; [done| |done].
  intros. lia.
Qed.

Lemma sumBalances_delete (m : gmap string Z) k v :
  m !! k = Some v → sumBalances m = v + sumBalances (delete k m).
Proof.
  intros Hk. unfold sumBalances.
  rewrite (map_fold_delete_L _ _ k v m); [done| |done].
  intros. lia.
Qed.

(** Writing [v] at [k] changes the total by [v] minus what was there. *)
Lemma sumBalances_insert (m : gmap string Z) k v :
  sumBalances (<[k:=v]> m) = sumBalances m - default 0 (m !! k) + v.
Proof.
  destruct (m !! k) as [old|] eqn:Hk; simpl.
  - rewrite <- insert_delete_eq.
    rewrite sumBalances_insert_fresh by apply lookup_delete_eq.
    rewrite (sumBalances_delete m k old Hk). lia.
  - rewrite sumBalances_insert_fresh by done. lia.
Qed.

Lemma sumBalances_delete_default (m : gmap string Z) k :
  sumBalances m = default 0 (m !! k) + sumBalances (delete k m).
Proof.
  destruct (m !! k) as [v|] eqn:Hk; simpl.
  - by apply sumBalances_delete.
  - by rewrite delete_id.
Qed.

(** When the holders listed are among two distinct addresses, the total is
    the sum of the balances of the two. *)
Lemma sumBalances_two_holders (m : gmap string Z) a b :
  a ≠ b → (∀ k, is_Some (m !! k) → k = a ∨ k = b) →
  sumBalances m = default 0 (m !! a) + default 0 (m !! b).
Proof.
  intros Hne Hholders.
  rewrite (sumBalances_delete_default m a), (sumBalances_delete_default (delete a m) b).
  rewrite lookup_delete_ne by done.
  assert (delete b (delete a m) = ∅) as ->; [|rewrite sumBalances_empty; lia].
  apply map_eq. intros k. rewrite lookup_empty.
  destruct (decide (b = k)) as [->|Hb]; [apply lookup_delete_eq|].
  rewrite lookup_delete_ne by done.
  destruct (decide (a = k)) as [->|Ha]; [apply lookup_delete_eq|].
  rewrite lookup_delete_ne by done.
  destruct (m !! k) eqn:Hk; [|done].
  destruct (Hholders k) as [->| ->]; [by eexists|done..].
Qed.

(** In a free balance whose holders under a token are the two owners, the
    total under the token is the sum of the two owners' balances. *)
Lemma totalOf_owners (fb : gmap string (gmap string Z)) token a b :
  a ≠ b →
  (∀ k, is_Some (default ∅ (fb !! token) !! k) → k = a ∨ k = b) →
  totalOf fb token = getBalance fb token a + getBalance fb token b.
Proof. intros. unfold totalOf, getBalance. by apply sumBalances_two_holders. Qed.

Lemma decrementHolders_lookup (bal dec : gmap string Z) k :
  SpecModel.decrementHolders bal dec !! k =
  match bal !! k, dec !! k with
  | Some b, Some d => Some (b - d)
  | Some b, None => Some b
  | None, Some d => Some (0 - d)
  | None, None => None
  end.
Proof. unfold SpecModel.decrementHolders. rewrite lookup_merge. by destruct (bal !! k), (dec !! k). Qed.

Lemma decrementHolders_empty (bal : gmap string Z) : SpecModel.decrementHolders bal ∅ = bal.
Proof.
  apply map_eq. intros k. rewrite decrementHolders_lookup, lookup_empty.
  by destruct (bal !! k).
Qed.

Lemma decrementHolders_insert (bal dec : gmap string Z) k d :
  SpecModel.decrementHolders bal (<[k:=d]> dec) =
  <[k := default 0 (bal !! k) - d]> (SpecModel.decrementHolders bal dec).
Proof.
  apply map_eq. intros j. rewrite decrementHolders_lookup.
  destruct (decide (k = j)) as [->|Hne].
  - rewrite !lookup_insert_eq. by destruct (bal !! j).
  - rewrite !lookup_insert_ne by done. by rewrite decrementHolders_lookup.
Qed.

(** Reducing the holders of one token lowers its total by the total of the
    decrement. *)
Lemma sumBalances_decrementHolders (bal dec : gmap string Z) :
  sumBalances (SpecModel.decrementHolders bal dec) = sumBalances bal - sumBalances dec.
Proof.
  induction dec as [|k d dec Hk IH] using map_ind.
  - rewrite decrementHolders_empty, sumBalances_empty. lia.
  - rewrite decrementHolders_insert, sumBalances_insert, IH.
    rewrite sumBalances_insert_fresh by done.
    rewrite decrementHolders_lookup, Hk.
    destruct (bal !! k); simpl; lia.
Qed.

Lemma totalOf_decrementBalances (fb dec : gmap string (gmap string Z)) token :
  totalOf (SpecModel.decrementBalances fb dec) token = totalOf fb token - totalOf dec token.
Proof.
  unfold totalOf, SpecModel.decrementBalances. rewrite lookup_merge.
  destruct (fb !! token) as [b|], (dec !! token) as [d|]; simpl;
    rewrite ?sumBalances_decrementHolders, ?sumBalances_empty; lia.
Qed.

(** A holder listed after the reduction was listed before it or is named
    by the decrement. *)
Lemma holders_decrementBalances (fb dec : gmap string (gmap string Z)) token k :
  is_Some (default ∅ (SpecModel.decrementBalances fb dec !! token) !! k) →
  is_Some (default ∅ (fb !! token) !! k) ∨ is_Some (default ∅ (dec !! token) !! k).
Proof.
  unfold SpecModel.decrementBalances. rewrite lookup_merge.
  destruct (fb !! token) as [b|], (dec !! token) as [d|]; simpl;
    rewrite ?decrementHolders_lookup, ?lookup_empty;
    try destruct (b !! k); try destruct (d !! k); intros [? ?]; simplify_eq; eauto.
Qed.

Section TransitionFacts.

Context `{Utils}.

(** The shape of the decrement in the same-token branch. *)
Lemma decrement_same_token sc p :
  getAddressFromAssetId (initiatorDepositAssetId p)
    = getAddressFromAssetId (responderDepositAssetId p) →
  tokenIndexedBalanceDecrement sc p =
  {[ getAddressFromAssetId (responderDepositAssetId p) :=
       <[owner1 sc :=
           if bool_decide (getSignerAddressFromPublicIdentifier (initiatorIdentifier p)
                           = owner0 sc)
           then responderDeposit p else initiatorDeposit p]>
         {[ owner0 sc :=
              if bool_decide (getSignerAddressFromPublicIdentifier (initiatorIdentifier p)
                              = owner0 sc)
              then initiatorDeposit p else responderDeposit p ]} ]}.
Proof.
  intros Htok. unfold tokenIndexedBalanceDecrement, toBN.
  rewrite (bool_decide_eq_false_2 (_ ≠ _)) by (intros Hne; by apply Hne).
  reflexivity.
Qed.

(** The shape of the decrement in the different-token branch. *)
Lemma decrement_different_tokens sc p :
  getAddressFromAssetId (initiatorDepositAssetId p)
    ≠ getAddressFromAssetId (responderDepositAssetId p) →
  tokenIndexedBalanceDecrement sc p =
  <[ getAddressFromAssetId (responderDepositAssetId p) :=
       {[ getSignerAddressFromPublicIdentifier (responderIdentifier p) := responderDeposit p ]} ]>
    {[ getAddressFromAssetId (initiatorDepositAssetId p) :=
         {[ getSignerAddressFromPublicIdentifier (initiatorIdentifier p) := initiatorDeposit p ]} ]}.
Proof.
  intros Htok. unfold tokenIndexedBalanceDecrement, toBN.
  by rewrite bool_decide_eq_true_2.
Qed.

(** In either branch the decrement under a token adds up to the deposits
    made in that token, provided the two owners differ when the deposits
    share a token. *)
Lemma totalOf_decrement sc p token :
  (getAddressFromAssetId (initiatorDepositAssetId p)
     = getAddressFromAssetId (responderDepositAssetId p) → owner0 sc ≠ owner1 sc) →
  totalOf (tokenIndexedBalanceDecrement sc p) token = depositsIn p token.
Proof.
  intros Howners. unfold depositsIn, totalOf.
  destruct (decide (getAddressFromAssetId (initiatorDepositAssetId p)
                    = getAddressFromAssetId (responderDepositAssetId p))) as [Heq|Hne].
  - rewrite decrement_same_token by done. rewrite Heq.
    destruct (decide (getAddressFromAssetId (responderDepositAssetId p) = token)) as [Ht|Ht].
    + rewrite Ht, lookup_singleton_eq, (bool_decide_eq_true_2 (token = token)) by done.
      simpl.
      rewrite sumBalances_insert_fresh
        by (rewrite lookup_singleton_ne; [done|by apply Howners]).
      rewrite <- insert_empty, sumBalances_insert_fresh, sumBalances_empty by done.
      case_bool_decide; lia.
    + rewrite lookup_singleton_ne, (bool_decide_eq_false_2 _ Ht) by done. simpl.
      rewrite sumBalances_empty. lia.
  - rewrite decrement_different_tokens by done.
    destruct (decide (getAddressFromAssetId (responderDepositAssetId p) = token)) as [Ht|Ht].
    + rewrite <- Ht, lookup_insert_eq, (bool_decide_eq_false_2 _ Hne),
        (bool_decide_eq_true_2 (_ = _) eq_refl).
      simpl. rewrite <- insert_empty, sumBalances_insert_fresh, sumBalances_empty by done.
      lia.
    + rewrite lookup_insert_ne by done.
      rewrite (bool_decide_eq_false_2 _ Ht).
      destruct (decide (getAddressFromAssetId (initiatorDepositAssetId p) = token)) as [Ht'|Ht'].
      * rewrite <- Ht', lookup_singleton_eq, (bool_decide_eq_true_2 (_ = _) eq_refl). simpl.
        rewrite <- insert_empty, sumBalances_insert_fresh, sumBalances_empty by done. lia.
      * rewrite lookup_singleton_ne, (bool_decide_eq_false_2 _ Ht') by done. simpl.
        rewrite sumBalances_empty. lia.
Qed.

(** The decrement names holders among the two owners when the app parties
    are the owners. *)
Lemma holders_decrement sc p token k :
  partiesAreOwners sc
    (getSignerAddressFromPublicIdentifier (initiatorIdentifier p))
    (getSignerAddressFromPublicIdentifier (responderIdentifier p)) →
  is_Some (default ∅ (tokenIndexedBalanceDecrement sc p !! token) !! k) →
  k = owner0 sc ∨ k = owner1 sc.
Proof.
  intros [_ Hparties].
  destruct (decide (getAddressFromAssetId (initiatorDepositAssetId p)
                    = getAddressFromAssetId (responderDepositAssetId p))) as [Heq|Hne].
  - rewrite decrement_same_token by done.
    destruct (decide (getAddressFromAssetId (responderDepositAssetId p) = token)) as [->|Ht].
    + rewrite lookup_singleton_eq. simpl. intros [v Hv].
      apply lookup_insert_Some in Hv as [[<- _]|[_ Hv]]; [by right|].
      apply lookup_singleton_Some in Hv as [<- _]. by left.
    + rewrite lookup_singleton_ne by done. simpl. rewrite lookup_empty. by intros [? ?].
  - rewrite decrement_different_tokens by done. intros [v Hv].
    destruct (decide (getAddressFromAssetId (responderDepositAssetId p) = token)) as [Ht|Ht].
    + rewrite Ht, lookup_insert_eq in Hv. simpl in Hv.
      apply lookup_singleton_Some in Hv as [<- _].
      destruct Hparties as [[_ ->]|[_ ->]]; [by right|by left].
    + rewrite lookup_insert_ne in Hv by done.
      destruct (decide (getAddressFromAssetId (initiatorDepositAssetId p) = token)) as [Ht'|Ht'].
      * rewrite Ht', lookup_singleton_eq in Hv. simpl in Hv.
        apply lookup_singleton_Some in Hv as [<- _].
        destruct Hparties as [[-> _]|[-> _]]; [by left|by right].
      * rewrite lookup_singleton_ne in Hv by done. simpl in Hv.
        by rewrite lookup_empty in Hv.
Qed.

End TransitionFacts.

(** ** The transition on the code: claim C9 *)

Section TransitionOnCode.

Context `{Utils}.

(** Reversing the app order leaves the same-token decrement as it is when
    the two parties are the two owners. *)
Lemma decrement_reverseAppOrder sc p id' :
  getAddressFromAssetId (initiatorDepositAssetId p)
    = getAddressFromAssetId (responderDepositAssetId p) →
  partiesAreOwners sc
    (getSignerAddressFromPublicIdentifier (initiatorIdentifier p))
    (getSignerAddressFromPublicIdentifier (responderIdentifier p)) →
  tokenIndexedBalanceDecrement sc (reverseAppOrder id' p)
    = tokenIndexedBalanceDecrement sc p.
Proof.
  intros Htok [Hne Hparties].
  rewrite !decrement_same_token by done. simpl. rewrite Htok.
  destruct Hparties as [[-> ->]|[-> ->]].
  - rewrite (bool_decide_eq_true_2 (owner0 sc = owner0 sc)) by done.
    by rewrite (bool_decide_eq_false_2 (owner1 sc = owner0 sc)) by done.
  - rewrite (bool_decide_eq_true_2 (owner0 sc = owner0 sc)) by done.
    by rewrite (bool_decide_eq_false_2 (owner1 sc = owner0 sc)) by done.
Qed.

(** C9: the branch is chosen on the normalised token addresses: two
    deposit asset ids that differ as strings but name one token take the
    same-token branch, whose single entry lists both owners, each with its
    own amount. *)
Theorem same_token_branch_compares_addresses sc p :
  initiatorDepositAssetId p ≠ responderDepositAssetId p →
  getAddressFromAssetId (initiatorDepositAssetId p)
    = getAddressFromAssetId (responderDepositAssetId p) →
  let sameChannelAndAppOrdering :=
    bool_decide (getSignerAddressFromPublicIdentifier (initiatorIdentifier p) = owner0 sc) in
  let token := getAddressFromAssetId (responderDepositAssetId p) in
  tokenIndexedBalanceDecrement sc p =
    {[ token :=
         <[owner1 sc := if sameChannelAndAppOrdering
                        then responderDeposit p else initiatorDeposit p]>
           {[ owner0 sc := if sameChannelAndAppOrdering
                           then initiatorDeposit p else responderDeposit p ]} ]} ∧
  (owner0 sc ≠ owner1 sc →
   ∃ holders,
     tokenIndexedBalanceDecrement sc p !! token = Some holders ∧
     holders !! owner0 sc =
       Some (if sameChannelAndAppOrdering then initiatorDeposit p else responderDeposit p) ∧
     holders !! owner1 sc =
       Some (if sameChannelAndAppOrdering then responderDeposit p else initiatorDeposit p) ∧
     sumBalances holders = initiatorDeposit p + responderDeposit p).
Proof.
  intros _ Htok same token. split; [by apply decrement_same_token|].
  intros Hne. rewrite decrement_same_token by done. fold token same.
  eexists. split; [apply lookup_singleton_eq|].
  split_and!.
  - rewrite lookup_insert_ne by done. apply lookup_singleton_eq.
  - apply lookup_insert_eq.
  - rewrite sumBalances_insert_fresh by (by rewrite lookup_singleton_ne).
    rewrite <- insert_empty, sumBalances_insert_fresh, sumBalances_empty by done.
    destruct same; lia.
Qed.

End TransitionOnCode.

(** ** The transition with the helpers as specified: claims C1 and C2 *)

Section TransitionAsSpecified.

Context `{Utils, Crypto}.

#[local] Existing Instance SpecModel.helpers.

(** What a successful transition returns. *)
Lemma computeInstallStateChannelTransition_inr sc p sc' :
  computeInstallStateChannelTransition sc p = inr sc' →
  is_Some (proposedAppInstances sc !! identityHash p) ∧
  balancesIndexedByToken (freeBalance sc') =
    SpecModel.decrementBalances (balancesIndexedByToken (freeBalance sc))
      (tokenIndexedBalanceDecrement sc p) ∧
  latestVersionNumber (freeBalance sc') = latestVersionNumber (freeBalance sc) + 1 ∧
  multisigOwners sc' = multisigOwners sc ∧
  appInstances sc' !! identityHash p = Some p.
Proof.
  unfold computeInstallStateChannelTransition. cbn.
  unfold SpecModel.installApp, throw.
  destruct (proposedAppInstances sc !! identityHash p) as [q|]; [|done].
  destruct (SpecModel.firstShortfall _ _) as [[[? ?] ?]|]; [done|].
  intros [= <-]. simpl. split_and!; try done. by rewrite lookup_insert_eq.
Qed.

(** The free balance after [installApp] depends on the proposal only
    through its being proposed. *)
Lemma installApp_freeBalance sc p p' dec :
  is_Some (proposedAppInstances sc !! identityHash p) →
  is_Some (proposedAppInstances sc !! identityHash p') →
  match installApp sc p dec, installApp sc p' dec with
  | inr sc1, inr sc2 => freeBalance sc1 = freeBalance sc2
  | inl e1, inl e2 => e1 = e2
  | _, _ => False
  end.
Proof.
  intros [q Hq] [q' Hq']. cbn. unfold SpecModel.installApp. rewrite Hq, Hq'.
  by destruct (SpecModel.firstShortfall _ _) as [[[? ?] ?]|].
Qed.

(** C1: when both deposits resolve to one token, the decrement has the
    single entry of that token, keyed by the two channel owners:
    [multisigOwners[0]] is charged the initiator's deposit and
    [multisigOwners[1]] the responder's when the app initiator's signer is
    [multisigOwners[0]], and the other way round otherwise.  Hence, for the
    two channel owners as parties, the proposal with the app order
    reversed (same parties, same deposits) gives the same decrement, and
    with it the same free balance after the install. *)
Theorem same_token_decrement_tie_break sc p :
  getAddressFromAssetId (initiatorDepositAssetId p)
    = getAddressFromAssetId (responderDepositAssetId p) →
  let sameChannelAndAppOrdering :=
    bool_decide (getSignerAddressFromPublicIdentifier (initiatorIdentifier p) = owner0 sc) in
  tokenIndexedBalanceDecrement sc p =
    {[ getAddressFromAssetId (responderDepositAssetId p) :=
         <[owner1 sc := if sameChannelAndAppOrdering
                        then responderDeposit p else initiatorDeposit p]>
           {[ owner0 sc := if sameChannelAndAppOrdering
                           then initiatorDeposit p else responderDeposit p ]} ]} ∧
  ∀ id',
    partiesAreOwners sc
      (getSignerAddressFromPublicIdentifier (initiatorIdentifier p))
      (getSignerAddressFromPublicIdentifier (responderIdentifier p)) →
    tokenIndexedBalanceDecrement sc (reverseAppOrder id' p)
      = tokenIndexedBalanceDecrement sc p ∧
    (is_Some (proposedAppInstances sc !! identityHash p) →
     is_Some (proposedAppInstances sc !! id') →
     postFreeBalance sc (reverseAppOrder id' p) = postFreeBalance sc p).
Proof.
  intros Htok same. split; [by apply decrement_same_token|].
  intros id' Hparties.
  pose proof (decrement_reverseAppOrder sc p id' Htok Hparties) as Hdec.
  split; [done|]. intros Hp Hp'.
  unfold postFreeBalance, computeInstallStateChannelTransition. rewrite Hdec.
  pose proof (installApp_freeBalance sc (reverseAppOrder id' p) p
                (tokenIndexedBalanceDecrement sc p) Hp' Hp) as Hfb.
  destruct (installApp sc (reverseAppOrder id' p) _), (installApp sc p _);
    try done. by rewrite Hfb.
Qed.

(** C2: a successful transition conserves the total of every asset: what
    the holders of the free balance had under a token before the install is
    what they have after it plus the deposits the proposal makes in that
    token, in the different-token branch as in the same-token one.  (When
    both deposits share a token the two owners must differ, as they do in
    a channel.)  When the holders are the two owners and the app parties
    are the owners, these totals are the sums of the two owners'
    balances. *)
Theorem install_conserves_asset_totals sc p sc' token :
  computeInstallStateChannelTransition sc p = inr sc' →
  (getAddressFromAssetId (initiatorDepositAssetId p)
     = getAddressFromAssetId (responderDepositAssetId p) → owner0 sc ≠ owner1 sc) →
  let pre := balancesIndexedByToken (freeBalance sc) in
  let post := balancesIndexedByToken (freeBalance sc') in
  totalOf pre token = totalOf post token + depositsIn p token ∧
  (partiesAreOwners sc
     (getSignerAddressFromPublicIdentifier (initiatorIdentifier p))
     (getSignerAddressFromPublicIdentifier (responderIdentifier p)) →
   (∀ k, is_Some (default ∅ (pre !! token) !! k) → k = owner0 sc ∨ k = owner1 sc) →
   getBalance pre token (owner0 sc) + getBalance pre token (owner1 sc) =
   getBalance post token (owner0 sc) + getBalance post token (owner1 sc)
     + depositsIn p token).
Proof.
  intros Hinstall Howners pre post. subst pre post.
  apply computeInstallStateChannelTransition_inr in Hinstall as (_ & Hpost & _).
  assert (totalOf (balancesIndexedByToken (freeBalance sc)) token =
          totalOf (balancesIndexedByToken (freeBalance sc')) token + depositsIn p token)
    as Htotal.
  { rewrite Hpost, totalOf_decrementBalances, totalOf_decrement by done. lia. }
  split; [done|]. intros Hparties Hholders.
  rewrite <- (totalOf_owners (balancesIndexedByToken (freeBalance sc)) token
                (owner0 sc) (owner1 sc)) by (done || apply Hparties).
  rewrite <- (totalOf_owners (balancesIndexedByToken (freeBalance sc')) token
                (owner0 sc) (owner1 sc)); [done|apply Hparties|].
  intros k Hk. rewrite Hpost in Hk.
  apply holders_decrementBalances in Hk as [Hk|Hk]; [by apply Hholders|].
  by apply (holders_decrement sc p token k).
Qed.

End TransitionAsSpecified.

(** ** The two roles on the code: claims C3, C4, C5, C8 and C10 *)

Section ProtocolOnCode.

Context `{Utils, Helpers}.

Lemma destructure_inr o p : destructure o = inr p → o = Some p.
Proof. destruct o; [by intros [= ->]|done]. Qed.

Lemma destructure_inl o e : destructure o = inl e → o = None.
Proof. by destruct o. Qed.

(** Equations gathered along a run, put to use. *)
Ltac tidy_run :=
  repeat match goal with
  | u : unit |- _ => destruct u
  | Hd : destructure _ = inr _ |- _ => apply destructure_inr in Hd
  | Hd : destructure _ = inl _ |- _ => apply destructure_inl in Hd
  end.

Ltac use_run_facts :=
  tidy_run; repeat match goal with Hx : ?l = _ |- context [?l] => rewrite Hx end.

(** C4: in every run of the responder, a hash is handed to [OP_SIGN] only
    if it is the hash of the free-balance commitment and the check of the
    initiator's signature over it has returned; and every [IO_SEND] comes
    after a [PERSIST_APP_INSTANCE] the host has completed. *)
Theorem responder_verifies_before_signing_persists_before_sending host context :
  let tr := trace host (INSTALL_PROTOCOL_1 context) in
  (∀ h, h ∈ hashesSigned tr →
     freeBalanceUpdateDataHash context = Some h ∧
     ∃ p, params (message context) = Some p ∧
          assertIsValidSignature
            (getSignerAddressFromPublicIdentifier (paramsInitiatorIdentifier p)) h
            (signature (customData (message context))) = inr ()) ∧
  precededBy (λ e, isPersist e && answered e) isSend tr.
Proof.
  intros tr. subst tr. apply wp_trace. wp_install.
  all: split; [|by apply guardedBy_precededBy].
  all: cbn; intros h Hin.
  all: try by apply elem_of_nil in Hin.
  all: apply list_elem_of_singleton in Hin as ->; tidy_run.
  all: split; [unfold freeBalanceUpdateDataHash, stateChannelAfter; by use_run_facts|].
  all: by eexists.
Qed.

(** The guard of the initiator, [if (!!error) throw], as the code has it:
    a request that signs, sends or persists comes after an [OP_VALIDATE]
    that the host resumed with a falsy value; and when [OP_VALIDATE] is
    resumed with a non-empty reason the run ends in that reason, with no
    request that signs, sends or persists. *)
Lemma initiator_signs_after_falsy_validation host context :
  let tr := trace host (INSTALL_PROTOCOL_0 context) in
  precededBy validatedFalsy signsSendsOrPersists tr ∧
  ∀ reason, Some reason ∈ validateAnswers tr → reason ≠ "" →
    outcome host (INSTALL_PROTOCOL_0 context) = inl (HostRejected reason) ∧
    noneOf signsSendsOrPersists tr = true.
Proof.
  intros tr. subst tr.
  apply (wp_both _ (λ tr o,
    precededBy validatedFalsy signsSendsOrPersists tr ∧
    ∀ reason, Some reason ∈ validateAnswers tr → reason ≠ "" →
      o = inl (HostRejected reason) ∧ noneOf signsSendsOrPersists tr = true)).
  wp_install.
  all: split;
    [apply guardedBy_precededBy; cbn;
     repeat match goal with Hx : truthy _ = _ |- _ => rewrite Hx end; done|].
  all: cbn; intros reason Hin Hreason.
  all: try by apply elem_of_nil in Hin.
  all: apply list_elem_of_singleton in Hin as <-.
  all: try done.
  all: exfalso; simpl in *; by case_bool_decide.
Qed.

(** A host that keeps to the interface of [OP_VALIDATE] resumes it with
    the empty string in no run. *)
Lemma validatesAsSpecified_answers {A} host (g : Gen A) :
  validatesAsSpecified host → Some "" ∉ validateAnswers (trace host g).
Proof.
  intros Hhost. unfold trace.
  assert (∀ hist, Some "" ∉ validateAnswers hist →
                  Some "" ∉ validateAnswers (run host hist g).1) as Hrun.
  { induction g as [a|e|X op k IH]; intros hist Hhist; simpl; [done..|].
    destruct (host hist X op) as [x|what] eqn:Hanswer; simpl.
    - apply IH. unfold validateAnswers in *. rewrite omap_app, elem_of_app.
      intros [Hin|Hin]; [done|].
      destruct op; simpl in Hin; try by apply elem_of_nil in Hin.
      apply list_elem_of_singleton in Hin as <-. by apply Hhost in Hanswer.
    - unfold validateAnswers in *. rewrite omap_app, elem_of_app.
      intros [Hin|Hin]; [done|].
      destruct op; simpl in Hin; by apply elem_of_nil in Hin. }
  apply Hrun. intros Hin. by apply elem_of_nil in Hin.
Qed.

(** C5: with a host that keeps to the interface of [OP_VALIDATE] (§6:
    [null] to accept, a non-empty reason to reject), in every run of the
    initiator a request that signs, sends or persists comes after an
    [OP_VALIDATE] that the host resumed with [null]; and when
    [OP_VALIDATE] is resumed with a reason, the run ends in that reason,
    with no request that signs, sends or persists. *)
Theorem initiator_validates_before_signing host context :
  validatesAsSpecified host →
  let tr := trace host (INSTALL_PROTOCOL_0 context) in
  precededBy validatedNull signsSendsOrPersists tr ∧
  ∀ reason, Some reason ∈ validateAnswers tr →
    outcome host (INSTALL_PROTOCOL_0 context) = inl (HostRejected reason) ∧
    noneOf signsSendsOrPersists tr = true.
Proof.
  intros Hhost tr.
  pose proof (validatesAsSpecified_answers host (INSTALL_PROTOCOL_0 context) Hhost)
    as Hnonempty.
  destruct (initiator_signs_after_falsy_validation host context) as [Hfalsy Hreject].
  fold tr in Hnonempty, Hfalsy, Hreject. split.
  - intros pre e post Htr Hbad.
    destruct (Hfalsy pre e post Htr Hbad) as (g & Hg & Hguard).
    exists g. split; [done|].
    destruct g as [X op a]. destruct op; try done.
    destruct a as [[reason|]|]; try done.
    exfalso. apply Hnonempty. unfold validateAnswers. apply list_elem_of_omap.
    exists (Ev (OP_VALIDATE p c) (Resume (Some reason))).
    split; [rewrite Htr; apply elem_of_app; by left|].
    simpl in Hguard |- *. by case_bool_decide; simplify_eq.
  - intros reason Hin. apply Hreject; [done|]. by intros ->.
Qed.

(** C3: in a run of either role that succeeds, for parties that are the
    two owners of the channel being installed into, [addSignatures] is
    given first the signature of the party whose signer address is
    [multisigOwners[0]] and second that of [multisigOwners[1]]: the
    party's own signature is the one [OP_SIGN] returned, the
    counterparty's is the one received, on which [assertIsValidSignature]
    has returned. *)
Theorem signatures_in_channel_owner_order host context p after :
  params (message context) = Some p →
  stateChannelAfter context = Some after →
  let addrI := getSignerAddressFromPublicIdentifier (paramsInitiatorIdentifier p) in
  let addrR := getSignerAddressFromPublicIdentifier (paramsResponderIdentifier p) in
  let commitment := getSetStateCommitment context (freeBalance after) in
  partiesAreOwners after addrI addrR →
  (outcome host (INSTALL_PROTOCOL_0 context) = inr () →
   let tr := trace host (INSTALL_PROTOCOL_0 context) in
   ∃ σ_me reply,
     let σ_them := signature (customData reply) in
     signaturesMade tr = [σ_me] ∧ repliesReceived tr = [reply] ∧
     assertIsValidSignature addrR (hashToSign commitment) σ_them = inr () ∧
     commitmentsPersisted tr =
       [addSignatures commitment
          (partySignature addrI σ_me σ_them (owner0 after))
          (partySignature addrI σ_me σ_them (owner1 after))]) ∧
  (outcome host (INSTALL_PROTOCOL_1 context) = inr () →
   let tr := trace host (INSTALL_PROTOCOL_1 context) in
   ∃ σ_me,
     let σ_them := signature (customData (message context)) in
     signaturesMade tr = [σ_me] ∧
     assertIsValidSignature addrI (hashToSign commitment) σ_them = inr () ∧
     commitmentsPersisted tr =
       [addSignatures commitment
          (partySignature addrR σ_me σ_them (owner0 after))
          (partySignature addrR σ_me σ_them (owner1 after))]).
Proof.
  intros Hp Hafter addrI addrR commitment [Hne Hparties].
  subst addrI addrR commitment. unfold stateChannelAfter in Hafter.
  destruct (preProtocolStateChannel context) as [pre|] eqn:Hpre; [|done].
  rewrite Hp in Hafter.
  destruct (computeInstallStateChannelTransition pre (proposal p)) eqn:Htransition;
    [done|]. injection Hafter as ->.
  split.
  - apply (wp_both _ (λ tr o, o = inr () → ∃ σ_me reply,
      signaturesMade tr = [σ_me] ∧ repliesReceived tr = [reply] ∧
      assertIsValidSignature _ _ (signature (customData reply)) = inr () ∧
      commitmentsPersisted tr = [addSignatures _ _ _])).
    wp_install; try done. intros _. tidy_run.
    simplify_eq.
    match goal with
    | Hx : computeInstallStateChannelTransition _ _ = inr ?sc |- _ =>
        assert (sc = after) as -> by congruence
    end.
    cbn. eexists _, _. split_and!; [done..|].
    unfold partySignature, owner0, owner1 in *.
    destruct Hparties as [[-> ->]|[-> ->]];
      repeat case_bool_decide; simplify_eq; done.
  - apply (wp_both _ (λ tr o, o = inr () → ∃ σ_me,
      signaturesMade tr = [σ_me] ∧
      assertIsValidSignature _ _ (signature (customData (message context))) = inr () ∧
      commitmentsPersisted tr = [addSignatures _ _ _])).
    wp_install; try done. intros _. tidy_run.
    simplify_eq.
    match goal with
    | Hx : computeInstallStateChannelTransition _ _ = inr ?sc |- _ =>
        assert (sc = after) as -> by congruence
    end.
    cbn. eexists _. split_and!; [done..|].
    unfold partySignature, owner0, owner1 in *.
    destruct Hparties as [[-> ->]|[-> ->]];
      repeat case_bool_decide; simplify_eq; done.
Qed.





Lemma repliesReadBy_bind_call {A B} read (r : sum ProtocolError A) (k : A → Gen B) :
  repliesReadBy read (call r ≫= k) ↔
  match r with inl _ => True | inr a => repliesReadBy read (k a) end.
Proof. by destruct r. Qed.

Lemma repliesReadBy_bind_yield {A X} read (op : Opcode X) (k : X → Gen A) :
  repliesReadBy read (yield op ≫= k) ↔
  factorsThrough read op k ∧ ∀ x, repliesReadBy read (k x).
Proof. reflexivity. Qed.

(** C10: every message the responder sends is the reply with exactly the
    process id, the protocol, the initiator as recipient, the responder's
    signature as custom data and the unassigned sequence number, and with
    no parameters; and the initiator reads a reply through its
    [customData.signature] only. *)
Theorem responder_reply_carries_no_params host context :
  (∀ m, m ∈ messagesSent (trace host (INSTALL_PROTOCOL_1 context)) →
     params m = None ∧
     ∃ p σ_me,
       params (message context) = Some p ∧
       signaturesMade (trace host (INSTALL_PROTOCOL_1 context)) = [σ_me] ∧
       m = {| processID := processID (message context);
              protocol := install;
              params := None;
              to := paramsInitiatorIdentifier p;
              customData := {| signature := σ_me |};
              seq := UNASSIGNED_SEQ_NO |}) ∧
  repliesReadBy (λ reply, signature (customData reply)) (INSTALL_PROTOCOL_0 context).
Proof.
  split.
  - apply (wp_trace _ (λ tr, ∀ m, m ∈ messagesSent tr → _ ∧
      ∃ p σ_me, _ ∧ signaturesMade tr = [σ_me] ∧ m = _)).
    wp_install.
    all: cbn; intros m Hin.
    all: try by apply elem_of_nil in Hin.
    all: apply list_elem_of_singleton in Hin as ->; tidy_run.
    all: split; [done|]; by eexists _, _.
  - unfold INSTALL_PROTOCOL_0.
    destruct (preProtocolStateChannel context); [|exact I].
    cbv zeta.
    repeat lazymatch goal with
    | |- repliesReadBy _ (call ?r ≫= _) => rewrite repliesReadBy_bind_call; destruct r
    | |- repliesReadBy _ (yield _ ≫= _) =>
        rewrite repliesReadBy_bind_yield; split; [|intros ?]
    | |- repliesReadBy _ (if ?b then _ else _) => destruct b
    | |- repliesReadBy _ (Throw _) => exact I
    | |- repliesReadBy _ (mret _) => exact I
    | |- True => exact I
    end; try exact I.
    cbn. intros r1 r2 Hsig. by rewrite Hsig.
Qed.

End ProtocolOnCode.

(** ** The two roles with the helpers as specified: claims C6 and C7 *)

Section ProtocolAsSpecified.

Context `{Utils, Crypto}.

#[local] Existing Instance SpecModel.helpers.

Lemma assertIsValidSignature_inr a h σ :
  assertIsValidSignature a h σ = inr () ↔ recoverAddress h σ = a.
Proof. cbn. unfold SpecModel.assertIsValidSignature, throw. by case_bool_decide. Qed.

Lemma assertIsValidSignature_inl a h σ e :
  assertIsValidSignature a h σ = inl e →
  recoverAddress h σ ≠ a ∧ e = InvalidCounterpartySignature.
Proof.
  cbn. unfold SpecModel.assertIsValidSignature, throw.
  case_bool_decide; [done|]. by intros [= <-].
Qed.

Lemma assertSufficientFunds_inr sc party token amount :
  assertSufficientFundsWithinFreeBalance sc party token amount = inr () →
  amount ≤ getBalance (balancesIndexedByToken (freeBalance sc)) token
             (getSignerAddressFromPublicIdentifier party).
Proof.
  cbn. unfold SpecModel.assertSufficientFundsWithinFreeBalance, throw.
  case_bool_decide; [done|]. intros _. lia.
Qed.

Lemma assertSufficientFunds_inl sc party token amount e :
  assertSufficientFundsWithinFreeBalance sc party token amount = inl e →
  let have := getBalance (balancesIndexedByToken (freeBalance sc)) token
                (getSignerAddressFromPublicIdentifier party) in
  have < amount ∧ e = InsufficientFunds party token have amount.
Proof.
  cbn. unfold SpecModel.assertSufficientFundsWithinFreeBalance, throw.
  case_bool_decide; [|done]. by intros [= <-].
Qed.

(** C6: when the reply to the initiator carries a signature whose signer,
    recovered over the hash of the free-balance commitment, is not the
    signer address of [responderIdentifier], the run ends in
    [InvalidCounterpartySignature], no [PERSIST_APP_INSTANCE] is requested
    and every channel handed to the host is the pre-protocol channel. *)
Theorem initiator_rejects_invalid_countersignature host context p h reply :
  let tr := trace host (INSTALL_PROTOCOL_0 context) in
  params (message context) = Some p →
  freeBalanceUpdateDataHash context = Some h →
  reply ∈ repliesReceived tr →
  recoverAddress h (signature (customData reply))
    ≠ getSignerAddressFromPublicIdentifier (paramsResponderIdentifier p) →
  outcome host (INSTALL_PROTOCOL_0 context) = inl InvalidCounterpartySignature ∧
  noneOf isPersist tr = true ∧
  commitmentsPersisted tr = [] ∧
  Forall (λ sc, preProtocolStateChannel context = Some sc) (channelsHandedOut tr).
Proof.
  intros tr Hp Hh. subst tr.
  unfold freeBalanceUpdateDataHash, stateChannelAfter in Hh.
  apply (wp_both _ (λ tr o,
    reply ∈ repliesReceived tr →
    recoverAddress h (signature (customData reply))
      ≠ getSignerAddressFromPublicIdentifier (paramsResponderIdentifier p) →
    o = inl InvalidCounterpartySignature ∧
    noneOf isPersist tr = true ∧
    commitmentsPersisted tr = [] ∧
    Forall (λ sc, preProtocolStateChannel context = Some sc) (channelsHandedOut tr))).
  wp_install.
  all: cbn [repliesReceived omap replyReceived list_omap]; intros Hin Hbad.
  all: try by apply elem_of_nil in Hin.
  all: apply list_elem_of_singleton in Hin as ->.
  all: repeat match goal with
       | u : unit |- _ => destruct u
       | Hd : destructure _ = inr _ |- _ => apply destructure_inr in Hd
       end.
  all: rewrite ?Hp in *; simplify_eq.
  all: match goal with
       | Hx : computeInstallStateChannelTransition _ _ = _ |- _ =>
           rewrite Hx in Hh; simpl in Hh; simplify_eq
       end.
  all: match goal with
       | Hx : assertIsValidSignature _ _ _ = inr _ |- _ =>
           apply assertIsValidSignature_inr in Hx; done
       | Hx : assertIsValidSignature _ _ _ = inl _ |- _ =>
           apply assertIsValidSignature_inl in Hx as [_ ->]
       end.
  split_and!; [done..|]. by repeat constructor.
Qed.

(** C7: in either role, with a channel and parameters at hand, the two
    deposits are checked against the free balance before anything else: a
    shortfall of the initiator, and else one of the responder, ends the
    run in [InsufficientFunds] with the party, the asset, the amount held
    and the amount needed, before any request and whatever the transition
    would have said; and a run that has made a request has passed both
    checks. *)
Theorem sufficiency_checked_before_any_request host context sequence flow pre p :
  INSTALL_PROTOCOL sequence = Some flow →
  preProtocolStateChannel context = Some pre →
  params (message context) = Some p →
  let app := proposal p in
  let tokenI := getAddressFromAssetId (initiatorDepositAssetId app) in
  let tokenR := getAddressFromAssetId (responderDepositAssetId app) in
  let haveI := getBalance (balancesIndexedByToken (freeBalance pre)) tokenI
                 (getSignerAddressFromPublicIdentifier (initiatorIdentifier app)) in
  let haveR := getBalance (balancesIndexedByToken (freeBalance pre)) tokenR
                 (getSignerAddressFromPublicIdentifier (responderIdentifier app)) in
  let tr := trace host (flow context) in
  let result := outcome host (flow context) in
  (haveI < initiatorDeposit app →
     result = inl (InsufficientFunds (initiatorIdentifier app) tokenI haveI
                     (initiatorDeposit app)) ∧ tr = []) ∧
  (initiatorDeposit app ≤ haveI → haveR < responderDeposit app →
     result = inl (InsufficientFunds (responderIdentifier app) tokenR haveR
                     (responderDeposit app)) ∧ tr = []) ∧
  (tr ≠ [] → initiatorDeposit app ≤ haveI ∧ responderDeposit app ≤ haveR).
Proof.
  intros Hflow Hpre Hp app tokenI tokenR haveI haveR tr result.
  subst tr result haveI haveR tokenI tokenR app.
  destruct sequence as [|[|?]]; simplify_eq/=.
  all: match goal with |- context [trace _ ?g] =>
         apply (wp_both g (λ tr o,
           (_ < _ → o = inl _ ∧ tr = []) ∧
           (_ ≤ _ → _ < _ → o = inl _ ∧ tr = []) ∧
           (tr ≠ [] → _ ≤ _ ∧ _ ≤ _)))
       end.
  all: wp_install.
  all: repeat match goal with
       | u : unit |- _ => destruct u
       | Hd : destructure _ = inr _ |- _ => apply destructure_inr in Hd
       | Hd : destructure _ = inl _ |- _ => apply destructure_inl in Hd
       end; simplify_eq.
  all: repeat match goal with
       | Hx : assertSufficientFundsWithinFreeBalance _ _ _ _ = inr _ |- _ =>
           apply assertSufficientFunds_inr in Hx
       | Hx : assertSufficientFundsWithinFreeBalance _ _ _ _ = inl _ |- _ =>
           apply assertSufficientFunds_inl in Hx as [? ->]
       end; unfold toBN in *.
  all: split_and!; intros; try done; try lia; try (split; [done|lia]).
  all: by destruct_and?.
Qed.

End ProtocolAsSpecified.

(** ** The scenarios, run *)

Lemma precededBy_guardedBy guard bad tr :
  precededBy guard bad tr → guardedBy guard bad tr = true.
Proof.
  induction tr as [|e tr IH]; intros Hp; [done|]. simpl.
  destruct (bad e) eqn:Hbad.
  - destruct (Hp [] e tr eq_refl Hbad) as (g & Hin & _). by apply elem_of_nil in Hin.
  - destruct (guard e) eqn:Hguard; [done|]. apply IH.
    intros pre e' post -> Hbad'.
    destruct (Hp (e :: pre) e' post eq_refl Hbad') as (g & Hin & Hg).
    apply elem_of_cons in Hin as [->|Hin]; [congruence|]. by exists g.
Qed.

Module ScenarioFacts.

Import Scenario.

#[local] Existing Instance utils.
#[local] Existing Instance crypto.
#[local] Existing Instance SpecModel.helpers.

(** S1: distinct assets. *)
Example S1_post_free_balance :
  (λ fb, (getBalance fb ETH A, getBalance fb ETH B, getBalance fb DAI A, getBalance fb DAI B))
    ∘ balancesIndexedByToken <$> postFreeBalance channel proposalS1
  = Some (70, 100, 0, 30).
Proof. by vm_compute. Qed.

(** S2 and S3: one asset, in app order and in reversed app order. *)
Example S2_post_free_balance :
  (λ fb, (getBalance fb ETH A, getBalance fb ETH B))
    ∘ balancesIndexedByToken <$> postFreeBalance channel proposalS2
  = Some (70, 60).
Proof. by vm_compute. Qed.

Example S3_post_free_balance :
  (λ fb, (getBalance fb ETH A, getBalance fb ETH B))
    ∘ balancesIndexedByToken <$> postFreeBalance channel proposalS3
  = Some (70, 60).
Proof. by vm_compute. Qed.

Example S3_is_S2_reversed : reverseAppOrder "app3" proposalS2 = proposalS3.
Proof. reflexivity. Qed.

(** The happy path of both roles ends well, with the signatures of [A]
    and [B] in this order. *)
Example S2_initiator_run :
  outcome (hostOfA proposalS2) (initiatorFlow proposalS2) = inr () ∧
  signatures <$> commitmentsPersisted (trace (hostOfA proposalS2) (initiatorFlow proposalS2))
    = [[sign A (hashFor proposalS2); sign B (hashFor proposalS2)]].
Proof. by vm_compute. Qed.

Example S2_responder_run :
  outcome hostOfB (responderFlow proposalS2) = inr () ∧
  signatures <$> commitmentsPersisted (trace hostOfB (responderFlow proposalS2))
    = [[sign A (hashFor proposalS2); sign B (hashFor proposalS2)]].
Proof. by vm_compute. Qed.

(** The two owners are the two parties of the scenarios. *)
Lemma parties_are_owners (sc : StateChannel) :
  multisigOwners sc = (A, B) →
  partiesAreOwners sc (getSignerAddressFromPublicIdentifier "xpubA")
    (getSignerAddressFromPublicIdentifier "xpubB").
Proof.
  intros Howners. unfold partiesAreOwners, owner0, owner1. rewrite Howners.
  split; [done|]. left. by split.
Qed.

(** C1 at S2 and S3. *)
Lemma S3_free_balance_as_S2 :
  postFreeBalance channel (reverseAppOrder "app3" proposalS2)
    = postFreeBalance channel proposalS2.
Proof.
  destruct (same_token_decrement_tie_break channel proposalS2 eq_refl) as [_ Hrev].
  apply (Hrev "app3").
  - by apply parties_are_owners.
  - by eexists.
  - by eexists.
Defined.

(** C2 at S1, for ETH. *)
Lemma S1_conserves_ETH :
  ∃ sc', computeInstallStateChannelTransition channel proposalS1 = inr sc' ∧
    totalOf (balancesIndexedByToken (freeBalance channel)) ETH =
    totalOf (balancesIndexedByToken (freeBalance sc')) ETH + depositsIn proposalS1 ETH ∧
    getBalance (balancesIndexedByToken (freeBalance channel)) ETH A
      + getBalance (balancesIndexedByToken (freeBalance channel)) ETH B =
    getBalance (balancesIndexedByToken (freeBalance sc')) ETH A
      + getBalance (balancesIndexedByToken (freeBalance sc')) ETH B
      + depositsIn proposalS1 ETH.
Proof.
  unshelve epose proof (install_conserves_asset_totals channel proposalS1 _ ETH _ _)
    as [Htotal Howners]; [shelve|by vm_compute|done|].
  eexists. split; [by vm_compute|]. split; [exact Htotal|].
  apply Howners.
  - by apply parties_are_owners.
  - assert (default ∅ (balancesIndexedByToken (freeBalance channel) !! ETH)
            = {[ A := 100; B := 100 ]}) as -> by (by vm_compute).
    intros k [v Hv].
    apply lookup_insert_Some in Hv as [[<- _]|[_ Hv]]; [by left|].
    apply lookup_singleton_Some in Hv as [<- _]. by right.
Defined.

Example S1_owner_balances_of_ETH :
  getBalance (balancesIndexedByToken (freeBalance channel)) ETH A
    + getBalance (balancesIndexedByToken (freeBalance channel)) ETH B = 200 ∧
  depositsIn proposalS1 ETH = 30 ∧ depositsIn proposalS1 DAI = 20.
Proof. by vm_compute. Qed.

(** C3 at S2, in the initiator's run. *)
Lemma S2_signatures_in_owner_order :
  ∃ σ_me reply,
    signaturesMade (trace (hostOfA proposalS2) (initiatorFlow proposalS2)) = [σ_me] ∧
    repliesReceived (trace (hostOfA proposalS2) (initiatorFlow proposalS2)) = [reply] ∧
    assertIsValidSignature B (hashFor proposalS2) (signature (customData reply)) = inr () ∧
    signatures <$> commitmentsPersisted (trace (hostOfA proposalS2) (initiatorFlow proposalS2))
      = [[partySignature A σ_me (signature (customData reply)) A;
          partySignature A σ_me (signature (customData reply)) B]].
Proof.
  unshelve epose proof (signatures_in_channel_owner_order (hostOfA proposalS2)
    (contextOfA proposalS2) (installParams proposalS2) _ eq_refl _ _) as [Hrole0 _];
    [shelve|by vm_compute|by apply parties_are_owners|].
  destruct Hrole0 as (σ_me & reply & Hσ & Hreply & Hvalid & Hpersisted);
    [by vm_compute|].
  exists σ_me, reply. split_and!; [done|done|exact Hvalid|].
  unfold initiatorFlow. rewrite Hpersisted. reflexivity.
Defined.

(** C4 at S2: the hash the responder signs. *)
Lemma S2_responder_signs_verified_hash :
  freeBalanceUpdateDataHash (contextOfB proposalS2) = Some (hashFor proposalS2) ∧
  ∃ p, params (message (contextOfB proposalS2)) = Some p ∧
       assertIsValidSignature
         (getSignerAddressFromPublicIdentifier (paramsInitiatorIdentifier p))
         (hashFor proposalS2)
         (signature (customData (message (contextOfB proposalS2)))) = inr ().
Proof.
  apply (proj1 (responder_verifies_before_signing_persists_before_sending
                  hostOfB (contextOfB proposalS2))).
  vm_compute. by left.
Defined.

(** C5 at S6: the host rejects. *)
Lemma S6_initiator_aborts :
  outcome rejectingHost (initiatorFlow proposalS2)
    = inl (HostRejected "app definition not whitelisted") ∧
  noneOf signsSendsOrPersists (trace rejectingHost (initiatorFlow proposalS2)) = true.
Proof.
  assert (validatesAsSpecified rejectingHost) as Hhost by (by intros hist p c).
  apply (proj2 (initiator_validates_before_signing rejectingHost (contextOfA proposalS2)
                  Hhost)).
  vm_compute. by left.
Defined.

(** C6 at S5: a signature over another hash. *)
Lemma S5_initiator_rejects_forged_reply :
  outcome hostWithForgedReply (initiatorFlow proposalS2) = inl InvalidCounterpartySignature ∧
  noneOf isPersist (trace hostWithForgedReply (initiatorFlow proposalS2)) = true ∧
  commitmentsPersisted (trace hostWithForgedReply (initiatorFlow proposalS2)) = [] ∧
  Forall (λ sc, preProtocolStateChannel (contextOfA proposalS2) = Some sc)
    (channelsHandedOut (trace hostWithForgedReply (initiatorFlow proposalS2))).
Proof.
  apply (initiator_rejects_invalid_countersignature hostWithForgedReply
           (contextOfA proposalS2) (installParams proposalS2) (hashFor proposalS2)
           (replyWith (sign B "another hash"))).
  - reflexivity.
  - by vm_compute.
  - vm_compute. by left.
  - by vm_compute.
Defined.

(** C7 at S4: the initiator holds 100 and is to deposit 130. *)
Lemma S4_insufficient_funds :
  outcome (hostOfA proposalS4) (initiatorFlow proposalS4)
    = inl (InsufficientFunds "xpubA" ETH 100 130) ∧
  trace (hostOfA proposalS4) (initiatorFlow proposalS4) = [].
Proof.
  destruct (sufficiency_checked_before_any_request (hostOfA proposalS4)
              (contextOfA proposalS4) 0 INSTALL_PROTOCOL_0 channel (installParams proposalS4)
              eq_refl eq_refl eq_refl) as [Hshort _].
  assert (100 < 130) as Hlt by lia.
  apply Hshort in Hlt. vm_compute in Hlt |- *. exact Hlt.
Defined.



(** C9 at a proposal that spells one asset in two ways. *)
Lemma mixed_case_takes_same_token_branch :
  ∃ holders,
    tokenIndexedBalanceDecrement channel proposalMixedCase !! ETH = Some holders ∧
    holders !! A = Some 30 ∧ holders !! B = Some 40 ∧
    sumBalances holders = 30 + 40.
Proof.
  apply (proj2 (same_token_branch_compares_addresses channel proposalMixedCase
                  ltac:(done) eq_refl)).
  done.
Defined.

(** C10 at S2: the reply of the responder. *)
Lemma S2_reply_has_no_params :
  params (replyWith (sign B (hashFor proposalS2))) = None ∧
  ∃ p σ_me,
    params (message (contextOfB proposalS2)) = Some p ∧
    signaturesMade (trace hostOfB (responderFlow proposalS2)) = [σ_me] ∧
    replyWith (sign B (hashFor proposalS2)) =
      {| processID := processID (message (contextOfB proposalS2));
         protocol := install;
         params := None;
         to := paramsInitiatorIdentifier p;
         customData := {| signature := σ_me |};
         seq := UNASSIGNED_SEQ_NO |}.
Proof.
  apply (proj1 (responder_reply_carries_no_params hostOfB (contextOfB proposalS2))).
  vm_compute. by left.
Defined.

End ScenarioFacts.

(** ** More of the transition, on the code *)

Section DecrementNames.

Context `{Utils}.

(** X9: the decrement names no token but the two the proposal deposits in;
    under one shared token the holders it debits are the two channel
    owners, whoever the app parties are, and under two tokens they are the
    signer addresses of the app parties, each under its own token. *)
Theorem decrement_names_deposit_tokens_and_payers sc p token holders :
  tokenIndexedBalanceDecrement sc p !! token = Some holders →
  let tokenI := getAddressFromAssetId (initiatorDepositAssetId p) in
  let tokenR := getAddressFromAssetId (responderDepositAssetId p) in
  (token = tokenI ∨ token = tokenR) ∧
  ∀ k, is_Some (holders !! k) →
    if bool_decide (tokenI = tokenR)
    then k = owner0 sc ∨ k = owner1 sc
    else token = tokenI ∧ k = getSignerAddressFromPublicIdentifier (initiatorIdentifier p) ∨
         token = tokenR ∧ k = getSignerAddressFromPublicIdentifier (responderIdentifier p).
Proof.
  intros Hlook tokenI tokenR. subst tokenI tokenR.
  case_bool_decide as Htok.
  - rewrite decrement_same_token in Hlook by done.
    apply lookup_singleton_Some in Hlook as [<- <-].
    split; [by right|]. intros k [v Hv].
    apply lookup_insert_Some in Hv as [[<- _]|[_ Hv]]; [by right|].
    apply lookup_singleton_Some in Hv as [<- _]. by left.
  - rewrite decrement_different_tokens in Hlook by done.
    apply lookup_insert_Some in Hlook as [[<- <-]|[_ Hlook]].
    + split; [by right|]. intros k [v Hv].
      apply lookup_singleton_Some in Hv as [<- _]. by right.
    + apply lookup_singleton_Some in Hlook as [<- <-].
      split; [by left|]. intros k [v Hv].
      apply lookup_singleton_Some in Hv as [<- _]. by left.
Qed.

End DecrementNames.

(** ** More of the two roles, on the code *)

Section ProtocolRequests.

Context `{Utils, Helpers}.

(** Equations gathered along a run, put to use. *)
Ltac tidy :=
  repeat match goal with
  | u : unit |- _ => destruct u
  | Hd : destructure _ = inr _ |- _ => apply destructure_inr in Hd
  | Hd : destructure _ = inl _ |- _ => apply destructure_inl in Hd
  end.

(** X1: in either role nothing is requested of the host before the channel,
    the parameters, the two sufficiency checks, the transition and the
    lookup of the new app have all gone through: a missing channel ends
    the run in [NoStateChannel], and an error thrown by the transition or
    by [getAppInstance] ends it in that error, with an empty trace; when
    all return, a request is made. *)
Theorem setup_errors_precede_every_request host context sequence flow :
  INSTALL_PROTOCOL sequence = Some flow →
  let tr := trace host (flow context) in
  let result := outcome host (flow context) in
  (preProtocolStateChannel context = None → result = inl NoStateChannel ∧ tr = []) ∧
  (∀ pre p,
     preProtocolStateChannel context = Some pre →
     params (message context) = Some p →
     assertSufficientFundsWithinFreeBalance pre (initiatorIdentifier (proposal p))
       (getAddressFromAssetId (initiatorDepositAssetId (proposal p)))
       (toBN (initiatorDeposit (proposal p))) = inr () →
     assertSufficientFundsWithinFreeBalance pre (responderIdentifier (proposal p))
       (getAddressFromAssetId (responderDepositAssetId (proposal p)))
       (toBN (responderDeposit (proposal p))) = inr () →
     match computeInstallStateChannelTransition pre (proposal p) with
     | inl e => result = inl e ∧ tr = []
     | inr after =>
         match getAppInstance after (identityHash (proposal p)) with
         | inl e => result = inl e ∧ tr = []
         | inr _ => opcodes (take 1 tr) = [OpValidate]
         end
     end).
Proof.
  intros Hflow tr result. subst tr result.
  destruct sequence as [|[|?]]; simplify_eq/=.
  all: match goal with |- context [trace _ ?g] =>
         apply (wp_both g (λ tr o,
           (_ = None → o = inl NoStateChannel ∧ tr = []) ∧
           (∀ pre p, _ = Some pre → _ = Some p → _ = inr () → _ = inr () →
              match computeInstallStateChannelTransition pre (proposal p) with
              | inl e => o = inl e ∧ tr = []
              | inr after =>
                  match getAppInstance after (identityHash (proposal p)) with
                  | inl e => o = inl e ∧ tr = []
                  | inr _ => opcodes (take 1 tr) = [OpValidate]
                  end
              end)))
       end.
  all: wp_install.
  all: tidy.
  all: split; [done|].
  all: intros pre' p' ? ? HsI HsR; simplify_eq.
  all: repeat match goal with
       | Hx : ?l = _ |- context [?l] => rewrite Hx
       end; try done.
  all: try (rewrite HsI in *; simplify_eq).
  all: try (rewrite HsR in *; simplify_eq).
Qed.

(** X2: the requests of a run are an initial part of the role's requests in
    program order (the initiator validates, signs, sends and waits, then
    persists; the responder validates, signs, persists, then sends), so
    each is made at most once; and the run succeeds exactly when all four
    were made and answered. *)
Theorem requests_follow_program_order host context sequence flow :
  INSTALL_PROTOCOL sequence = Some flow →
  let tr := trace host (flow context) in
  opcodes tr `prefix_of` requestsOf (roleOf sequence) ∧
  (outcome host (flow context) = inr () ↔
   opcodes tr = requestsOf (roleOf sequence) ∧ forallb answered tr = true).
Proof.
  intros Hflow tr. subst tr.
  destruct sequence as [|[|?]]; simplify_eq/=.
  all: match goal with |- context [trace _ ?g] =>
         apply (wp_both g (λ tr o,
           opcodes tr `prefix_of` _ ∧ (o = inr () ↔ opcodes tr = _ ∧ forallb answered tr = true)))
       end.
  all: wp_install.
  all: tidy; cbn.
  all: split; [by eexists|].
  all: split; [try done; by intros [? ?]|try done; by intros [? ?]].
Qed.

(** X3: in every run of the responder, a request that signs, sends or
    persists comes after an [OP_VALIDATE] that the host resumed with a
    falsy value; and when [OP_VALIDATE] is resumed with a non-empty reason
    the run ends in that reason, with no request that signs, sends or
    persists. *)
Theorem responder_validates_before_signing host context :
  let tr := trace host (INSTALL_PROTOCOL_1 context) in
  precededBy validatedFalsy signsSendsOrPersists tr ∧
  ∀ reason, Some reason ∈ validateAnswers tr → reason ≠ "" →
    outcome host (INSTALL_PROTOCOL_1 context) = inl (HostRejected reason) ∧
    noneOf signsSendsOrPersists tr = true.
Proof.
  intros tr. subst tr.
  apply (wp_both _ (λ tr o,
    precededBy validatedFalsy signsSendsOrPersists tr ∧
    ∀ reason, Some reason ∈ validateAnswers tr → reason ≠ "" →
      o = inl (HostRejected reason) ∧ noneOf signsSendsOrPersists tr = true)).
  wp_install.
  all: split;
    [apply guardedBy_precededBy; cbn;
     repeat match goal with Hx : truthy _ = _ |- _ => rewrite Hx end; done|].
  all: cbn; intros reason Hin Hreason.
  all: try by apply elem_of_nil in Hin.
  all: apply list_elem_of_singleton in Hin as <-.
  all: try done.
  all: exfalso; simpl in *; by case_bool_decide.
Qed.

(** X4: in every run of the initiator, a commitment is persisted only
    after the reply has been received and the check of the responder's
    signature in it, over the hash of the free-balance commitment, has
    returned. *)
Theorem initiator_persists_after_verified_reply host context :
  let tr := trace host (INSTALL_PROTOCOL_0 context) in
  precededBy (λ e, isSendAndWait e && answered e) isPersist tr ∧
  ∀ c, c ∈ commitmentsPersisted tr →
    ∃ p h reply,
      params (message context) = Some p ∧
      freeBalanceUpdateDataHash context = Some h ∧
      repliesReceived tr = [reply] ∧
      assertIsValidSignature
        (getSignerAddressFromPublicIdentifier (paramsResponderIdentifier p)) h
        (signature (customData reply)) = inr ().
Proof.
  intros tr. subst tr. apply wp_trace. wp_install.
  all: split; [by apply guardedBy_precededBy|].
  all: cbn; intros c Hin.
  all: try by apply elem_of_nil in Hin.
  all: apply list_elem_of_singleton in Hin as ->; tidy.
  all: eexists _, _, _; split_and!; [done| |done|done].
  all: unfold freeBalanceUpdateDataHash, stateChannelAfter.
  all: by repeat match goal with Hx : ?l = _ |- context [?l] => rewrite Hx end.
Qed.

(** X5: every message the initiator sends is the one message to the
    responder named in the parameters, with the process id and the
    parameters of the incoming message, the initiator's signature as custom
    data and sequence number 1. *)
Theorem initiator_message_goes_to_the_responder host context :
  let tr := trace host (INSTALL_PROTOCOL_0 context) in
  ∀ m, m ∈ messagesSent tr →
    ∃ p σ_me,
      params (message context) = Some p ∧
      signaturesMade tr = [σ_me] ∧
      messagesSent tr = [m] ∧
      m = {| processID := processID (message context);
             protocol := install;
             params := params (message context);
             to := paramsResponderIdentifier p;
             customData := {| signature := σ_me |};
             seq := 1 |}.
Proof.
  intros tr. subst tr. apply wp_trace. wp_install.
  all: cbn; intros m Hin.
  all: try by apply elem_of_nil in Hin.
  all: apply list_elem_of_singleton in Hin as ->; tidy.
  all: eexists _, _; split_and!; [done..|].
  all: by repeat match goal with Hx : ?l = _ |- context [?l] => rewrite Hx end.
Qed.

(** X6: in either role, what is persisted is a new instance
    ([CreateInstance]), the channel the transition computed from the
    pre-protocol channel, and the app that channel lists under the
    proposal's identity hash; and the channel the responder passes with its
    reply is that same channel. *)
Theorem persist_hands_over_the_installed_channel host context sequence flow :
  INSTALL_PROTOCOL sequence = Some flow →
  let tr := trace host (flow context) in
  (∀ ty sc app, (ty, sc, app) ∈ persistRequests tr →
     ty = CreateInstance ∧
     stateChannelAfter context = Some sc ∧
     ∃ p, params (message context) = Some p ∧
          getAppInstance sc (identityHash (proposal p)) = inr app) ∧
  (∀ sc, sc ∈ channelsSent tr → stateChannelAfter context = Some sc).
Proof.
  intros Hflow tr. subst tr.
  destruct sequence as [|[|?]]; simplify_eq/=.
  all: apply wp_trace; wp_install.
  all: split; cbn.
  all: try (intros ty sc' app' Hin); try (intros sc' Hin).
  all: try by apply elem_of_nil in Hin.
  all: apply list_elem_of_singleton in Hin; simplify_eq; tidy.
  all: unfold stateChannelAfter.
  all: repeat match goal with Hx : ?l = _ |- context [?l] => rewrite Hx end.
  all: try done.
  all: split_and!; [done..|by eexists].
Qed.

(** X7: the validation is asked about the install protocol, with the
    parameters of the message, the channel as it is before the install,
    the new app as the channel after the install lists it, and the role
    of the flow. *)
Theorem validation_is_shown_the_pre_protocol_channel host context sequence flow :
  INSTALL_PROTOCOL sequence = Some flow →
  let tr := trace host (flow context) in
  ∀ name c, (name, c) ∈ validateRequests tr →
    name = install ∧
    params (message context) = Some (mwParams c) ∧
    preProtocolStateChannel context = Some (mwStateChannel c) ∧
    mwRole c = roleOf sequence ∧
    ∃ after,
      stateChannelAfter context = Some after ∧
      getAppInstance after (identityHash (proposal (mwParams c))) = inr (mwAppInstance c).
Proof.
  intros Hflow tr. subst tr.
  destruct sequence as [|[|?]]; simplify_eq/=.
  all: apply wp_trace; wp_install.
  all: cbn; intros name c Hin.
  all: try by apply elem_of_nil in Hin.
  all: apply list_elem_of_singleton in Hin; simplify_eq; tidy.
  all: split_and!; [done..|].
  all: eexists; split; [|done].
  all: unfold stateChannelAfter.
  all: by repeat match goal with Hx : ?l = _ |- context [?l] => rewrite Hx end.
Qed.

(** What a successful run of each role has asked of its host. *)
Lemma initiator_success host context pre p after :
  preProtocolStateChannel context = Some pre →
  params (message context) = Some p →
  computeInstallStateChannelTransition pre (proposal p) = inr after →
  outcome host (INSTALL_PROTOCOL_0 context) = inr () →
  let tr := trace host (INSTALL_PROTOCOL_0 context) in
  ∃ σ_me reply app,
    let σ_them := signature (customData reply) in
    let isChannelInitiator :=
      bool_decide (owner0 after
                   ≠ getSignerAddressFromPublicIdentifier (paramsResponderIdentifier p)) in
    signaturesMade tr = [σ_me] ∧ repliesReceived tr = [reply] ∧
    getAppInstance after (identityHash (proposal p)) = inr app ∧
    persistRequests tr = [(CreateInstance, after, app)] ∧
    commitmentsPersisted tr =
      [addSignatures (getSetStateCommitment context (freeBalance after))
         (if isChannelInitiator then σ_me else σ_them)
         (if isChannelInitiator then σ_them else σ_me)].
Proof.
  intros Hpre Hp Hafter Hok tr. subst tr. revert Hok.
  apply (wp_both _ (λ tr o, o = inr () → ∃ σ_me reply app,
    signaturesMade tr = [σ_me] ∧ repliesReceived tr = [reply] ∧
    getAppInstance after (identityHash (proposal p)) = inr app ∧
    persistRequests tr = [(CreateInstance, after, app)] ∧
    commitmentsPersisted tr = [addSignatures _ _ _])).
  wp_install; try done. intros _. tidy. simplify_eq.
  match goal with
  | Hx : computeInstallStateChannelTransition _ _ = inr ?sc |- _ =>
      assert (sc = after) as -> by congruence
  end.
  cbn. by eexists _, _, _.
Qed.

Lemma responder_success host context pre p after :
  preProtocolStateChannel context = Some pre →
  params (message context) = Some p →
  computeInstallStateChannelTransition pre (proposal p) = inr after →
  outcome host (INSTALL_PROTOCOL_1 context) = inr () →
  let tr := trace host (INSTALL_PROTOCOL_1 context) in
  ∃ σ_me app,
    let σ_them := signature (customData (message context)) in
    let isChannelInitiator :=
      bool_decide (owner0 after
                   ≠ getSignerAddressFromPublicIdentifier (paramsInitiatorIdentifier p)) in
    signaturesMade tr = [σ_me] ∧
    getAppInstance after (identityHash (proposal p)) = inr app ∧
    persistRequests tr = [(CreateInstance, after, app)] ∧
    commitmentsPersisted tr =
      [addSignatures (getSetStateCommitment context (freeBalance after))
         (if isChannelInitiator then σ_me else σ_them)
         (if isChannelInitiator then σ_them else σ_me)].
Proof.
  intros Hpre Hp Hafter Hok tr. subst tr. revert Hok.
  apply (wp_both _ (λ tr o, o = inr () → ∃ σ_me app,
    signaturesMade tr = [σ_me] ∧
    getAppInstance after (identityHash (proposal p)) = inr app ∧
    persistRequests tr = [(CreateInstance, after, app)] ∧
    commitmentsPersisted tr = [addSignatures _ _ _])).
  wp_install; try done. intros _. tidy. simplify_eq.
  match goal with
  | Hx : computeInstallStateChannelTransition _ _ = inr ?sc |- _ =>
      assert (sc = after) as -> by congruence
  end.
  cbn. by eexists _, _.
Qed.

(** X8: when the two parties, the two owners of the channel, both
    complete an install of the same proposal on the same channel, each
    receiving the signature the other made, they persist the same thing:
    the same channel, the same app and the same commitment with the same
    two signatures in the same order. *)
Theorem both_parties_persist_the_same_commitment hostI hostR contextI contextR p after :
  sameCommitments contextI contextR →
  preProtocolStateChannel contextI = preProtocolStateChannel contextR →
  params (message contextI) = Some p →
  params (message contextR) = Some p →
  stateChannelAfter contextI = Some after →
  partiesAreOwners after
    (getSignerAddressFromPublicIdentifier (paramsInitiatorIdentifier p))
    (getSignerAddressFromPublicIdentifier (paramsResponderIdentifier p)) →
  let trI := trace hostI (INSTALL_PROTOCOL_0 contextI) in
  let trR := trace hostR (INSTALL_PROTOCOL_1 contextR) in
  outcome hostI (INSTALL_PROTOCOL_0 contextI) = inr () →
  outcome hostR (INSTALL_PROTOCOL_1 contextR) = inr () →
  signaturesMade trI = [signature (customData (message contextR))] →
  signature ∘ customData <$> repliesReceived trI = signaturesMade trR →
  persistRequests trI = persistRequests trR ∧
  commitmentsPersisted trI = commitmentsPersisted trR.
Proof.
  intros Hsame Hpre HpI HpR Hafter [Hne Hparties] trI trR HokI HokR HsentI HsentR.
  subst trI trR. unfold stateChannelAfter in Hafter.
  destruct (preProtocolStateChannel contextI) as [pre|] eqn:HpreI; [|done].
  rewrite HpI in Hafter.
  destruct (computeInstallStateChannelTransition pre (proposal p)) eqn:Htransition;
    [done|]. injection Hafter as ->.
  destruct (initiator_success hostI contextI pre p after HpreI HpI Htransition HokI)
    as (σI & reply & appI & HmadeI & HreplyI & HappI & HpersistI & HcommitI).
  destruct (responder_success hostR contextR pre p after (eq_sym Hpre) HpR Htransition HokR)
    as (σR & appR & HmadeR & HappR & HpersistR & HcommitR).
  rewrite HmadeI in HsentI. rewrite HreplyI, HmadeR in HsentR.
  simplify_eq/=.
  rewrite HcommitI, HcommitR, HpersistI, HpersistR, Hsame.
  unfold owner0, owner1 in *.
  destruct Hparties as [[Hi Hr]|[Hi Hr]]; rewrite Hi, Hr in *.
  all: repeat case_bool_decide; simplify_eq; try done.
  all: assert (appI = appR) as -> by congruence; done.
Qed.

End ProtocolRequests.

(** ** The scenarios again, for the further properties *)

Module RequestFacts.

Import Scenario ScenarioInputs.

#[local] Existing Instance utils.
#[local] Existing Instance crypto.
#[local] Existing Instance SpecModel.helpers.

(** X1 at a responder that has no channel, and at an initiator whose
    proposal the channel does not list. *)
Lemma no_channel_or_unknown_proposal_no_request :
  (outcome hostOfB (INSTALL_PROTOCOL_1 contextWithoutChannel) = inl NoStateChannel ∧
   trace hostOfB (INSTALL_PROTOCOL_1 contextWithoutChannel) = []) ∧
  (outcome (hostOfA proposalUnknown) (initiatorFlow proposalUnknown) = inl AppNotProposed ∧
   trace (hostOfA proposalUnknown) (initiatorFlow proposalUnknown) = []).
Proof.
  split.
  - apply (proj1 (setup_errors_precede_every_request hostOfB contextWithoutChannel 1
                    INSTALL_PROTOCOL_1 eq_refl)).
    reflexivity.
  - pose proof (proj2 (setup_errors_precede_every_request (hostOfA proposalUnknown)
                         (contextOfA proposalUnknown) 0 INSTALL_PROTOCOL_0 eq_refl)
                  channel (installParams proposalUnknown) eq_refl eq_refl) as Hw.
    assert (computeInstallStateChannelTransition channel (proposal (installParams proposalUnknown))
            = inl AppNotProposed) as Ht by (by vm_compute).
    rewrite Ht in Hw. apply Hw; by vm_compute.
Defined.

(** X2 at S2: the four requests of the initiator. *)
Lemma S2_initiator_requests :
  opcodes (trace (hostOfA proposalS2) (initiatorFlow proposalS2)) = requestsOf initiator ∧
  forallb answered (trace (hostOfA proposalS2) (initiatorFlow proposalS2)) = true.
Proof.
  apply (proj2 (requests_follow_program_order (hostOfA proposalS2) (contextOfA proposalS2) 0
                  INSTALL_PROTOCOL_0 eq_refl)).
  by vm_compute.
Defined.

(** X3 at S6, on the responder's side. *)
Lemma S6_responder_aborts :
  outcome decliningHostOfB (responderFlow proposalS2)
    = inl (HostRejected "app definition not whitelisted") ∧
  noneOf signsSendsOrPersists (trace decliningHostOfB (responderFlow proposalS2)) = true.
Proof.
  apply (proj2 (responder_validates_before_signing decliningHostOfB (contextOfB proposalS2))).
  - vm_compute. by left.
  - done.
Defined.

(** X4 at S2: what the initiator has checked when it persists. *)
Lemma S2_initiator_persists_verified :
  ∃ p h reply,
    params (message (contextOfA proposalS2)) = Some p ∧
    freeBalanceUpdateDataHash (contextOfA proposalS2) = Some h ∧
    repliesReceived (trace (hostOfA proposalS2) (initiatorFlow proposalS2)) = [reply] ∧
    assertIsValidSignature
      (getSignerAddressFromPublicIdentifier (paramsResponderIdentifier p)) h
      (signature (customData reply)) = inr ().
Proof.
  assert (∃ c, c ∈ commitmentsPersisted (trace (hostOfA proposalS2) (initiatorFlow proposalS2)))
    as [c Hc] by (eexists; vm_compute; by left).
  exact (proj2 (initiator_persists_after_verified_reply (hostOfA proposalS2)
                  (contextOfA proposalS2)) c Hc).
Defined.

(** X5 at S2: the message of the initiator. *)
Lemma S2_initiator_message :
  ∃ p σ_me,
    params (message (contextOfA proposalS2)) = Some p ∧
    signaturesMade (trace (hostOfA proposalS2) (initiatorFlow proposalS2)) = [σ_me] ∧
    messagesSent (trace (hostOfA proposalS2) (initiatorFlow proposalS2))
      = [messageOfA proposalS2] ∧
    messageOfA proposalS2 =
      {| processID := processID (message (contextOfA proposalS2));
         protocol := install;
         params := params (message (contextOfA proposalS2));
         to := paramsResponderIdentifier p;
         customData := {| signature := σ_me |};
         seq := 1 |}.
Proof.
  assert (messageOfA proposalS2
            ∈ messagesSent (trace (hostOfA proposalS2) (INSTALL_PROTOCOL_0 (contextOfA proposalS2))))
    as Hin by (vm_compute; by left).
  exact (initiator_message_goes_to_the_responder (hostOfA proposalS2) (contextOfA proposalS2)
           (messageOfA proposalS2) Hin).
Defined.

(** X6 at S2: what the responder persists and passes on. *)
Lemma S2_responder_persists_installed_channel :
  ∃ sc app,
    persistRequests (trace hostOfB (responderFlow proposalS2)) = [(CreateInstance, sc, app)] ∧
    stateChannelAfter (contextOfB proposalS2) = Some sc ∧
    ∃ p, params (message (contextOfB proposalS2)) = Some p ∧
         getAppInstance sc (identityHash (proposal p)) = inr app.
Proof.
  destruct (persistRequests (trace hostOfB (responderFlow proposalS2)))
    as [|[[ty sc] app] [|]] eqn:Hpersist; [by vm_compute in Hpersist| |by vm_compute in Hpersist].
  destruct (proj1 (persist_hands_over_the_installed_channel hostOfB (contextOfB proposalS2) 1
                     INSTALL_PROTOCOL_1 eq_refl) ty sc app) as (-> & Hafter & Happ).
  { change (INSTALL_PROTOCOL_1 (contextOfB proposalS2)) with (responderFlow proposalS2).
    rewrite Hpersist. by left. }
  exists sc, app. split; [reflexivity|]. split; [exact Hafter|exact Happ].
Defined.

(** X7 at S2: what the initiator's host is asked to validate. *)
Lemma S2_validation_request :
  ∃ c,
    validateRequests (trace (hostOfA proposalS2) (initiatorFlow proposalS2)) = [(install, c)] ∧
    params (message (contextOfA proposalS2)) = Some (mwParams c) ∧
    preProtocolStateChannel (contextOfA proposalS2) = Some (mwStateChannel c) ∧
    mwRole c = initiator ∧
    ∃ after,
      stateChannelAfter (contextOfA proposalS2) = Some after ∧
      getAppInstance after (identityHash (proposal (mwParams c))) = inr (mwAppInstance c).
Proof.
  destruct (validateRequests (trace (hostOfA proposalS2) (initiatorFlow proposalS2)))
    as [|[name c] [|]] eqn:Hvalidate;
    [by vm_compute in Hvalidate| |by vm_compute in Hvalidate].
  destruct (validation_is_shown_the_pre_protocol_channel (hostOfA proposalS2)
              (contextOfA proposalS2) 0 INSTALL_PROTOCOL_0 eq_refl name c)
    as (-> & Hparams & Hpre & Hrole & Hafter).
  { change (INSTALL_PROTOCOL_0 (contextOfA proposalS2)) with (initiatorFlow proposalS2).
    rewrite Hvalidate. by left. }
  exists c. split; [reflexivity|]. split_and!; [exact Hparams|exact Hpre|exact Hrole|exact Hafter].
Defined.

(** X8 at S2: the two parties persist one commitment. *)
Lemma S2_parties_persist_one_commitment :
  persistRequests (trace (hostOfA proposalS2) (initiatorFlow proposalS2))
    = persistRequests (trace hostOfB (responderFlow proposalS2)) ∧
  commitmentsPersisted (trace (hostOfA proposalS2) (initiatorFlow proposalS2))
    = commitmentsPersisted (trace hostOfB (responderFlow proposalS2)).
Proof.
  unshelve eapply (both_parties_persist_the_same_commitment (hostOfA proposalS2) hostOfB
           (contextOfA proposalS2) (contextOfB proposalS2) (installParams proposalS2) _).
  - exact (default channel (stateChannelAfter (contextOfA proposalS2))).
  - by intros app.
  - reflexivity.
  - reflexivity.
  - reflexivity.
  - by vm_compute.
  - by apply ScenarioFacts.parties_are_owners.
  - by vm_compute.
  - by vm_compute.
  - by vm_compute.
  - by vm_compute.
Defined.

(** X9 at S1: the decrement under DAI names [B] alone. *)
Lemma S1_decrement_under_DAI :
  let tokenI := getAddressFromAssetId (initiatorDepositAssetId proposalS1) in
  let tokenR := getAddressFromAssetId (responderDepositAssetId proposalS1) in
  (DAI = tokenI ∨ DAI = tokenR) ∧
  ∀ k, is_Some (({[ B := 20 ]} : gmap string Z) !! k) →
    if bool_decide (tokenI = tokenR)
    then k = owner0 channel ∨ k = owner1 channel
    else DAI = tokenI ∧ k = getSignerAddressFromPublicIdentifier (initiatorIdentifier proposalS1) ∨
         DAI = tokenR ∧ k = getSignerAddressFromPublicIdentifier (responderIdentifier proposalS1).
Proof.
  apply (decrement_names_deposit_tokens_and_payers channel proposalS1 DAI {[ B := 20 ]}).
  by vm_compute.
Defined.

End RequestFacts.

(** ** Reasoning about asynchronous functions *)

Lemma always_exec {Op A} (t : Task Op A) hist Q services :
  always t hist Q → Q (exec services hist t).1 (exec services hist t).2.
Proof.
  revert hist. induction t as [a|e|X op k IH]; intros hist; simpl; [done..|].
  intros [Hres Hfail]. destruct (services hist X op) as [x|reason]; simpl.
  - by apply IH.
  - apply Hfail.
Qed.

Lemma always_calls {Op A} (t : Task Op A) (P : list (Call Op) → sum Thrown A → Prop) services :
  always t [] P → P (calls services t) (result services t).
Proof. apply (always_exec t [] P). Qed.

Lemma always_bind {Op A B} (t : Task Op A) (f : A → Task Op B) hist Q :
  always (t ≫= f) hist Q ↔
  always t hist (λ tr o, match o with
                         | inl e => Q tr (inl e)
                         | inr a => always (f a) tr Q
                         end).
Proof.
  unfold mbind, Task_bind.
  revert hist. induction t as [a|e|X op k IH]; intros hist; simpl; [done..|].
  split.
  - intros [Hres Hfail]. split; [|done]. intros x. by apply IH.
  - intros [Hres Hfail]. split; [|done]. intros x. by apply IH.
Qed.

Lemma always_mono {Op A} (t : Task Op A) hist (Q1 Q2 : list (Call Op) → sum Thrown A → Prop) :
  (∀ tr o, Q1 tr o → Q2 tr o) → always t hist Q1 → always t hist Q2.
Proof.
  intros HQ. revert hist. induction t as [a|e|X op k IH]; intros hist; simpl; [by auto..|].
  intros [Hres Hfail]. split; [|by auto]. intros x. by apply IH.
Qed.

(** The rule of the [for ... of] loop: [R done tr] relates the elements
    gone through to the calls made; [F done a tr] is what holds when the
    body throws at [a]. *)
Lemma always_forOf {Op A} (l : list A) (body : A → Task Op unit) hist
    (R : list A → list (Call Op) → Prop) (F : list A → A → list (Call Op) → Prop) :
  R [] hist →
  (∀ done a rest tr, l = done ++ a :: rest → R done tr →
     always (body a) tr (λ tr' o, match o with
                                  | inr _ => R (done ++ [a]) tr'
                                  | inl _ => F done a tr'
                                  end)) →
  always (forOf l body) hist (λ tr o,
    match o with
    | inr _ => R l tr
    | inl _ => ∃ done a rest, l = done ++ a :: rest ∧ F done a tr
    end).
Proof.
  intros Hstart Hstep.
  assert (∀ rest done hist, l = done ++ rest → R done hist →
            always (forOf rest body) hist (λ tr o,
              match o with
              | inr _ => R l tr
              | inl _ => ∃ done a rest, l = done ++ a :: rest ∧ F done a tr
              end)) as Hloop; [|by apply (Hloop l [] hist)].
  clear hist Hstart. intros rest. induction rest as [|a rest IH]; intros done hist Hl HR.
  - simpl. rewrite app_nil_r in Hl. by subst.
  - simpl. apply always_bind. eapply always_mono; [|by apply (Hstep done a rest)].
    intros tr [e|[]] Hpost.
    + by exists done, a, rest.
    + apply (IH (done ++ [a])); [|done]. by rewrite <- app_assoc.
Qed.

(** One step through a task: a branch, a call and its two ways to settle,
    or the end. *)
Ltac task_branch t :=
  lazymatch t with
  | bindTask ?t' _ => task_branch t'
  | if ?b then _ else _ => destruct b eqn:?
  | match ?x with _ => _ end => destruct x eqn:?
  end.

Ltac task_step :=
  unfold mbind, Task_bind, mret, Task_ret, await, attempt; cbn [bindTask];
  lazymatch goal with
  | |- always (Await _ _) _ _ => split; [intros ?|intros ?]
  | |- always (Done _) _ _ => cbn [always]
  | |- always (Raise _) _ _ => cbn [always]
  | |- always ?t _ _ => task_branch t
  end.


(** ** The test utilities *)

Module TestUtilsFacts.

Import TestUtils.

Lemma filler_zeros n :
  filler n "0" "0" = zeros n ∧ filler n "0" "" = zeros n.
Proof.
  induction n as [|n [IH0 IH1]]; [done|].
  change (zeros (S n)) with ("0" +:+ filler 0 "0" "" +:+ zeros n).
  rewrite <- IH1. by split.
Qed.

Lemma length_zeros n : String.length (zeros n) = n.
Proof.
  induction n as [|n IH]; [done|].
  change (S (String.length (zeros n)) = S n). by rewrite IH.
Qed.

Lemma string_length_app (s t : string) :
  String.length (s +:+ t) = (String.length s + String.length t)%nat.
Proof.
  induction s as [|c s IH]; [done|].
  change (S (String.length (s +:+ t)) = S (String.length s + String.length t)).
  by rewrite IH.
Qed.

Lemma string_app_empty_r (s : string) : s +:+ "" = s.
Proof.
  induction s as [|c s IH]; [done|].
  change (String c (s +:+ "") = String c s). by rewrite IH.
Qed.

Lemma padEnd_zeros s n :
  padEnd s n "0" = s +:+ zeros (n - String.length s).
Proof.
  unfold padEnd. case_bool_decide as Hlen.
  - replace (n - String.length s)%nat with 0%nat by lia.
    by rewrite string_app_empty_r.
  - rewrite bool_decide_eq_false_2 by done. by rewrite (proj1 (filler_zeros _)).
Qed.

(** X10: whatever the prefix, each maker returns the prefix followed by
    zeros only, as many as the prefix falls short of the length of the
    kind of value (111, 42, 66, 132): a longer prefix is returned as it
    is, never cut, and making a value from a made value changes
    nothing. *)
Theorem makers_pad_with_zeros_and_never_cut (prefix : string) :
  Forall (λ '(mk, n),
            mk (Some prefix) = prefix +:+ zeros (n - String.length prefix) ∧
            String.length (mk (Some prefix)) = (n `max` String.length prefix)%nat ∧
            mk (Some (mk (Some prefix))) = mk (Some prefix))
    [(mkXpub, 111%nat); (mkAddress, 42%nat); (mkHash, 66%nat); (mkSig, 132%nat)].
Proof.
  assert (∀ n, padEnd prefix n "0" = prefix +:+ zeros (n - String.length prefix) ∧
               String.length (padEnd prefix n "0") = (n `max` String.length prefix)%nat ∧
               padEnd (padEnd prefix n "0") n "0" = padEnd prefix n "0") as Hpad.
  { intros n. split; [apply padEnd_zeros|].
    assert (String.length (padEnd prefix n "0") = (n `max` String.length prefix)%nat) as Hlen.
    { rewrite padEnd_zeros, string_length_app, length_zeros. lia. }
    split; [done|].
    unfold padEnd at 1. rewrite bool_decide_eq_true_2; [done|]. rewrite Hlen. lia. }
  repeat constructor; apply Hpad.
Qed.

Section EntitiesFacts.

Context (viewEntites : list Entity).

Lemma indexOfFrom_absent l x i : 0 ≤ i → indexOfFrom l x i = -1 ↔ x ∉ l.
Proof.
  revert i. induction l as [|y l IH]; intros i Hi; simpl.
  - split; [intros _; apply not_elem_of_nil|done].
  - case_bool_decide as Hy.
    + subst. split; [lia|]. intros Hn. exfalso. apply Hn. by left.
    + rewrite IH by lia. rewrite not_elem_of_cons. split; [by split|by intros [_ ?]].
Qed.

Lemma getEntities_filter connection :
  getEntities viewEntites connection = tablesToClear viewEntites connection.
Proof.
  unfold getEntities, tablesToClear. destruct connection as [[metas]|]; [|done]. simpl.
  set (f := λ (entities : list Entity) (x : Entity), _).
  assert (∀ acc, foldl f acc metas
                 = acc ++ filter (λ x, name x ∉ name <$> viewEntites) metas) as Hfold;
    [|apply (Hfold [])].
  induction metas as [|x metas IH]; intros acc; simpl.
  - by rewrite app_nil_r.
  - rewrite IH, filter_cons. unfold f, indexOf.
    case_bool_decide as Hview.
    + rewrite decide_False; [done|].
      intros Hn. apply Hview. by apply indexOfFrom_absent.
    + rewrite decide_True.
      * destruct x. by rewrite <- app_assoc.
      * apply (indexOfFrom_absent _ _ 0); [done|].
        destruct (decide (indexOfFrom (name <$> viewEntites) (name x) 0 = -1)); [done|].
        by destruct Hview.
Qed.

Lemma always_cleanAll entities connection hist :
  always (cleanAll entities (Some connection)) hist (λ tr o,
    ∃ done,
      statements tr = statements hist ++ (deleteFrom ∘ tableName <$> done) ∧
      done `prefix_of` entities ∧
      (o = inr () ∧ done = entities ∧
         (forallb settled hist = true → forallb settled tr = true) ∨
       o ≠ inr () ∧ forallb settled tr = false)).
Proof.
  revert hist. induction entities as [|entity entities IH]; intros hist.
  - simpl. exists []. rewrite app_nil_r. split_and!; [done..|]. by left.
  - unfold cleanAll. simpl. split.
    + intros []. eapply always_mono; [|apply IH].
      intros tr o (done & Hst & Hpre & Hres). exists (entity :: done).
      unfold statements in *. rewrite Hst, fmap_app. simpl. rewrite <- app_assoc.
      split_and!; [done|by apply prefix_cons|].
      destruct Hres as [(-> & -> & Hall)|[Ho Hall]]; [left|right; done].
      split_and!; [done..|]. intros Hh. apply Hall.
      rewrite forallb_app. simpl. by rewrite Hh.
    + intros reason. exists [entity]. unfold statements. rewrite fmap_app. simpl.
      split_and!; [done|by apply prefix_cons, prefix_nil|].
      right. split; [done|]. rewrite forallb_app. simpl. apply andb_false_r.
Qed.

(** X11: [clearDb] asks the database to delete from the table of each
    entity of the connection whose name is not the name of a view, once
    each and in the order of the metadata, stopping at the first statement
    the database refuses; it succeeds exactly when all of them were run;
    and without a connection it asks nothing. *)
Theorem clearDb_deletes_from_every_table_but_the_views services connection :
  let tr := calls services (clearDb viewEntites connection) in
  let expected := deleteFrom ∘ tableName <$> tablesToClear viewEntites connection in
  statements tr `prefix_of` expected ∧
  (result services (clearDb viewEntites connection) = inr () ↔
   statements tr = expected ∧ forallb settled tr = true) ∧
  (connection = None → tr = []).
Proof.
  intros tr expected. subst tr expected. unfold clearDb.
  rewrite getEntities_filter.
  destruct connection as [connection|]; [|by split_and!].
  pose proof (always_calls _ _ services
                (always_cleanAll (tablesToClear viewEntites (Some connection)) connection []))
    as (done & Hst & Hpre & Hres).
  simpl in Hst. rewrite Hst. split_and!; [|clear Hpre|done].
  - destruct Hpre as [rest ->]. exists (deleteFrom ∘ tableName <$> rest). apply fmap_app.
  - destruct Hres as [(-> & -> & Hall)|[Ho Hall]].
    + split; [intros _; split; [done|by apply Hall]|done].
    + split; [done|]. intros [_ Hs]. congruence.
Qed.

End EntitiesFacts.

End TestUtilsFacts.

(** ** The client *)

Module ClientFacts.

Import Client.

Section ClientFacts.

Context (stringify : list AppInstanceJson → string).
Context (this : ConnextClient).

(** A list filters to one element exactly when that element is the only
    one of the list that passes. *)
Lemma filter_is_singleton {A} (P : A → Prop) `{∀ x, Decision (P x)} (l : list A) (x : A) :
  filter P l = [x] ↔
  ∃ before after,
    l = before ++ x :: after ∧ P x ∧ Forall (λ y, ¬ P y) before ∧ Forall (λ y, ¬ P y) after.
Proof.
  split.
  - induction l as [|y l IH]; [done|]. rewrite filter_cons.
    destruct (decide (P y)) as [Hy|Hy].
    + intros [= -> Hnil]. exists [], l. split_and!; [done..|].
      apply Forall_forall. intros z Hz Hpz.
      assert (z ∈ filter P l) as Hin by (by apply list_elem_of_filter).
      rewrite Hnil in Hin. by apply elem_of_nil in Hin.
    + intros Hf. destruct (IH Hf) as (before & after & -> & Hx & Hb & Ha).
      exists (y :: before), after. split_and!; [done..|by constructor|done].
  - intros (before & after & -> & Hx & Hb & Ha).
    rewrite filter_app, filter_cons, decide_True by done.
    assert (∀ k, Forall (λ y, ¬ P y) k → filter P k = []) as Hnone.
    { intros k Hk. induction Hk as [|z k Hz Hk IH]; [done|].
      by rewrite filter_cons, decide_False. }
    by rewrite !Hnone.
Qed.

(** X12: [getRegisteredAppDetails] returns an entry exactly when it is the
    only entry of the registry with the name asked for and the chain id of
    the client's network; with no such entry it throws that it could not
    find the app, and with two or more that it found multiple. *)
Theorem getRegisteredAppDetails_needs_exactly_one_entry appName :
  let registered (app : DefaultApp) :=
    name app = appName ∧ chainId app = networkChainId this in
  (∀ app,
     getRegisteredAppDetails this appName = inr app ↔
     ∃ before after,
       appRegistry this = before ++ app :: after ∧ registered app ∧
       Forall (λ other, ¬ registered other) before ∧
       Forall (λ other, ¬ registered other) after) ∧
  (Forall (λ other, ¬ registered other) (appRegistry this) →
   getRegisteredAppDetails this appName =
     inl (Error ("Could not find " +:+ appName +:+ " app details on chain " +:+
                 pretty (networkChainId this)))) ∧
  (∀ app1 app2 before between after,
     appRegistry this = before ++ app1 :: between ++ app2 :: after →
     registered app1 → registered app2 →
     getRegisteredAppDetails this appName =
       inl (Error ("Found multiple " +:+ appName +:+ " app details on chain " +:+
                   pretty (networkChainId this)))).
Proof.
  intros registered. unfold getRegisteredAppDetails. subst registered.
  split_and!.
  - intros app.
    rewrite <- (filter_is_singleton
                  (λ app, name app = appName ∧ chainId app = networkChainId this)).
    destruct (filter _ (appRegistry this)) as [|first [|second rest]] eqn:Hf.
    + split; [done|done].
    + rewrite bool_decide_eq_false_2 by (simpl; lia). split; by intros [= ->].
    + rewrite bool_decide_eq_true_2 by (simpl; lia). split; [done|done].
  - intros Hnone.
    assert (filter (λ app, name app = appName ∧ chainId app = networkChainId this)
              (appRegistry this) = []) as ->; [|done].
    induction Hnone as [|z k Hz Hk IH]; [done|]. by rewrite filter_cons, decide_False.
  - intros app1 app2 before between after -> H1 H2.
    rewrite filter_app, filter_cons, decide_True, filter_app, filter_cons, decide_True by done.
    destruct (filter _ before) as [|first rest]; cbn [app].
    + rewrite bool_decide_eq_true_2; [done|]. cbn [length]. rewrite length_app. simpl. lia.
    + rewrite bool_decide_eq_true_2; [done|]. cbn [length]. rewrite !length_app. simpl. lia.
Qed.

(** X13: [installApp] asks the provider to install only an app that the
    list of installed apps it has just fetched does not contain, and
    [uninstallApp] to uninstall only an app that list contains exactly
    once; otherwise each throws the message of its check and asks nothing
    more. *)
Theorem install_and_uninstall_check_the_list_first services appInstanceId :
  let trI := calls services (installApp stringify appInstanceId) in
  let trU := calls services (uninstallApp stringify appInstanceId) in
  (∀ id, id ∈ omap installRequested trI →
     id = appInstanceId ∧
     ∃ apps, omap appsListed trI = [apps] ∧ timesListed appInstanceId apps = 0%nat) ∧
  (∀ apps, omap appsListed trI = [apps] → timesListed appInstanceId apps ≠ 0%nat →
     omap installRequested trI = [] ∧
     result services (installApp stringify appInstanceId) =
       inl (Error ("App with id " +:+ appInstanceId +:+ " is already installed. " +:+
                   "Installed apps: " +:+ stringify apps +:+ "."))) ∧
  (∀ id, id ∈ omap uninstallRequested trU →
     id = appInstanceId ∧
     ∃ apps, omap appsListed trU = [apps] ∧ timesListed appInstanceId apps = 1%nat) ∧
  (∀ apps, omap appsListed trU = [apps] → timesListed appInstanceId apps ≠ 1%nat →
     omap uninstallRequested trU = [] ∧
     ∃ message,
       result services (uninstallApp stringify appInstanceId) = inl (Error message) ∧
       message ≠ "").
Proof.
  intros trI trU. subst trI trU. unfold timesListed.
  assert (∀ s t : string, s ≠ "" → s +:+ t ≠ "") as Happ.
  { intros [|c s] t Hs; [done|]. discriminate. }
  split_and!.
  - apply (always_calls _ (λ tr o, ∀ id, id ∈ omap installRequested tr →
      id = appInstanceId ∧
      ∃ apps, omap appsListed tr = [apps] ∧
              length (filter (λ app, identityHash app = appInstanceId) apps) = 0%nat)).
    cbn. split; [|intros reason id Hin; by apply elem_of_nil in Hin].
    intros apps. case_bool_decide as Hlen; cbn.
    + rewrite bool_decide_eq_false_2 by (by apply Happ).
      intros id Hin. by apply elem_of_nil in Hin.
    + split; intros ? id Hin.
      all: apply list_elem_of_singleton in Hin as ->.
      all: split; [done|]; exists apps; split; [done|lia].
  - apply (always_calls _ (λ tr o, ∀ apps, omap appsListed tr = [apps] →
      length (filter (λ app, identityHash app = appInstanceId) apps) ≠ 0%nat →
      omap installRequested tr = [] ∧
      o = inl (Error ("App with id " +:+ appInstanceId +:+ " is already installed. " +:+
                      "Installed apps: " +:+ stringify apps +:+ ".")))).
    cbn. split; [|done].
    intros apps. case_bool_decide as Hlen; cbn.
    + rewrite bool_decide_eq_false_2 by (by apply Happ).
      cbn. by intros ? [= <-] ?.
    + split; intros ? apps' [= <-] Hn; lia.
  - apply (always_calls _ (λ tr o, ∀ id, id ∈ omap uninstallRequested tr →
      id = appInstanceId ∧
      ∃ apps, omap appsListed tr = [apps] ∧
              length (filter (λ app, identityHash app = appInstanceId) apps) = 1%nat)).
    cbn. split; [|intros reason id Hin; by apply elem_of_nil in Hin].
    intros apps. repeat case_bool_decide; cbn.
    + rewrite bool_decide_eq_false_2 by (by apply Happ).
      intros id Hin. by apply elem_of_nil in Hin.
    + rewrite bool_decide_eq_false_2 by (by apply Happ).
      intros id Hin. by apply elem_of_nil in Hin.
    + split; intros ? id Hin.
      all: apply list_elem_of_singleton in Hin as ->.
      all: split; [done|]; exists apps; split; [done|lia].
  - apply (always_calls _ (λ tr o, ∀ apps, omap appsListed tr = [apps] →
      length (filter (λ app, identityHash app = appInstanceId) apps) ≠ 1%nat →
      omap uninstallRequested tr = [] ∧ ∃ message, o = inl (Error message) ∧ message ≠ "")).
    cbn. split; [|done].
    intros apps. repeat case_bool_decide; cbn.
    + rewrite bool_decide_eq_false_2 by (by apply Happ).
      cbn. intros ? [= <-] ?. split; [done|]. eexists. split; [done|by apply Happ].
    + rewrite bool_decide_eq_false_2 by (by apply Happ).
      cbn. intros ? [= <-] ?. split; [done|]. eexists. split; [done|by apply Happ].
    + split; intros ? apps' [= <-] Hn; lia.
Qed.

(** What each of the two sweeps adds to the calls made so far. *)
Lemma always_removeHanging appDefinitions hist :
  always (removeHangingProposalsByDefinition appDefinitions) hist (λ tr o,
    ∃ new, tr = hist ++ new ∧
      uninstallsRequested new = [] ∧ appListings new = [] ∧
      (proposalListings new = [] ∧ rejectsRequested new = [] ∧ o ≠ inr () ∨
       ∃ proposed,
         proposalListings new = [proposed] ∧
         rejectsRequested new `prefix_of` hangingIds appDefinitions proposed ∧
         (o = inr () → rejectsRequested new = hangingIds appDefinitions proposed))).
Proof.
  unfold removeHangingProposalsByDefinition, getProposedAppInstances. cbn. split.
  - intros proposed.
    set (listing := Called chan_getProposedAppInstances (Resolved proposed)).
    set (hanging := filter _ proposed).
    eapply always_mono;
      [|apply (always_forOf hanging _ _
                 (λ done tr, ∃ new, tr = hist ++ listing :: new ∧
                    uninstallsRequested new = [] ∧ appListings new = [] ∧
                    proposalListings new = [] ∧
                    rejectsRequested new = Proposal.identityHash <$> done)
                 (λ done a tr, ∃ new, tr = hist ++ listing :: new ∧
                    uninstallsRequested new = [] ∧ appListings new = [] ∧
                    proposalListings new = [] ∧
                    rejectsRequested new = Proposal.identityHash <$> (done ++ [a])))].
    + intros tr [e|[]].
      * intros (done & a & rest & Hl & new & -> & Hu & Ha & Hp & Hr).
        exists (listing :: new). split; [done|].
        unfold uninstallsRequested, appListings, proposalListings, rejectsRequested in *.
        cbn. rewrite Hu, Ha, Hp, Hr. split_and!; [done..|]. right. exists proposed.
        split_and!; [done| |done].
        unfold hangingIds. fold hanging. rewrite Hl.
        exists (Proposal.identityHash <$> rest). rewrite !fmap_app. by rewrite <- app_assoc.
      * intros (new & -> & Hu & Ha & Hp & Hr).
        exists (listing :: new). split; [done|].
        unfold uninstallsRequested, appListings, proposalListings, rejectsRequested in *.
        cbn. rewrite Hu, Ha, Hp, Hr. split_and!; [done..|]. right. exists proposed.
        by split_and!.
    + by exists [].
    + intros done a rest tr _ (new & -> & Hu & Ha & Hp & Hr). cbn.
      unfold uninstallsRequested, appListings, proposalListings, rejectsRequested in *.
      split; [intros ?|intros ?].
      all: eexists (new ++ [_]); split; [by rewrite <- app_assoc|].
      all: rewrite !omap_app, Hu, Ha, Hp, Hr, fmap_app; by cbn.
  - intros reason. eexists [_]. split; [done|]. split_and!; [done..|]. by left.
Qed.

Lemma always_uninstallAll appDefinitions hist :
  always (uninstallAllAppsByDefintion stringify appDefinitions) hist (λ tr o,
    ∃ new, tr = hist ++ new ∧
      rejectsRequested new = [] ∧ proposalListings new = [] ∧
      (appListings new = [] ∧ uninstallsRequested new = [] ∧ o ≠ inr () ∨
       ∃ apps more,
         appListings new = apps :: more ∧
         uninstallsRequested new `prefix_of` installedIds appDefinitions apps ∧
         (o = inr () → uninstallsRequested new = installedIds appDefinitions apps))).
Proof.
  assert (∀ s t : string, s ≠ "" → s +:+ t ≠ "") as Happ.
  { intros [|c s] t Hs; [done|]. discriminate. }
  unfold uninstallAllAppsByDefintion, getAppInstances. cbn. split.
  - intros apps.
    set (listing := Called chan_getAppInstances (Resolved apps)).
    set (matching := filter _ apps).
    eapply always_mono;
      [|apply (always_forOf matching _ _
                 (λ done tr, ∃ new, tr = hist ++ listing :: new ∧
                    rejectsRequested new = [] ∧ proposalListings new = [] ∧
                    uninstallsRequested new = identityHash <$> done)
                 (λ done a tr, ∃ new, tr = hist ++ listing :: new ∧
                    rejectsRequested new = [] ∧ proposalListings new = [] ∧
                    (uninstallsRequested new = identityHash <$> done ∨
                     uninstallsRequested new = identityHash <$> (done ++ [a]))))].
    + intros tr [e|[]].
      * intros (done & a & rest & Hl & new & -> & Hr & Hp & Hu).
        exists (listing :: new). split; [done|].
        unfold uninstallsRequested, appListings, proposalListings, rejectsRequested in *.
        cbn. rewrite Hr, Hp. split_and!; [done..|]. right. eexists apps, _.
        split_and!; [done| |done].
        unfold installedIds. fold matching. rewrite Hl.
        destruct Hu as [-> | ->].
        -- exists (identityHash <$> a :: rest). by rewrite !fmap_app.
        -- exists (identityHash <$> rest). rewrite !fmap_app. by rewrite <- app_assoc.
      * intros (new & -> & Hr & Hp & Hu).
        exists (listing :: new). split; [done|].
        unfold uninstallsRequested, appListings, proposalListings, rejectsRequested in *.
        cbn. rewrite Hr, Hp, Hu. split_and!; [done..|]. right. eexists apps, _.
        by split_and!.
    + by exists [].
    + intros done a rest tr _ (new & -> & Hr & Hp & Hu).
      unfold uninstallApp, appNotInstalled, getAppInstances. cbn.
      unfold uninstallsRequested, appListings, proposalListings, rejectsRequested in *.
      split.
      * intros apps'. repeat case_bool_decide; cbn.
        all: rewrite ?bool_decide_eq_false_2 by (by apply Happ); cbn.
        1,2: eexists (new ++ [_]); split; [by rewrite <- app_assoc|].
        1,2: rewrite !omap_app, Hr, Hp, Hu; cbn; rewrite app_nil_r; split_and!; [done..|by left].
        split; intros ?.
        all: eexists (new ++ [_; _]); split; [by rewrite <- !app_assoc|].
        all: rewrite !omap_app, Hr, Hp, Hu, ?fmap_app; cbn; split_and!; [done..|].
        all: try done. by right.
      * intros reason. eexists (new ++ [_]); split; [by rewrite <- app_assoc|].
        rewrite !omap_app, Hr, Hp, Hu; cbn; rewrite app_nil_r; split_and!; [done..|by left].
  - intros reason. eexists [_]. split; [done|]. split_and!; [done..|]. by left.
Qed.

(** X14: [removeHangingProposalsByDefinition] rejects, in the order of
    the list of proposals it fetched, the proposals whose definition is
    one of those given, and no other; [uninstallAllAppsByDefintion] does
    the same with the installed apps it fetched first; each stops at the
    first app that fails, and has gone through all of them when it
    succeeds. *)
Theorem sweeps_follow_the_fetched_lists services appDefinitions :
  let trR := calls services (removeHangingProposalsByDefinition appDefinitions) in
  let trU := calls services (uninstallAllAppsByDefintion stringify appDefinitions) in
  match proposalListings trR with
  | [proposed] =>
      rejectsRequested trR `prefix_of` hangingIds appDefinitions proposed ∧
      (result services (removeHangingProposalsByDefinition appDefinitions) = inr () →
       rejectsRequested trR = hangingIds appDefinitions proposed)
  | _ =>
      rejectsRequested trR = [] ∧
      result services (removeHangingProposalsByDefinition appDefinitions) ≠ inr ()
  end ∧
  match appListings trU with
  | apps :: _ =>
      uninstallsRequested trU `prefix_of` installedIds appDefinitions apps ∧
      (result services (uninstallAllAppsByDefintion stringify appDefinitions) = inr () →
       uninstallsRequested trU = installedIds appDefinitions apps)
  | [] =>
      uninstallsRequested trU = [] ∧
      result services (uninstallAllAppsByDefintion stringify appDefinitions) ≠ inr ()
  end.
Proof.
  intros trR trU. subst trR trU. split.
  - pose proof (always_calls _ _ services (always_removeHanging appDefinitions []))
      as (new & Hnew & _ & _ & Hcases).
    simpl in Hnew. rewrite Hnew.
    destruct Hcases as [(-> & -> & Hfail)|(proposed & -> & Hprefix & Hall)]; by split.
  - pose proof (always_calls _ _ services (always_uninstallAll appDefinitions []))
      as (new & Hnew & _ & _ & Hcases).
    simpl in Hnew. rewrite Hnew.
    destruct Hcases as [(-> & -> & Hfail)|(apps & more & -> & Hprefix & Hall)]; by split.
Qed.

(** X15: [cleanupRegistryApps] throws a [TypeError] before asking anything
    when the registry has no swap app or no linked-transfer app; else it
    rejects only proposals of the definitions of the first registry
    entries of these two names, and uninstalls only installed apps of the
    swap definition, and these only after every such proposal has been
    rejected: an installed linked transfer is left installed. *)
Theorem cleanup_leaves_linked_transfers_installed services :
  let tr := calls services (cleanupRegistryApps stringify this) in
  match firstDefinitionOf this "SimpleTwoPartySwapApp",
        firstDefinitionOf this "SimpleLinkedTransferApp" with
  | inr swapApp, inr linkedApp =>
      match proposalListings tr with
      | [proposed] =>
          rejectsRequested tr `prefix_of` hangingIds [swapApp; linkedApp] proposed ∧
          (appListings tr ≠ [] →
           rejectsRequested tr = hangingIds [swapApp; linkedApp] proposed)
      | _ => rejectsRequested tr = [] ∧ appListings tr = []
      end ∧
      match appListings tr with
      | apps :: _ => uninstallsRequested tr `prefix_of` installedIds [swapApp] apps
      | [] => uninstallsRequested tr = []
      end
  | _, _ =>
      tr = [] ∧
      ∃ what, result services (cleanupRegistryApps stringify this) = inl (JsTypeError what)
  end.
Proof.
  intros tr. subst tr. unfold cleanupRegistryApps, firstDefinitionOf.
  destruct (filter _ (appRegistry this)) as [|swapApp ?]; [by split; [|eexists]|].
  destruct (filter _ (appRegistry this)) as [|linkedApp ?]; [by split; [|eexists]|].
  cbn [attempt mbind Task_bind bindTask].
  apply (always_calls _ (λ tr o,
    match proposalListings tr with
    | [proposed] =>
        rejectsRequested tr `prefix_of` hangingIds _ proposed ∧
        (appListings tr ≠ [] → rejectsRequested tr = hangingIds _ proposed)
    | _ => rejectsRequested tr = [] ∧ appListings tr = []
    end ∧
    match appListings tr with
    | apps :: _ => uninstallsRequested tr `prefix_of` installedIds _ apps
    | [] => uninstallsRequested tr = []
    end)).
  apply always_bind. eapply always_mono; [|apply always_removeHanging].
  intros tr1 o1 (new1 & Hnew1 & Hu1 & Ha1 & Hcases1). simpl in Hnew1. subst tr1.
  destruct o1 as [e|[]].
  - rewrite Ha1, Hu1.
    destruct Hcases1 as [(-> & -> & _)|(proposed & -> & Hprefix & _)]; by split_and!.
  - destruct Hcases1 as [(_ & _ & Hfail)|(proposed & Hp1 & Hprefix & Hall)]; [done|].
    eapply always_mono; [|apply always_uninstallAll].
    intros tr o (new & -> & Hr & Hp & Hcases).
    unfold uninstallsRequested, appListings, proposalListings, rejectsRequested in *.
    rewrite !omap_app, Hr, Hp, Hp1, Ha1, Hu1, !app_nil_r, Hall by done. cbn.
    split; [done|].
    destruct Hcases as [(-> & -> & _)|(apps & more & -> & Hprefix' & _)]; done.
Qed.

(** X20: [takeAction] and [updateState] ask the provider to change the
    state of an app only after two lists of installed apps in a row, each
    fetched anew, held the app exactly once, and the state fetched between
    them and the request was not finalized; when the second list does not
    hold the app exactly once the call ends in a [TypeError], and when the
    state is finalized in the error that says so, with no request to
    change the state. *)
Theorem state_changes_need_an_installed_app_that_is_not_finalized services appInstanceId
    (byAction : bool) payload :
  let change := if byAction then takeAction stringify appInstanceId payload
                else updateState stringify appInstanceId payload in
  let tr := calls services change in
  (∀ id, id ∈ omap changeRequested tr →
     id = appInstanceId ∧
     ∃ apps1 apps2 state,
       appListings tr = [apps1; apps2] ∧
       timesListed appInstanceId apps1 = 1%nat ∧
       timesListed appInstanceId apps2 = 1%nat ∧
       omap stateFetched tr = [state] ∧ finalized state = false) ∧
  (∀ apps1 apps2,
     appListings tr = [apps1; apps2] →
     timesListed appInstanceId apps2 ≠ 1%nat →
     omap changeRequested tr = [] ∧ omap stateFetched tr = [] ∧
     ∃ what, result services change = inl (JsTypeError what)) ∧
  (∀ state,
     omap stateFetched tr = [state] → finalized state = true →
     omap changeRequested tr = [] ∧
     result services change =
       inl (Error "Cannot take action on an app with a finalized state.")).
Proof.
  assert (∀ s t : string, s ≠ "" → s +:+ t ≠ "") as Happ.
  { intros [|c s] t Hs; [done|]. discriminate. }
  intros change tr. subst tr. unfold timesListed, appListings.
  apply (always_calls change (λ tr o,
    (∀ id, id ∈ omap changeRequested tr →
       id = appInstanceId ∧
       ∃ apps1 apps2 state,
         omap appsListed tr = [apps1; apps2] ∧
         length (filter (λ app, identityHash app = appInstanceId) apps1) = 1%nat ∧
         length (filter (λ app, identityHash app = appInstanceId) apps2) = 1%nat ∧
         omap stateFetched tr = [state] ∧ finalized state = false) ∧
    (∀ apps1 apps2,
       omap appsListed tr = [apps1; apps2] →
       length (filter (λ app, identityHash app = appInstanceId) apps2) ≠ 1%nat →
       omap changeRequested tr = [] ∧ omap stateFetched tr = [] ∧
       ∃ what, o = inl (JsTypeError what)) ∧
    (∀ state,
       omap stateFetched tr = [state] → finalized state = true →
       omap changeRequested tr = [] ∧
       o = inl (Error "Cannot take action on an app with a finalized state.")))).
  subst change. destruct byAction.
  all: unfold takeAction, updateState, getAppState, appNotInstalled, getAppInstances.
  all: repeat task_step.
  all: repeat match goal with
       | Hx : truthyString (Some _) = false |- _ =>
           cbn in Hx; rewrite bool_decide_eq_false_2 in Hx by (by apply Happ); done
       end.
  all: cbn; split_and!.
  all: try (intros id Hin; try (by apply elem_of_nil in Hin);
            apply list_elem_of_singleton in Hin as ->).
  all: try (intros apps1 apps2 [= <- <-] Hn).
  all: try (intros st [= <-] Hfin).
  all: try done.
  all: repeat match goal with
       | Hx : bool_decide _ = true |- _ => apply bool_decide_eq_true_1 in Hx
       | Hx : bool_decide _ = false |- _ => apply bool_decide_eq_false_1 in Hx
       end.
  all: try lia.
  all: try (split; [done|]; eexists _, _, _; split_and!; [done|lia|lia|done|done]).
  all: try (split_and!; [done..|by eexists]).
  all: try congruence.
Qed.

(** The refund app found has the asset asked for. *)
Lemma refundAppOf_Some asset apps app :
  refundAppOf this asset apps = Some app →
  appInterfaceAddr app = coinBalanceRefundApp this ∧
  tokenAddress (latestState app) = Some asset.
Proof.
  unfold refundAppOf. intros Hhead.
  assert (app ∈ filter (λ app, appInterfaceAddr app = coinBalanceRefundApp this ∧
                               tokenAddress (latestState app) = Some asset) apps) as Hin.
  { destruct (filter _ apps) as [|first rest]; [done|]. injection Hhead as ->. by left. }
  by apply list_elem_of_filter in Hin as [Hin _].
Qed.

(** X21: [uninstallCoinBalanceIfNeeded] asks to rescind the deposit rights
    only for the asset at hand, when the first refund app of that asset in
    the list it fetched names the client's free-balance address as
    recipient and the multisig holds more than the app's threshold; with
    less it throws, with just the threshold it registers one listener (for
    the balance of the multisig when the asset is ether, for transfers of
    the token otherwise) and asks for nothing more itself, and with no
    such app, or one of the counterparty, it returns after the one
    listing.  The listener it registers, when fired, makes no call but the
    request to rescind the rights for that asset, and makes it exactly
    when the transfer is one of a positive amount to the multisig (no
    balance is read then), or when the new balance is above the
    threshold. *)
Theorem refund_app_is_uninstalled_only_after_the_deposit services assetId :
  let asset := default AddressZero assetId in
  let tr := calls services (uninstallCoinBalanceIfNeeded this assetId) in
  (∀ request, request ∈ omap rescindRequested tr →
     request = (multisigAddress this, asset) ∧
     ∃ apps app balance,
       appListings tr = [apps] ∧ refundAppOf this asset apps = Some app ∧
       recipient (latestState app) = Some (freeBalanceAddress this) ∧
       omap balanceReported tr = [balance] ∧
       threshold (latestState app) < balance) ∧
  (∀ apps app balance,
     appListings tr = [apps] → refundAppOf this asset apps = Some app →
     omap balanceReported tr = [balance] →
     balance ≤ threshold (latestState app) →
     omap rescindRequested tr = [] ∧
     if bool_decide (balance < threshold (latestState app))
     then result services (uninstallCoinBalanceIfNeeded this assetId) =
            inl (Error ("Something is wrong! multisig balance is less than the threshold " +:+
                        "of the installed coin balance refund app.")) ∧
          omap listenerRegistered tr = []
     else omap listenerRegistered tr =
            [if bool_decide (asset = "" ∨ asset = AddressZero)
             then OnBalance (multisigAddress this)
             else OnTransfer asset]) ∧
  (∀ apps,
     appListings tr = [apps] →
     match refundAppOf this asset apps with
     | Some app => recipient (latestState app) ≠ Some (freeBalanceAddress this)
     | None => True
     end →
     length tr = 1%nat ∧
     result services (uninstallCoinBalanceIfNeeded this assetId) = inr ()) ∧
  (∀ call event listener,
     call ∈ tr → listenerFired call event = Some listener →
     ∃ apps app,
       appListings tr = [apps] ∧ refundAppOf this asset apps = Some app ∧
       recipient (latestState app) = Some (freeBalanceAddress this) ∧
       omap balanceReported tr = [threshold (latestState app)] ∧
       ∀ later,
         length (calls later listener) = length (omap rescindRequested (calls later listener)) ∧
         omap rescindRequested (calls later listener) =
           if match event with
              | Transfer _ recipient amount =>
                  bool_decide (recipient = multisigAddress this ∧ 0 < amount)
              | NewBalance balance => bool_decide (threshold (latestState app) < balance)
              end
           then [(multisigAddress this, asset)]
           else []).
Proof.
  clear stringify. intros asset tr. subst tr asset. unfold appListings.
  match goal with
  | |- ?c1 ∧ ?c2 ∧ ?c3 ∧ ?c4 =>
      cut ((c1 ∧ c2 ∧ c3) ∧ c4); [intros [(?&?&?) ?]; by split_and!|]
  end.
  split; [|apply (always_calls _ (λ tr o,
    (∀ call event listener,
       call ∈ tr → listenerFired call event = Some listener →
       ∃ apps app,
         omap appsListed tr = [apps] ∧
         refundAppOf this (default AddressZero assetId) apps = Some app ∧
         recipient (latestState app) = Some (freeBalanceAddress this) ∧
         omap balanceReported tr = [threshold (latestState app)] ∧
         ∀ later,
           length (calls later listener)
             = length (omap rescindRequested (calls later listener)) ∧
           omap rescindRequested (calls later listener) =
             if match event with
                | Transfer _ recipient amount =>
                    bool_decide (recipient = multisigAddress this ∧ 0 < amount)
                | NewBalance balance => bool_decide (threshold (latestState app) < balance)
                end
             then [(multisigAddress this, default AddressZero assetId)]
             else [])))].
  2: {
    unfold uninstallCoinBalanceIfNeeded, getBalanceRefundApp, rescindDepositRights,
      getAppInstances.
    repeat task_step.
    all: repeat match goal with
         | Hx : head (filter _ ?l) = ?r |- _ =>
             change (refundAppOf this (default AddressZero assetId) l = r) in Hx
         end.
    all: cbn; intros call event listener Hin Hfired.
    all: repeat (apply elem_of_cons in Hin as [->|Hin]).
    all: try (by apply elem_of_nil in Hin).
    all: try done.
    all: destruct event; try done; injection Hfired as <-.
    all: repeat match goal with
         | Hx : bool_decide _ = true |- _ => apply bool_decide_eq_true_1 in Hx
         | Hx : bool_decide _ = false |- _ => apply bool_decide_eq_false_1 in Hx
         | Hx : negb _ = true |- _ => apply (proj1 (negb_true_iff _)) in Hx
         | Hx : negb _ = false |- _ => apply (proj1 (negb_false_iff _)) in Hx
         end.
    all: subst; eexists _, _; split_and!; [done|eassumption|done|done|].
    all: intros later; rewrite ?bool_decide_and; unfold calls.
    all: match goal with |- context [if ?b then Await _ _ else _] => destruct b end.
    all: cbn; try done.
    all: match goal with
         | |- context [match ?settled with Resolved _ => _ | Refused _ => _ end] =>
             destruct settled
         end; done.
  }
  apply (always_calls _ (λ tr o,
    (∀ request, request ∈ omap rescindRequested tr →
       request = (multisigAddress this, default AddressZero assetId) ∧
       ∃ apps app balance,
         omap appsListed tr = [apps] ∧
         refundAppOf this (default AddressZero assetId) apps = Some app ∧
         recipient (latestState app) = Some (freeBalanceAddress this) ∧
         omap balanceReported tr = [balance] ∧
         threshold (latestState app) < balance) ∧
    (∀ apps app balance,
       omap appsListed tr = [apps] →
       refundAppOf this (default AddressZero assetId) apps = Some app →
       omap balanceReported tr = [balance] →
       balance ≤ threshold (latestState app) →
       omap rescindRequested tr = [] ∧
       if bool_decide (balance < threshold (latestState app))
       then o = inl (Error ("Something is wrong! multisig balance is less than the threshold " +:+
                            "of the installed coin balance refund app.")) ∧
            omap listenerRegistered tr = []
       else omap listenerRegistered tr =
              [if bool_decide (default AddressZero assetId = ""
                               ∨ default AddressZero assetId = AddressZero)
               then OnBalance (multisigAddress this)
               else OnTransfer (default AddressZero assetId)]) ∧
    (∀ apps,
       omap appsListed tr = [apps] →
       match refundAppOf this (default AddressZero assetId) apps with
       | Some app => recipient (latestState app) ≠ Some (freeBalanceAddress this)
       | None => True
       end →
       length tr = 1%nat ∧ o = inr ()))).
  unfold uninstallCoinBalanceIfNeeded, getBalanceRefundApp, rescindDepositRights,
    getAppInstances.
  repeat task_step.
  all: repeat match goal with
       | Hx : head (filter _ ?l) = ?r |- _ =>
           change (refundAppOf this (default AddressZero assetId) l = r) in Hx
       end.
  all: cbn; split_and!.
  all: try (intros request Hin; try (by apply elem_of_nil in Hin);
            apply list_elem_of_singleton in Hin as ->).
  all: try (intros apps app balance [= <-] Happ [= <-] Hle).
  all: try (intros apps app balance [= <-] Happ Hnil Hle).
  all: try (intros apps [= <-] Hother).
  all: try done.
  all: repeat match goal with
       | Hx : bool_decide _ = true |- _ => apply bool_decide_eq_true_1 in Hx
       | Hx : bool_decide _ = false |- _ => apply bool_decide_eq_false_1 in Hx
       | Hx : negb _ = true |- _ => apply (proj1 (negb_true_iff _)) in Hx
       | Hx : negb _ = false |- _ => apply (proj1 (negb_false_iff _)) in Hx
       end.
  all: repeat match goal with
       | Hx : refundAppOf _ _ ?l = _, Hy : refundAppOf _ _ ?l = _ |- _ =>
           rewrite Hx in Hy; simplify_eq
       | Hx : refundAppOf _ _ ?l = _, Hy : context [refundAppOf _ _ ?l] |- _ =>
           rewrite Hx in Hy
       end.
  all: try done.
  all: try (exfalso; lia).
  all: try (split; [done|]; eexists _, _, _; split_and!; [done..|lia]).
  all: split; [done|].
  all: try (rewrite bool_decide_eq_true_2 by lia; by split).
  all: rewrite bool_decide_eq_false_2 by lia.
  all: match goal with
       | Hx : refundAppOf _ _ _ = Some _ |- _ =>
           apply refundAppOf_Some in Hx as [_ Htoken]; rewrite Htoken in *
       end.
  all: cbn in *.
  all: repeat case_bool_decide; simplify_eq/=; try done.
  all: exfalso; repeat match goal with Hx : _ ∨ _ |- _ => destruct Hx end.
  all: unfold AddressZero in *; first [done|congruence|tauto].
Qed.

(** X22: for the asset at hand, [checkDepositRights] reads the ether
    balance of the multisig only when the asset id is the empty string, and
    otherwise the balance the token contract at that address reports, also
    at the zero address; [uninstallCoinBalanceIfNeeded] reads the ether
    balance for the empty string and for the zero address. *)
Theorem zero_address_is_a_token_to_the_check_and_ether_to_the_uninstall services assetId :
  let asset := default AddressZero assetId in
  (∀ asked, asked ∈ omap balanceAsked (calls services (checkDepositRights this assetId)) →
     asked = if bool_decide (asset = "")
             then EtherOf (multisigAddress this)
             else TokenOf asset (multisigAddress this)) ∧
  (∀ asked,
     asked ∈ omap balanceAsked (calls services (uninstallCoinBalanceIfNeeded this assetId)) →
     asked = if bool_decide (asset = "" ∨ asset = AddressZero)
             then EtherOf (multisigAddress this)
             else TokenOf asset (multisigAddress this)).
Proof.
  clear stringify. intros asset. subst asset. split.
  - apply (always_calls _ (λ tr o, ∀ asked, asked ∈ omap balanceAsked tr →
      asked = if bool_decide (default AddressZero assetId = "")
              then EtherOf (multisigAddress this)
              else TokenOf (default AddressZero assetId) (multisigAddress this))).
    unfold checkDepositRights, getBalanceRefundApp, getAppInstances.
    repeat task_step.
    all: repeat match goal with
         | Hx : head (filter _ ?l) = ?r |- _ =>
             change (refundAppOf this (default AddressZero assetId) l = r) in Hx
         end.
    all: cbn; intros asked Hin.
    all: try (by apply elem_of_nil in Hin).
    all: apply list_elem_of_singleton in Hin as ->.
    all: match goal with
         | Hx : refundAppOf _ _ _ = Some _ |- _ =>
             apply refundAppOf_Some in Hx as [_ Htoken]; rewrite Htoken in *
         end.
    all: cbn in *.
    all: repeat case_bool_decide; simplify_eq/=; try done.
    all: exfalso; unfold AddressZero in *; congruence.
  - apply (always_calls _ (λ tr o, ∀ asked, asked ∈ omap balanceAsked tr →
      asked = if bool_decide (default AddressZero assetId = ""
                              ∨ default AddressZero assetId = AddressZero)
              then EtherOf (multisigAddress this)
              else TokenOf (default AddressZero assetId) (multisigAddress this))).
    unfold uninstallCoinBalanceIfNeeded, getBalanceRefundApp, rescindDepositRights,
      getAppInstances.
    repeat task_step.
    all: repeat match goal with
         | Hx : head (filter _ ?l) = ?r |- _ =>
             change (refundAppOf this (default AddressZero assetId) l = r) in Hx
         end.
    all: cbn; intros asked Hin.
    all: try (by apply elem_of_nil in Hin).
    all: try (apply list_elem_of_singleton in Hin as ->).
    all: try (apply elem_of_cons in Hin as [->|Hin]; [|by apply elem_of_nil in Hin]).
    all: match goal with
         | Hx : refundAppOf _ _ _ = Some _ |- _ =>
             apply refundAppOf_Some in Hx as [_ Htoken]; rewrite Htoken in *
         end.
    all: cbn in *.
    all: repeat case_bool_decide; simplify_eq/=; try done.
    all: exfalso; repeat match goal with Hx : _ ∨ _ |- _ => destruct Hx end.
    all: unfold AddressZero in *; first [done|congruence|tauto].
Qed.

End ClientFacts.

End ClientFacts.

(** ** The default options of the client *)

Module ClientDefaultsFacts.

Import ClientDefaults.

Section DefaultsFacts.

Context (toLowerCase : string → string).
Context (removeUndefinedFields : gmap string Value → gmap string Value).
Context (StoreTypes_LocalStorage : Value).
Context (hasLocalStorage : bool).

(** X17: [getDefaultOptions] throws before it calls anything when the
    network, in lower case, is none of localhost, mainnet and rinkeby; on
    mainnet, without a truthy signer among the overrides, it fails without
    generating a key or touching the local storage; and the options it
    returns hold every override as given, over the defaults, together
    with a signer, a store and the two URLs, the signer being truthy
    unless an override replaces it. *)
Theorem default_options_need_a_network_and_a_signer services network _opts :
  let task := getDefaultOptions toLowerCase removeUndefinedFields StoreTypes_LocalStorage
                hasLocalStorage network _opts in
  let opts := default ∅ (getOverrideOptions removeUndefinedFields _opts) in
  (toLowerCase network ∉ ["localhost"; "mainnet"; "rinkeby"] →
   calls services task = [] ∧
   result services task =
     inl (Error ("Provided network (" +:+ toLowerCase network +:+ ") is not supported"))) ∧
  (toLowerCase network = "mainnet" → truthyValue (field opts "signer") = false →
   forallb (λ c, negb (touchesSigner c)) (calls services task) = true ∧
   (result services task = inl (Error "Signer required for Mainnet") ∨
    ∃ reason, result services task = inl (Rejected reason))) ∧
  (∀ options, result services task = inr options →
     (∀ name v, opts !! name = Some v → options !! name = Some v) ∧
     (∀ name, name ∈ ["signer"; "store"; "ethProviderUrl"; "nodeUrl"] →
        is_Some (options !! name)) ∧
     (opts !! "signer" = None → truthyValue (field options "signer") = true)).
Proof.
  intros task opts. subst task opts. unfold getDefaultOptions, getUrlOptions.
  split_and!.
  - intros Hnet. rewrite !not_elem_of_cons in Hnet. destruct Hnet as (H1 & H2 & H3 & _).
    rewrite (bool_decide_eq_false_2 _ H1), (bool_decide_eq_false_2 _ H2),
      (bool_decide_eq_false_2 _ H3). by split.
  - intros Hnet Hsigner. rewrite Hnet.
    rewrite (bool_decide_eq_false_2 ("mainnet" = "localhost")) by done.
    rewrite (bool_decide_eq_true_2 ("mainnet" = "mainnet")) by done.
    rewrite (bool_decide_eq_false_2 ("mainnet" ≠ "mainnet")) by (intros Hne; by apply Hne).
    cbn [attempt mbind Task_bind bindTask].
    apply (always_calls _ (λ tr o,
      forallb (λ c, negb (touchesSigner c)) tr = true ∧
      (o = inl (Error "Signer required for Mainnet") ∨ ∃ reason, o = inl (Rejected reason)))).
    destruct (getOverrideOptions removeUndefinedFields _opts) as [opts|]; cbn in Hsigner |- *.
    + rewrite Hsigner. unfold getDefaultStore.
      destruct (truthyValue (field opts "store")); cbn.
      * split; [done|by left].
      * split; [intros ?; split; [done|by left]|intros ?; split; [done|right; by eexists]].
    + split; [intros ?; split; [done|by left]|intros ?; split; [done|right; by eexists]].
  - intros options.
    set (Q := λ (options : gmap string Value) (opts : gmap string Value),
      (∀ name v, opts !! name = Some v → options !! name = Some v) ∧
      (∀ name, name ∈ ["signer"; "store"; "ethProviderUrl"; "nodeUrl"] →
         is_Some (options !! name)) ∧
      (opts !! "signer" = None → truthyValue (field options "signer") = true)).
    assert (∀ (opts urls : gmap string Value) signer store u1 u2,
              urls = {[ "ethProviderUrl" := u1; "nodeUrl" := u2 ]} →
              truthyValue signer = true →
              Q (opts ∪ (urls ∪ {[ "signer" := signer; "store" := store ]})) opts) as HQ.
    { intros opts urls signer store u1 u2 -> Hsigner. unfold Q. split_and!.
      - intros name v Hv. by apply lookup_union_Some_l.
      - intros name Hin. apply lookup_union_is_Some.
        destruct (opts !! name); [left; by eexists|right].
        apply lookup_union_is_Some.
        repeat (apply elem_of_cons in Hin as [->|Hin]); [right|right|left|left|];
          try by eexists.
        by apply elem_of_nil in Hin.
      - intros Hnone. unfold field. rewrite lookup_union_r by done.
        rewrite lookup_union_r by done. by rewrite lookup_insert_eq. }
    revert options.
    apply (always_calls _ (λ tr o, ∀ options, o = inr options →
             Q options (default ∅ (getOverrideOptions removeUndefinedFields _opts)))).
    unfold getDefaultStore, getGeneratedSigner.
    repeat case_bool_decide.
    all: repeat task_step.
    all: cbn; try done.
    all: try (intros options [= <-]).
    all: eapply HQ; [reflexivity|].
    all: repeat match goal with
         | Hx : negb _ = false |- _ => apply (proj1 (negb_false_iff _)) in Hx
         end; try done.
Qed.

(** X18: the signer [getGeneratedSigner] returns is, where there is a
    local storage, the non-empty value stored under
    [CONNEXT_DEFAULT_SIGNER], with no key generated and nothing written,
    or else a freshly generated key that it has written there; and where
    there is none, a freshly generated key, with the storage left alone. *)
Theorem generated_signer_comes_from_storage_or_goes_there services signer :
  let tr := calls services (getGeneratedSigner hasLocalStorage) in
  result services (getGeneratedSigner hasLocalStorage) = inr signer →
  if hasLocalStorage then
    ∃ stored,
      omap itemRead tr = [(CONNEXT_DEFAULT_SIGNER_KEY, stored)] ∧
      if truthyString stored
      then stored = Some signer ∧ omap keyGenerated tr = [] ∧ omap itemWritten tr = []
      else omap keyGenerated tr = [signer] ∧
           omap itemWritten tr = [(CONNEXT_DEFAULT_SIGNER_KEY, signer)]
  else
    omap itemRead tr = [] ∧ omap keyGenerated tr = [signer] ∧ omap itemWritten tr = [].
Proof.
  intros tr. subst tr.
  apply (always_calls _ (λ tr o, o = inr signer →
    if hasLocalStorage then
      ∃ stored,
        omap itemRead tr = [(CONNEXT_DEFAULT_SIGNER_KEY, stored)] ∧
        if truthyString stored
        then stored = Some signer ∧ omap keyGenerated tr = [] ∧ omap itemWritten tr = []
        else omap keyGenerated tr = [signer] ∧
             omap itemWritten tr = [(CONNEXT_DEFAULT_SIGNER_KEY, signer)]
    else
      omap itemRead tr = [] ∧ omap keyGenerated tr = [signer] ∧ omap itemWritten tr = [])).
  unfold getGeneratedSigner. destruct hasLocalStorage; cbn [negb].
  all: repeat task_step.
  all: cbn; try done.
  all: intros [= <-].
  all: try done.
  all: eexists; split; [done|].
  all: match goal with Hx : negb (truthyString ?s) = _ |- _ =>
         destruct (truthyString s) eqn:Hs; [|done]
       end; try done.
  all: destruct x as [stored|]; done.
Qed.

End DefaultsFacts.

(** X19: in a browser, whose local storage returns what was last written
    to it, two calls of [getGeneratedSigner] in a row return the same
    signer, provided the first key the generator hands out is not the
    empty string. *)
Theorem generated_signer_is_the_same_on_the_next_call initial keys :
  keys 0%nat ≠ "" →
  ∃ signer,
    result (browser initial keys)
      (first ← getGeneratedSigner true; second ← getGeneratedSigner true;
       mret (first, second)) = inr (signer, signer).
Proof.
  intros Hkey. unfold result, getGeneratedSigner. cbn.
  destruct (initial !! CONNEXT_DEFAULT_SIGNER_KEY) as [stored|] eqn:Hstored; cbn.
  - case_bool_decide as Hempty; cbn.
    + match goal with |- context [lastWritten ?i ?k ?h] =>
        assert (lastWritten i k h = Some (keys 0%nat)) as -> by reflexivity
      end.
      cbn. rewrite bool_decide_eq_false_2 by done. cbn. by eexists.
    + match goal with |- context [lastWritten ?i ?k ?h] =>
        assert (lastWritten i k h = Some stored) as -> by done
      end.
      cbn. rewrite bool_decide_eq_false_2 by done. cbn. by eexists.
  - match goal with |- context [lastWritten ?i ?k ?h] =>
      assert (lastWritten i k h = Some (keys 0%nat)) as -> by reflexivity
    end.
    cbn. rewrite bool_decide_eq_false_2 by done. cbn. by eexists.
Qed.


End ClientDefaultsFacts.

(** ** The other modules at concrete inputs *)

Module ModuleScenarioFacts.

Import ModuleScenarios.

(** X10 at the prefix of an address. *)
Lemma address_from_a_prefix :
  TestUtils.mkAddress (Some "0xabc") = "0xabc" +:+ TestUtils.zeros (42 - String.length "0xabc") ∧
  String.length (TestUtils.mkAddress (Some "0xabc")) = (42 `max` String.length "0xabc")%nat ∧
  TestUtils.mkAddress (Some (TestUtils.mkAddress (Some "0xabc")))
    = TestUtils.mkAddress (Some "0xabc").
Proof.
  pose proof (TestUtilsFacts.makers_pad_with_zeros_and_never_cut "0xabc") as Hall.
  apply Forall_cons in Hall as [_ Hall].
  apply Forall_cons in Hall as [Haddress _].
  exact Haddress.
Defined.

(** X11 at a connection with a view between two tables. *)
Lemma view_is_not_cleared :
  TestUtils.statements (calls database (TestUtils.clearDb views (Some connection)))
    = [TestUtils.deleteFrom "channel"; TestUtils.deleteFrom "transfer"] ∧
  forallb settled (calls database (TestUtils.clearDb views (Some connection))) = true.
Proof.
  destruct (TestUtilsFacts.clearDb_deletes_from_every_table_but_the_views views database
              (Some connection)) as (_ & Hdone & _).
  apply Hdone. by vm_compute.
Defined.

Import Client.

(** X12 at the registry of the scenarios. *)
Lemma swap_app_is_registered_once :
  getRegisteredAppDetails client "SimpleTwoPartySwapApp" = inr swapApp.
Proof.
  apply (proj1 (ClientFacts.getRegisteredAppDetails_needs_exactly_one_entry client
                  "SimpleTwoPartySwapApp")).
  exists [], [linkedApp]. split_and!; [done|done|done|constructor|].
  repeat constructor. by intros [? _].
Defined.

(** X13 at an app that is not installed yet. *)
Lemma new_app_is_installed :
  "new" = "new" ∧
  ∃ apps,
    omap appsListed (calls (provider 15) (installApp stringify "new")) = [apps] ∧
    timesListed "new" apps = 0%nat.
Proof.
  apply (proj1 (ClientFacts.install_and_uninstall_check_the_list_first stringify
                  (provider 15) "new")).
  vm_compute. by left.
Defined.

(** X14 at the proposals of the scenarios. *)
Lemma swap_and_linked_proposals_are_rejected :
  rejectsRequested
    (calls (provider 15) (removeHangingProposalsByDefinition ["0xSwap"; "0xLinked"]))
  = hangingIds ["0xSwap"; "0xLinked"] proposedApps.
Proof.
  destruct (ClientFacts.sweeps_follow_the_fetched_lists stringify (provider 15)
              ["0xSwap"; "0xLinked"]) as [Hrejects _].
  assert (proposalListings
            (calls (provider 15) (removeHangingProposalsByDefinition ["0xSwap"; "0xLinked"]))
          = [proposedApps]) as Hlisted by reflexivity.
  rewrite Hlisted in Hrejects. apply Hrejects. by vm_compute.
Defined.

(** X15 at the channel of the scenarios: the installed linked transfer
    stays. *)
Lemma cleanup_uninstalls_the_swap_only :
  uninstallsRequested (calls (provider 15) (cleanupRegistryApps stringify client))
    `prefix_of` installedIds ["0xSwap"] installed.
Proof.
  pose proof (ClientFacts.cleanup_leaves_linked_transfers_installed stringify client
                (provider 15)) as Hcleanup.
  assert (firstDefinitionOf client "SimpleTwoPartySwapApp" = inr "0xSwap") as Hswap
    by reflexivity.
  assert (firstDefinitionOf client "SimpleLinkedTransferApp" = inr "0xLinked") as Hlinked
    by reflexivity.
  rewrite Hswap, Hlinked in Hcleanup. destruct Hcleanup as [_ Huninstalls].
  assert (∃ more, appListings (calls (provider 15) (cleanupRegistryApps stringify client))
                  = installed :: more) as [more Hlisted] by (eexists; reflexivity).
  rewrite Hlisted in Huninstalls. exact Huninstalls.
Defined.

(** X20 at an installed app whose state is not finalized. *)
Lemma action_on_an_installed_app :
  "swap1" = "swap1" ∧
  ∃ apps1 apps2 state,
    appListings (calls (provider 15) (takeAction stringify "swap1" "action"))
      = [apps1; apps2] ∧
    timesListed "swap1" apps1 = 1%nat ∧
    timesListed "swap1" apps2 = 1%nat ∧
    omap stateFetched (calls (provider 15) (takeAction stringify "swap1" "action"))
      = [state] ∧
    finalized state = false.
Proof.
  apply (proj1 (ClientFacts.state_changes_need_an_installed_app_that_is_not_finalized
                  stringify (provider 15) "swap1" true "action")).
  vm_compute. by left.
Defined.

(** X21 at the ether refund app of the scenarios, the deposit having
    arrived. *)
Lemma deposit_rights_are_rescinded_after_the_deposit :
  ("0xMultisig", AddressZero) = (multisigAddress client, default AddressZero None) ∧
  ∃ apps app balance,
    appListings (calls (provider 15) (uninstallCoinBalanceIfNeeded client None)) = [apps] ∧
    refundAppOf client (default AddressZero None) apps = Some app ∧
    recipient (latestState app) = Some (freeBalanceAddress client) ∧
    omap balanceReported (calls (provider 15) (uninstallCoinBalanceIfNeeded client None))
      = [balance] ∧
    threshold (latestState app) < balance.
Proof.
  apply (proj1 (ClientFacts.refund_app_is_uninstalled_only_after_the_deposit client
                  (provider 15) None)).
  vm_compute. by left.
Defined.

(** The deposit not having arrived, the listener is registered for the
    balance of the multisig; fired with a balance above the threshold it
    asks to rescind the rights, and with the threshold again it asks for
    nothing. *)
Example listener_rescinds_once_the_deposit_arrives :
  omap rescindRequested (calls (provider 10) (uninstallCoinBalanceIfNeeded client None)) = [] ∧
  omap listenerRegistered (calls (provider 10) (uninstallCoinBalanceIfNeeded client None))
    = [OnBalance "0xMultisig"] ∧
  match last (calls (provider 10) (uninstallCoinBalanceIfNeeded client None)) with
  | Some registration =>
      (rescindsWhenFired registration (NewBalance 12) = Some [("0xMultisig", AddressZero)]) ∧
      (rescindsWhenFired registration (NewBalance 10) = Some [])
  | None => False
  end.
Proof. by vm_compute. Qed.

(** X22 at the zero address: a token to the check. *)
Lemma check_asks_the_token_contract_at_the_zero_address :
  TokenOf AddressZero "0xMultisig" =
    if bool_decide (default AddressZero None = "")
    then EtherOf (multisigAddress client)
    else TokenOf (default AddressZero None) (multisigAddress client).
Proof.
  apply (proj1 (ClientFacts.zero_address_is_a_token_to_the_check_and_ether_to_the_uninstall
                  client (provider 15) None)).
  vm_compute. by left.
Defined.

(** The balances the two functions read for the zero address. *)
Example balances_read_for_the_zero_address :
  omap balanceAsked (calls (provider 15) (checkDepositRights client None))
    = [TokenOf AddressZero "0xMultisig"] ∧
  omap balanceAsked (calls (provider 15) (uninstallCoinBalanceIfNeeded client None))
    = [EtherOf "0xMultisig"].
Proof. by vm_compute. Qed.

Import ClientDefaults.

(** X17 at a network that is not supported. *)
Lemma kovan_is_not_supported :
  calls (browser ∅ keysOf)
    (getDefaultOptions lowerCase dropUndefined (VString "LocalStorage") true "kovan" None) = [] ∧
  result (browser ∅ keysOf)
    (getDefaultOptions lowerCase dropUndefined (VString "LocalStorage") true "kovan" None)
  = inl (Error ("Provided network (" +:+ lowerCase "kovan" +:+ ") is not supported")).
Proof.
  apply (proj1 (ClientDefaultsFacts.default_options_need_a_network_and_a_signer lowerCase
                  dropUndefined (VString "LocalStorage") true (browser ∅ keysOf) "kovan" None)).
  unfold lowerCase. rewrite !not_elem_of_cons. split_and!; [done..|apply not_elem_of_nil].
Defined.

(** X18 in a browser whose storage is empty. *)
Lemma first_signer_is_written_to_storage :
  ∃ stored,
    omap itemRead (calls (browser ∅ keysOf) (getGeneratedSigner true))
      = [(CONNEXT_DEFAULT_SIGNER_KEY, stored)] ∧
    if truthyString stored
    then stored = Some "key0" ∧
         omap keyGenerated (calls (browser ∅ keysOf) (getGeneratedSigner true)) = [] ∧
         omap itemWritten (calls (browser ∅ keysOf) (getGeneratedSigner true)) = []
    else omap keyGenerated (calls (browser ∅ keysOf) (getGeneratedSigner true)) = ["key0"] ∧
         omap itemWritten (calls (browser ∅ keysOf) (getGeneratedSigner true))
           = [(CONNEXT_DEFAULT_SIGNER_KEY, "key0")].
Proof.
  apply (ClientDefaultsFacts.generated_signer_comes_from_storage_or_goes_there true
           (browser ∅ keysOf) "key0").
  by vm_compute.
Defined.

(** X19 in that browser. *)
Lemma signer_is_kept_between_calls :
  ∃ signer,
    result (browser ∅ keysOf)
      (first ← getGeneratedSigner true; second ← getGeneratedSigner true;
       mret (first, second)) = inr (signer, signer).
Proof.
  apply (ClientDefaultsFacts.generated_signer_is_the_same_on_the_next_call ∅ keysOf).
  by vm_compute.
Defined.

(** An override is kept as given: the node URL, and also an empty signer,
    which takes the place of the generated one. *)
Example overrides_are_kept_as_given :
  match result (browser ∅ keysOf)
          (getDefaultOptions lowerCase dropUndefined (VString "LocalStorage") true "rinkeby"
             (Some {[ "nodeUrl" := VString "http://node"; "signer" := VString "" ]})) with
  | inr options =>
      options !! "nodeUrl" = Some (VString "http://node") ∧
      options !! "signer" = Some (VString "") ∧
      options !! "ethProviderUrl"
        = Some (VString "https://rinkeby.indra.connext.network/api/ethprovider")
  | inl _ => False
  end.
Proof. by vm_compute. Qed.

(** On mainnet a signer has to be given. *)
Example mainnet_needs_a_signer :
  result (browser ∅ keysOf)
    (getDefaultOptions lowerCase dropUndefined (VString "LocalStorage") true "mainnet" None)
  = inl (Error "Signer required for Mainnet").
Proof. by vm_compute. Qed.

(** The whole clean-up on the channel of the scenarios. *)
Example cleanup_of_the_scenario :
  rejectsRequested (calls (provider 15) (cleanupRegistryApps stringify client))
    = ["proposal1"; "proposal3"] ∧
  uninstallsRequested (calls (provider 15) (cleanupRegistryApps stringify client))
    = ["swap1"] ∧
  result (provider 15) (cleanupRegistryApps stringify client) = inr ().
Proof. by vm_compute. Qed.

End ModuleScenarioFacts.
